(** * n10storage: the output parsers, the contention analyser and the
      dataset loader

    A shallow embedding of [src/n10storage/parse.py] (classes
    [BenchmarkOutput], [IorOutput] and [MdWorkbenchOutput]), of
    [src/n10storage/contention.py] ([calculate_contention_overlap] and
    [validate_contention_dataset]), of [src/n10storage/common.py]
    ([humanize_bytes]) and of [src/n10storage/load.py]
    ([load_contention_dataset]), with the properties the specification
    states about them and further properties of the code.

    Conventions of the embedding.
    - A Python exception is a value of [exn]; a computation that may raise
      has type [result A] and is sequenced with stdpp's [x ← c; k].
    - A Python [float] is modelled by the exact rational it denotes ([Q]);
      binary64 rounding and overflow are outside the model.  A pandas
      [NaN] cell is [None] in an [option Q].
    - A Python [str] is a [string] whose characters are the code points
      0..255. *)

From Stdlib Require Import ZArith QArith Qminmax Lqa Lia List String Ascii Bool.
From Stdlib Require Import DecimalString.
From stdpp Require Import base tactics option list sorting gmap strings.

Local Open Scope string_scope.

(** ** Exceptions and the error monad *)

Inductive exn : Type :=
| ValueError (msg : string)
| KeyError (key : string)
| IndexError
| TypeError
| AttributeError
| ShortJobError (walltime min_walltime : Q)
| JobOverlapError (msg : string)
| IncompleteDatasetError (message : string) (primary_nodes : Z) (contention : string).

Inductive result (A : Type) : Type :=
| Ok (a : A)
| Raise (e : exn).
Arguments Ok {A} a.
Arguments Raise {A} e.

#[global] Instance result_ret : MRet result := fun A a => Ok a.
#[global] Instance result_bind : MBind result := fun A B k c =>
  match c with
  | Ok a => k a
  | Raise e => Raise e
  end.
#[global] Instance result_fmap : FMap result := fun A B f c =>
  match c with
  | Ok a => Ok (f a)
  | Raise e => Raise e
  end.

Lemma bind_Ok {A B : Type} (c : result A) (k : A -> result B) (b : B) :
  c ≫= k = Ok b -> exists a, c = Ok a /\ k a = Ok b.
Proof. destruct c as [a|e]; simpl; [eauto | discriminate]. Qed.

(** [str(n)] for a Python integer. *)
Definition str_of_Z (n : Z) : string := NilZero.string_of_int (Z.to_int n).

(** ** Numeric helpers: comparisons on [Q], NaN-aware arithmetic *)

Definition Qltb (x y : Q) : bool := negb (Qle_bool y x).

Lemma Qltb_lt (x y : Q) : Qltb x y = true <-> (x < y)%Q.
Proof.
  unfold Qltb. rewrite negb_true_iff. split.
  - intros H. apply Qnot_le_lt. intros Hle.
    apply Qle_bool_iff in Hle. congruence.
  - intros H. destruct (Qle_bool y x) eqn:E; [|reflexivity].
    apply Qle_bool_iff in E. exfalso. exact (Qlt_not_le _ _ H E).
Qed.

Lemma Qltb_ge (x y : Q) : Qltb x y = false <-> (y <= x)%Q.
Proof.
  unfold Qltb. rewrite negb_false_iff. apply Qle_bool_iff.
Qed.

#[global] Instance Qle_dec (x y : Q) : Decision (x <= y)%Q.
Proof.
  destruct (Qle_bool x y) eqn:E.
  - left. apply Qle_bool_iff. exact E.
  - right. intros H. apply Qle_bool_iff in H. congruence.
Defined.

(** [a - b] where either operand may be NaN. *)
Definition nan_sub (a b : option Q) : option Q :=
  match a, b with
  | Some x, Some y => Some (x - y)%Q
  | _, _ => None
  end.

(** [a / b] on float64 columns: [0/0] is NaN; the analyser never divides a
    non-zero overlap by a zero total. *)
Definition nan_div (a b : option Q) : option Q :=
  match a, b with
  | Some x, Some y => if Qeq_bool y 0 then None else Some (x / y)%Q
  | _, _ => None
  end.

(** [a < b]: any comparison with NaN is false. *)
Definition nan_lt (a : option Q) (b : Q) : bool :=
  match a with
  | Some x => Qltb x b
  | None => false
  end.

(** [Series.min()] and [Series.max()], which skip NaN and give NaN on an
    all-NaN (or empty) series. *)
Fixpoint min_skipna (l : list (option Q)) : option Q :=
  match l with
  | [] => None
  | None :: l => min_skipna l
  | Some x :: l =>
      match min_skipna l with
      | None => Some x
      | Some m => Some (Qmin x m)
      end
  end.

Fixpoint max_skipna (l : list (option Q)) : option Q :=
  match l with
  | [] => None
  | None :: l => max_skipna l
  | Some x :: l =>
      match max_skipna l with
      | None => Some x
      | Some m => Some (Qmax x m)
      end
  end.

(** The default aggregation of [pivot_table]: the mean of a group, NaN for
    an empty group. *)
Definition mean (l : list Q) : option Q :=
  match l with
  | [] => None
  | _ => Some (fold_right Qplus 0%Q l / inject_Z (Z.of_nat (length l)))%Q
  end.

(** [Series.unique()]: the distinct values in order of first appearance. *)
Fixpoint unique {A : Type} `{EqDecision A} (l : list A) : list A :=
  match l with
  | [] => []
  | x :: l => x :: filter (fun y => y <> x) (unique l)
  end.

Lemma elem_of_unique {A : Type} `{EqDecision A} (l : list A) (x : A) :
  x ∈ unique l <-> x ∈ l.
Proof.
  induction l as [|y l IH]; simpl; [reflexivity|].
  rewrite !elem_of_cons, list_elem_of_filter, IH.
  destruct (decide (x = y)); intuition.
Qed.

Lemma NoDup_unique {A : Type} `{EqDecision A} (l : list A) : NoDup (unique l).
Proof.
  induction l as [|y l IH]; simpl; constructor.
  - rewrite list_elem_of_filter. intuition.
  - apply NoDup_filter. exact IH.
Qed.

(** Label lookup in a list of labelled entries (the first match). *)
Fixpoint assoc {K V : Type} `{EqDecision K} (k : K) (l : list (K * V)) : option V :=
  match l with
  | [] => None
  | (k', v) :: l => if decide (k' = k) then Some v else assoc k l
  end.

(** ** contention.py: the data model *)

Module Contention.

(** One row of the dataframe produced by [load_contention_datasets]; only
    the columns the analyser reads. *)
Record row : Type := Row {
  dataset_id : string;
  primary_nodes : Z;
  contention : string;
  workload_id : string;
  start : Q;
  end_ : Q
}.

(** A column label of the pivoted frame below the start/end level:
    (primary_nodes, contention, workload_id). *)
Abbreviation col_key := (Z * string * string)%type.

Definition row_key (r : row) : col_key :=
  (primary_nodes r, contention r, workload_id r).

(** [pivot_table] sorts its column labels lexicographically. *)
Definition col_key_compare (a b : col_key) : comparison :=
  match Z.compare a.1.1 b.1.1 with
  | Eq =>
      match String.compare a.1.2 b.1.2 with
      | Eq => String.compare a.2 b.2
      | o => o
      end
  | o => o
  end.

Definition col_key_le (a b : col_key) : Prop := col_key_compare a b <> Gt.

#[global] Instance col_key_le_dec (a b : col_key) : Decision (col_key_le a b).
Proof. unfold col_key_le. apply _. Defined.

(** The column labels of
    [dataframe.pivot_table(index=["dataset_id"], values=["start", "end"],
       columns=["primary_nodes", "contention", "workload_id"])]:
    the observed combinations, sorted.  Each label carries a "start" and an
    "end" column. *)
Definition pivot_columns (dataframe : list row) : list col_key :=
  merge_sort col_key_le (unique (fmap row_key dataframe)).

(** The rows aggregated into one cell of the pivot. *)
Definition group (dataframe : list row) (d : string) (k : col_key) : list row :=
  filter (fun r => dataset_id r = d /\ row_key r = k) dataframe.

(** A cell of the pivot: the mean of the group, NaN when it is empty. *)
Definition pivot_cell (value : row -> Q) (dataframe : list row)
    (d : string) (k : col_key) : option Q :=
  mean (fmap value (group dataframe d k)).

(** [pivoted_df[value, numnode, contention]] restricted to the row [d]: the
    cells of the workload columns under that label. *)
Definition sub_columns (cols : list col_key) (numnode : Z) (cont : string)
    : list col_key :=
  filter (fun k => k.1.1 = numnode /\ k.1.2 = cont) cols.

Definition sub_frame_row (value : row -> Q) (dataframe : list row)
    (numnode : Z) (cont : string) (d : string) : list (option Q) :=
  fmap (pivot_cell value dataframe d)
      (sub_columns (pivot_columns dataframe) numnode cont).

(** The three seconds columns of one (dataset_id, primary_nodes, contention)
    cell of the overlap table. *)
Record cell : Type := Cell {
  overlapping : option Q;
  non_overlapping : option Q;
  total : option Q
}.

(** [max(0.0, x)]: Python keeps the first argument unless the second is
    greater, so a NaN difference becomes 0.0. *)
Definition clamp0 (x : option Q) : option Q :=
  match x with
  | Some v => Some (if Qltb 0 v then v else 0%Q)
  | None => Some 0%Q
  end.

Definition overlap_cell (dataframe : list row) (numnode : Z) (cont : string)
    (d : string) : cell :=
  let ends := sub_frame_row end_ dataframe numnode cont d in
  let starts := sub_frame_row start dataframe numnode cont d in
  let ov := clamp0 (nan_sub (min_skipna ends) (max_skipna starts)) in
  let tot := nan_sub (max_skipna ends) (min_skipna starts) in
  {| overlapping := ov; non_overlapping := nan_sub tot ov; total := tot |}.

(** The overlap table: indexed by the dataset ids in order of appearance,
    with one column group per (primary_nodes, contention) of
    [MultiIndex.from_product]. *)
Record overlaps : Type := Overlaps {
  index : list string;
  columns : list (Z * string);
  cells : list ((Z * string) * list (string * cell))
}.

(** ** calculate_contention_overlap *)

(** The body of the two nested loops, over the label pairs in loop order.
    Indexing the pivot with a pair that labels no column raises [KeyError],
    which the source turns into [IncompleteDatasetError]. *)
Fixpoint overlap_loop (dataframe : list row) (ids : list string)
    (pairs : list (Z * string))
    : result (list ((Z * string) * list (string * cell))) :=
  match pairs with
  | [] => Ok []
  | (numnode, cont) :: rest =>
      match sub_columns (pivot_columns dataframe) numnode cont with
      | [] =>
          Raise (IncompleteDatasetError
                   ("incomplete dataset for primary_nodes=" ++ str_of_Z numnode
                    ++ " contention=" ++ cont)
                   numnode cont)
      | _ :: _ =>
          let col := fmap (fun d => (d, overlap_cell dataframe numnode cont d)) ids in
          done ← overlap_loop dataframe ids rest;
          Ok (((numnode, cont), col) :: done)
      end
  end.

Definition loop_pairs (dataframe : list row) : list (Z * string) :=
  let cols := pivot_columns dataframe in
  numnode ← unique (fmap (fun k => k.1.1) cols);
  cont ← unique (fmap (fun k => k.1.2) cols);
  [(numnode, cont)].

Definition calculate_contention_overlap (dataframe : list row) : result overlaps :=
  let ids := unique (fmap dataset_id dataframe) in
  cs ← overlap_loop dataframe ids (loop_pairs dataframe);
  Ok {| index := ids;
        columns :=
          (numnode ← merge_sort Z.le (unique (fmap primary_nodes dataframe));
           cont ← unique (fmap contention dataframe);
           [(numnode, cont)]);
        cells := cs |}.

(** [overlaps.loc[d, (numnode, contention)]]. *)
Definition lookup_cell (t : overlaps) (d : string) (numnode : Z) (cont : string)
    : option cell :=
  col ← assoc (numnode, cont) (cells t);
  assoc d col.

(** ** validate_contention_dataset *)

(** What [vprint] writes, one constructor per message of the source; the
    numbers are kept as values rather than formatted. *)
Inductive message : Type :=
| ShortWalltimeDetected (offending : option row)
| RapidQuietStartsDetected (jobs : list row)
| LowNoisyOverlap (fatal : bool) (nodes : Z) (jobid : string)
    (overlapping_frac overlapping_secs non_overlapping_secs total_secs : option Q).

Definition vprint (quiet : bool) (m : message) : list message :=
  if quiet then [] else [m].

(** The position of the first entry equal to the (non-NaN) minimum:
    [idxmin] and [numpy.nanargmin]. *)
Definition nanargmin (l : list (option Q)) : option nat :=
  match min_skipna l with
  | Some m =>
      fst <$> list_find
        (fun x => match x with Some v => Qeq_bool v m | None => false end = true) l
  | None => None
  end.

Definition walltimes (dataframe : list row) : list (option Q) :=
  fmap (fun r => Some (end_ r - start r)%Q) dataframe.

(** The frame [deltatime] is built and never read; what remains of it is the
    ways its construction can raise.  [sec] and [pri] select the columns
    whose workload_id is "secondary" and "primary" ([KeyError] when the
    label is absent); [sec.values - pri.values] needs column counts that
    broadcast; and the data must be as wide as the column labels with the
    workload_id level dropped.  Every label stands for a start and an end
    column, hence the factor two. *)
Definition deltatime_width (dataframe : list row) : result nat :=
  let cols := pivot_columns dataframe in
  let sec := filter (fun k : col_key => k.2 = "secondary") cols in
  let pri := filter (fun k : col_key => k.2 = "primary") cols in
  if decide (sec = []) then Raise (KeyError "secondary")
  else if decide (pri = []) then Raise (KeyError "primary")
  else
    let a := (2 * length sec)%nat in
    let b := (2 * length pri)%nat in
    width ← (if decide (a = b) then Ok a
             else if decide (b = 1%nat) then Ok a
             else if decide (a = 1%nat) then Ok b
             else Raise (ValueError "operands could not be broadcast together"));
    if decide (width = (2 * length (unique (fmap fst cols)))%nat) then Ok width
    else Raise (ValueError "Shape of passed values does not match the indices").

Definition start_le (a b : row) : Prop := (start a <= start b)%Q.

#[global] Instance start_le_dec (a b : row) : Decision (start_le a b).
Proof. unfold start_le. apply _. Defined.

(** [dataframe[dataframe['contention'] == 'quiet'].sort_values("start")].
    The order of rows with equal start is not fixed by the source; it only
    shows in the printed message. *)
Definition quiet_starts (dataframe : list row) : list row :=
  merge_sort start_le (filter (fun r => contention r = "quiet") dataframe).

(** The "delta" column: NaN, then the differences of consecutive starts.
    With no quiet row the one-element array still becomes the column: pandas
    gives the empty frame an index from the assigned values. *)
Definition deltas (starts : list Q) : list (option Q) :=
  None :: zip_with (fun a b => Some (b - a)%Q) starts (tail starts).

(** One row of [noisy_stats]. *)
Record noisy_stat : Type := NoisyStat {
  ns_dataset_id : string;
  ns_primary_nodes : Z;
  overlapping_secs : option Q;
  non_overlapping_secs : option Q;
  total_secs : option Q
}.

Definition overlapping_frac (s : noisy_stat) : option Q :=
  nan_div (overlapping_secs s) (total_secs s).

Definition nan_cell : cell :=
  {| overlapping := None; non_overlapping := None; total := None |}.

(** The melt of the "noisy" columns: one row per (primary_nodes, dataset_id),
    column by column.  Selecting the label "noisy" raises [KeyError] when no
    row of the input has it. *)
Definition noisy_stats (t : overlaps) : result (list noisy_stat) :=
  if decide ("noisy" ∈ fmap snd (columns t)) then
    Ok (numnode ← unique (fmap fst (columns t));
        d ← index t;
        let c := default nan_cell (lookup_cell t d numnode "noisy") in
        [{| ns_dataset_id := d; ns_primary_nodes := numnode;
            overlapping_secs := overlapping c;
            non_overlapping_secs := non_overlapping c;
            total_secs := total c |}])
  else Raise (KeyError "noisy").

(** The threshold in force: the caller's, or the formula when the caller
    passed [None]. *)
Definition warn_threshold (min_overlap : Q) (min_overlap_warn : option Q) : Q :=
  match min_overlap_warn with
  | Some w => w
  | None => (1 - (1 - min_overlap) / 2)%Q
  end.

Definition low_overlap_message (min_overlap : Q) (s : noisy_stat) : message :=
  LowNoisyOverlap (nan_lt (overlapping_frac s) min_overlap)
    (ns_primary_nodes s) (ns_dataset_id s)
    (overlapping_frac s) (overlapping_secs s) (non_overlapping_secs s) (total_secs s).

(** The function prints and may raise: a computation is what it printed
    paired with its outcome, and sequencing stops at the first raise. *)
Definition printing (A : Type) : Type := list message * result A.

Definition and_then {A B : Type} (c : printing A) (k : A -> printing B) : printing B :=
  match c with
  | (out, Ok a) => let (out', r) := k a in ((out ++ out')%list, r)
  | (out, Raise e) => (out, Raise e)
  end.

Definition silent {A : Type} (r : result A) : printing A := ([], r).

(** "ensure all jobs ran for minimum amount of time" *)
Definition check_walltime (dataframe : list row) (min_walltime : Q) (quiet : bool)
    : printing unit :=
  let walltime := min_skipna (walltimes dataframe) in
  if nan_lt walltime min_walltime then
    (vprint quiet
       (ShortWalltimeDetected
          (i ← nanargmin (walltimes dataframe); dataframe !! i)),
     Raise (ShortJobError (default 0%Q walltime) min_walltime))
  else silent (Ok tt).

(** "make sure quiet jobs all start at least 45 seconds apart, irrespective
    of dataset_id" *)
Definition check_quiet_starts (dataframe : list row) (min_walltime : Q) (quiet : bool)
    : printing unit :=
  let qs := quiet_starts dataframe in
  let delta := deltas (fmap start qs) in
  if nan_lt (min_skipna delta) min_walltime then
    (vprint quiet
       (RapidQuietStartsDetected
          (match nanargmin delta with
           | Some idxmin => take 2 (drop (idxmin - 1) qs)
           | None => []
           end)),
     Raise (JobOverlapError "rapid quiet starts found"))
  else silent (Ok tt).

(** "check noisy measurements to ensure they actually overlapped" *)
Definition check_noisy_overlap (stats : list noisy_stat) (min_overlap : Q)
    (min_overlap_warn : option Q) (quiet : bool) : printing unit :=
  let warn := warn_threshold min_overlap min_overlap_warn in
  let warning_filt := filter (fun s => nan_lt (overlapping_frac s) warn = true) stats in
  let invalid_dataset :=
    length (filter (fun s => nan_lt (overlapping_frac s) min_overlap = true) stats) in
  (warning_filt ≫= (fun s => vprint quiet (low_overlap_message min_overlap s)),
   if decide (invalid_dataset = 0%nat) then Ok tt
   else Raise (JobOverlapError "insufficient noisy overlap")).

(** The function body, with every argument bound. *)
Definition validate_body (dataframe : list row) (min_overlap min_walltime : Q)
    (min_overlap_warn : option Q) (quiet : bool) : printing unit :=
  and_then (check_walltime dataframe min_walltime quiet) (fun _ =>
  and_then (silent (deltatime_width dataframe)) (fun _ =>
  and_then (check_quiet_starts dataframe min_walltime quiet) (fun _ =>
  and_then (silent (calculate_contention_overlap dataframe ≫= noisy_stats)) (fun stats =>
  check_noisy_overlap stats min_overlap min_overlap_warn quiet)))).

(** The signature
    [validate_contention_dataset(dataframe, min_overlap=0.80,
       min_walltime=45, min_overlap_warn=0.90, quiet=False)]:
    an argument the caller leaves out is [None] here and takes its default;
    [min_overlap_warn] may also be passed as Python's [None], which is
    [Some None]. *)
Definition validate_contention_dataset (dataframe : list row)
    (min_overlap min_walltime : option Q) (min_overlap_warn : option (option Q))
    (quiet : option bool) : list message * result unit :=
  validate_body dataframe
    (default (80 # 100)%Q min_overlap)
    (default 45%Q min_walltime)
    (default (Some (90 # 100)%Q) min_overlap_warn)
    (default false quiet).

(** ** Facts about the helpers *)

Lemma min_skipna_None (l : list (option Q)) :
  min_skipna l = None -> forall x, Some x ∉ l.
Proof.
  induction l as [|[y|] l IH]; simpl; intros H x Hx.
  - inversion Hx.
  - destruct (min_skipna l); discriminate.
  - apply elem_of_cons in Hx as [Hx|Hx]; [discriminate|]. exact (IH H x Hx).
Qed.

Lemma min_skipna_Some (l : list (option Q)) (m : Q) :
  min_skipna l = Some m ->
  (exists x, Some x ∈ l /\ x == m) /\ (forall x, Some x ∈ l -> m <= x)%Q.
Proof.
  revert m. induction l as [|[y|] l IH]; simpl; intros m H.
  - discriminate.
  - destruct (min_skipna l) as [m'|] eqn:E.
    + injection H as <-. destruct (IH m' eq_refl) as [[x [Hx Hxm]] Hle].
      destruct (Q.min_spec y m') as [[Hlt Hmin]|[Hge Hmin]]; split.
      * exists y. split; [left|]. symmetry. exact Hmin.
      * intros z Hz. rewrite Hmin.
        apply elem_of_cons in Hz as [Hz|Hz].
        -- injection Hz as ->. apply Qle_refl.
        -- apply Qle_trans with m'; [apply Qlt_le_weak, Hlt | apply Hle, Hz].
      * exists x. split; [right; exact Hx|]. rewrite Hmin. exact Hxm.
      * intros z Hz. rewrite Hmin.
        apply elem_of_cons in Hz as [Hz|Hz].
        -- injection Hz as ->. exact Hge.
        -- apply Hle, Hz.
    + injection H as <-. split.
      * exists y. split; [left | reflexivity].
      * intros z Hz. apply elem_of_cons in Hz as [Hz|Hz].
        -- injection Hz as ->. apply Qle_refl.
        -- exfalso. exact (min_skipna_None l E z Hz).
  - destruct (IH m H) as [[x [Hx Hxm]] Hle]. split.
    + exists x. split; [right; exact Hx | exact Hxm].
    + intros z Hz. apply elem_of_cons in Hz as [Hz|Hz]; [discriminate|].
      apply Hle, Hz.
Qed.

Lemma max_skipna_None (l : list (option Q)) :
  max_skipna l = None -> forall x, Some x ∉ l.
Proof.
  induction l as [|[y|] l IH]; simpl; intros H x Hx.
  - inversion Hx.
  - destruct (max_skipna l); discriminate.
  - apply elem_of_cons in Hx as [Hx|Hx]; [discriminate|]. exact (IH H x Hx).
Qed.

Lemma max_skipna_Some (l : list (option Q)) (m : Q) :
  max_skipna l = Some m ->
  (exists x, Some x ∈ l /\ x == m) /\ (forall x, Some x ∈ l -> x <= m)%Q.
Proof.
  revert m. induction l as [|[y|] l IH]; simpl; intros m H.
  - discriminate.
  - destruct (max_skipna l) as [m'|] eqn:E.
    + injection H as <-. destruct (IH m' eq_refl) as [[x [Hx Hxm]] Hle].
      destruct (Q.max_spec y m') as [[Hlt Hmax]|[Hge Hmax]]; split.
      * exists x. split; [right; exact Hx|]. rewrite Hmax. exact Hxm.
      * intros z Hz. rewrite Hmax.
        apply elem_of_cons in Hz as [Hz|Hz].
        -- injection Hz as ->. apply Qlt_le_weak, Hlt.
        -- apply Hle, Hz.
      * exists y. split; [left|]. symmetry. exact Hmax.
      * intros z Hz. rewrite Hmax.
        apply elem_of_cons in Hz as [Hz|Hz].
        -- injection Hz as ->. apply Qle_refl.
        -- apply Qle_trans with m'; [apply Hle, Hz | exact Hge].
    + injection H as <-. split.
      * exists y. split; [left | reflexivity].
      * intros z Hz. apply elem_of_cons in Hz as [Hz|Hz].
        -- injection Hz as ->. apply Qle_refl.
        -- exfalso. exact (max_skipna_None l E z Hz).
  - destruct (IH m H) as [[x [Hx Hxm]] Hle]. split.
    + exists x. split; [right; exact Hx | exact Hxm].
    + intros z Hz. apply elem_of_cons in Hz as [Hz|Hz]; [discriminate|].
      apply Hle, Hz.
Qed.

Lemma min_skipna_is_Some (l : list (option Q)) (x : Q) :
  Some x ∈ l -> exists m, min_skipna l = Some m.
Proof.
  intros Hx. destruct (min_skipna l) as [m|] eqn:E; [eauto|].
  exfalso. exact (min_skipna_None l E x Hx).
Qed.

Lemma max_skipna_is_Some (l : list (option Q)) (x : Q) :
  Some x ∈ l -> exists m, max_skipna l = Some m.
Proof.
  intros Hx. destruct (max_skipna l) as [m|] eqn:E; [eauto|].
  exfalso. exact (max_skipna_None l E x Hx).
Qed.

(** A series whose non-NaN entries are [a] and [b]: the minimum and the
    maximum are those of the pair. *)
Lemma min_skipna_pair (l : list (option Q)) (a b : Q) :
  Some a ∈ l -> Some b ∈ l ->
  (forall x, Some x ∈ l -> x == a \/ x == b) ->
  exists m, min_skipna l = Some m /\ m == Qmin a b.
Proof.
  intros Ha Hb Hall. destruct (min_skipna_is_Some l a Ha) as [m Hm].
  exists m. split; [exact Hm|].
  destruct (min_skipna_Some l m Hm) as [[x [Hx Hxm]] Hle].
  pose proof (Hle a Ha) as Hma. pose proof (Hle b Hb) as Hmb.
  destruct (Hall x Hx) as [Hxa|Hxb];
    destruct (Q.min_spec a b) as [[H1 H2]|[H1 H2]]; rewrite H2; lra.
Qed.

Lemma max_skipna_pair (l : list (option Q)) (a b : Q) :
  Some a ∈ l -> Some b ∈ l ->
  (forall x, Some x ∈ l -> x == a \/ x == b) ->
  exists m, max_skipna l = Some m /\ m == Qmax a b.
Proof.
  intros Ha Hb Hall. destruct (max_skipna_is_Some l a Ha) as [m Hm].
  exists m. split; [exact Hm|].
  destruct (max_skipna_Some l m Hm) as [[x [Hx Hxm]] Hle].
  pose proof (Hle a Ha) as Hma. pose proof (Hle b Hb) as Hmb.
  destruct (Hall x Hx) as [Hxa|Hxb];
    destruct (Q.max_spec a b) as [[H1 H2]|[H1 H2]]; rewrite H2; lra.
Qed.

(** ** Facts about the pivot and the loop *)

Lemma elem_of_pivot_columns (dataframe : list row) (k : col_key) :
  k ∈ pivot_columns dataframe <-> exists r, r ∈ dataframe /\ row_key r = k.
Proof.
  unfold pivot_columns.
  rewrite merge_sort_Permutation, elem_of_unique, list_elem_of_fmap.
  split; [intros (r & -> & Hr) | intros (r & Hr & <-)]; eauto.
Qed.

Lemma elem_of_sub_columns (dataframe : list row) (numnode : Z) (cont w : string) :
  (numnode, cont, w) ∈ sub_columns (pivot_columns dataframe) numnode cont <->
  exists r, r ∈ dataframe /\ row_key r = (numnode, cont, w).
Proof.
  unfold sub_columns. rewrite list_elem_of_filter, elem_of_pivot_columns.
  simpl. tauto.
Qed.

Lemma sub_columns_labels (cols : list col_key) (numnode : Z) (cont : string)
    (k : col_key) :
  k ∈ sub_columns cols numnode cont -> exists w, k = (numnode, cont, w).
Proof.
  unfold sub_columns. rewrite list_elem_of_filter.
  destruct k as [[n c] w]. simpl. intros [[-> ->] _]. eauto.
Qed.

(** A label pair has a column exactly when some row carries it. *)
Lemma sub_columns_nil (dataframe : list row) (numnode : Z) (cont : string) :
  sub_columns (pivot_columns dataframe) numnode cont = [] <->
  forall r, r ∈ dataframe -> ~ (primary_nodes r = numnode /\ contention r = cont).
Proof.
  split.
  - intros Hnil r Hr [Hn Hc].
    assert (H : (numnode, cont, workload_id r)
                  ∈ sub_columns (pivot_columns dataframe) numnode cont).
    { apply elem_of_sub_columns. exists r. split; [exact Hr|].
      unfold row_key. congruence. }
    rewrite Hnil in H. inversion H.
  - intros Hno.
    destruct (sub_columns (pivot_columns dataframe) numnode cont) as [|k l] eqn:E;
      [reflexivity|].
    assert (Hk : k ∈ sub_columns (pivot_columns dataframe) numnode cont)
      by (rewrite E; left).
    destruct (sub_columns_labels _ _ _ _ Hk) as [w ->].
    apply elem_of_sub_columns in Hk as [r [Hr Hkey]].
    exfalso. apply (Hno r Hr). unfold row_key in Hkey.
    injection Hkey as -> -> _. auto.
Qed.

Lemma elem_of_loop_pairs (dataframe : list row) (numnode : Z) (cont : string) :
  (numnode, cont) ∈ loop_pairs dataframe <->
  numnode ∈ primary_nodes <$> dataframe /\ cont ∈ contention <$> dataframe.
Proof.
  unfold loop_pairs. rewrite list_elem_of_bind. split.
  - intros [n [H Hn]]. apply list_elem_of_bind in H as [c [H Hc]].
    apply list_elem_of_singleton in H. injection H as -> ->.
    apply elem_of_unique, list_elem_of_fmap in Hn as [k [-> Hk]].
    apply elem_of_unique, list_elem_of_fmap in Hc as [k' [-> Hk']].
    apply elem_of_pivot_columns in Hk as [r [Hr <-]].
    apply elem_of_pivot_columns in Hk' as [r' [Hr' <-]].
    split; apply list_elem_of_fmap; [exists r | exists r']; auto.
  - intros [Hn Hc].
    apply list_elem_of_fmap in Hn as [r [-> Hr]].
    apply list_elem_of_fmap in Hc as [r' [-> Hr']].
    exists (primary_nodes r). split.
    + apply list_elem_of_bind. exists (contention r'). split; [left|].
      apply elem_of_unique, list_elem_of_fmap. exists (row_key r').
      split; [reflexivity|]. apply elem_of_pivot_columns. eauto.
    + apply elem_of_unique, list_elem_of_fmap. exists (row_key r).
      split; [reflexivity|]. apply elem_of_pivot_columns. eauto.
Qed.

Definition incomplete_message (numnode : Z) (cont : string) : string :=
  "incomplete dataset for primary_nodes=" ++ str_of_Z numnode
  ++ " contention=" ++ cont.

(** The loop raises at the first label pair without a column, and otherwise
    fills one column group per pair. *)
Lemma overlap_loop_Raise (dataframe : list row) (ids : list string)
    (pairs : list (Z * string)) (e : exn) :
  overlap_loop dataframe ids pairs = Raise e ->
  exists numnode cont,
    (numnode, cont) ∈ pairs /\
    sub_columns (pivot_columns dataframe) numnode cont = [] /\
    e = IncompleteDatasetError (incomplete_message numnode cont) numnode cont.
Proof.
  induction pairs as [|[n c] rest IH]; simpl; [discriminate|].
  destruct (sub_columns (pivot_columns dataframe) n c) eqn:E.
  - intros [= <-]. exists n, c. split; [left|]. split; [exact E | reflexivity].
  - destruct (overlap_loop dataframe ids rest) eqn:E'; simpl; [discriminate|].
    intros [= <-]. destruct (IH eq_refl) as [n' [c' [Hin H]]].
    exists n', c'. split; [right; exact Hin | exact H].
Qed.

Lemma overlap_loop_Ok (dataframe : list row) (ids : list string)
    (pairs : list (Z * string)) :
  (forall p, p ∈ pairs -> sub_columns (pivot_columns dataframe) p.1 p.2 <> []) ->
  overlap_loop dataframe ids pairs =
  Ok ((fun p => (p, (fun d => (d, overlap_cell dataframe p.1 p.2 d)) <$> ids))
        <$> pairs).
Proof.
  induction pairs as [|[n c] rest IH]; simpl; intros H; [reflexivity|].
  pose proof (H (n, c) ltac:(left)) as Hnc. simpl in Hnc.
  destruct (sub_columns (pivot_columns dataframe) n c); [congruence|].
  rewrite IH; [reflexivity|]. intros q Hq. apply H. right. exact Hq.
Qed.


Lemma assoc_fmap_Some {K V : Type} `{EqDecision K} (f : K -> V) (l : list K) (k : K) :
  k ∈ l -> assoc k ((fun x => (x, f x)) <$> l) = Some (f k).
Proof.
  induction l as [|x l IH]; intros Hk; [inversion Hk|].
  simpl. destruct (decide (x = k)) as [->|Hne]; [reflexivity|].
  apply IH. apply elem_of_cons in Hk as [Hk|Hk]; [congruence | exact Hk].
Qed.



(** ** The overlap formula *)

(** Every primary_nodes value of the table occurs with every contention
    value in some row: the pivot then has a column for every pair the loop
    visits. *)
Definition rectangular (dataframe : list row) : Prop :=
  Forall (fun numnode =>
    Forall (fun cont =>
      Exists (fun r => primary_nodes r = numnode /\ contention r = cont) dataframe)
      (contention <$> dataframe))
    (primary_nodes <$> dataframe).

#[global] Instance rectangular_dec (dataframe : list row) :
  Decision (rectangular dataframe).
Proof. unfold rectangular. apply _. Defined.

(** A table where each group of rows has its primary and its secondary row
    and yet two label pairs have no row at all. *)
Definition lopsided_table : list row :=
  [ Row "d1" 1 "quiet" "primary" 0 100; Row "d1" 1 "quiet" "secondary" 50 150;
    Row "d1" 2 "noisy" "primary" 0 100; Row "d1" 2 "noisy" "secondary" 50 150 ].

Definition overlapping_windows : list row :=
  [ Row "d1" 1 "noisy" "primary" 0 100; Row "d1" 1 "noisy" "secondary" 50 150 ].

Definition disjoint_windows : list row :=
  [ Row "d1" 1 "quiet" "primary" 0 10; Row "d1" 1 "quiet" "secondary" 20 30 ].

Lemma rectangular_columns (dataframe : list row) (p : Z * string) :
  rectangular dataframe -> p ∈ loop_pairs dataframe ->
  sub_columns (pivot_columns dataframe) p.1 p.2 <> [].
Proof.
  intros Hrect Hp. destruct p as [n c]. simpl.
  apply elem_of_loop_pairs in Hp as [Hn Hc].
  unfold rectangular in Hrect. rewrite Forall_forall in Hrect.
  specialize (Hrect n Hn). rewrite Forall_forall in Hrect.
  specialize (Hrect c Hc). apply Exists_exists in Hrect as [r [Hr [H1 H2]]].
  intros Hnil. rewrite sub_columns_nil in Hnil. exact (Hnil r Hr (conj H1 H2)).
Qed.

Lemma calculate_rectangular (dataframe : list row) :
  rectangular dataframe ->
  exists t, calculate_contention_overlap dataframe = Ok t /\
    forall d numnode cont,
      d ∈ dataset_id <$> dataframe -> (numnode, cont) ∈ loop_pairs dataframe ->
      lookup_cell t d numnode cont = Some (overlap_cell dataframe numnode cont d).
Proof.
  intros Hrect. unfold calculate_contention_overlap.
  rewrite overlap_loop_Ok by (intros p Hp; apply rectangular_columns; assumption).
  simpl. eexists. split; [reflexivity|].
  intros d n c Hd Hp. unfold lookup_cell. simpl.
  rewrite (assoc_fmap_Some
             (fun p => (fun d => (d, overlap_cell dataframe p.1 p.2 d))
                         <$> unique (dataset_id <$> dataframe))) by exact Hp.
  simpl.
  apply (assoc_fmap_Some (fun d => overlap_cell dataframe n c d)).
  apply elem_of_unique. exact Hd.
Qed.

Lemma group_split (dataframe : list row) (d : string) (numnode : Z) (cont w : string) :
  group dataframe d (numnode, cont, w) =
  filter (fun r => workload_id r = w)
    (filter (fun r => dataset_id r = d /\ primary_nodes r = numnode /\ contention r = cont)
       dataframe).
Proof.
  unfold group. rewrite list_filter_filter. apply list_filter_iff.
  intros r. unfold row_key. split.
  - intros [-> [= -> -> ->]]. auto.
  - intros [-> [-> [-> ->]]]. auto.
Qed.

Section OnePair.
Variables (dataframe : list row) (d : string) (numnode : Z) (cont : string).
Variables (sp ep ss es : Q).

Let rp := Row d numnode cont "primary" sp ep.
Let rs := Row d numnode cont "secondary" ss es.

Hypothesis Hgroup :
  filter (fun r => dataset_id r = d /\ primary_nodes r = numnode /\ contention r = cont)
    dataframe ≡ₚ [rp; rs].

Lemma pair_group (w : string) :
  group dataframe d (numnode, cont, w) ≡ₚ filter (fun r => workload_id r = w) [rp; rs].
Proof. rewrite group_split, Hgroup. reflexivity. Qed.

Lemma pair_cell (value : row -> Q) (w : string) :
  pivot_cell value dataframe d (numnode, cont, w) =
  if decide (w = "primary") then Some ((value rp + 0) / inject_Z 1)%Q
  else if decide (w = "secondary") then Some ((value rs + 0) / inject_Z 1)%Q
  else None.
Proof.
  unfold pivot_cell. pose proof (pair_group w) as H.
  rewrite !filter_cons, filter_nil in H. simpl in H.
  destruct (decide (w = "primary")) as [->|H1].
  - rewrite decide_True in H by reflexivity.
    rewrite decide_False in H by discriminate.
    apply Permutation_singleton_r in H. rewrite H. reflexivity.
  - rewrite (decide_False (P := "primary" = w)) in H by congruence.
    destruct (decide (w = "secondary")) as [->|H2].
    + rewrite decide_True in H by reflexivity.
      apply Permutation_singleton_r in H. rewrite H. reflexivity.
    + rewrite decide_False in H by congruence.
      apply Permutation_nil_r in H. rewrite H. reflexivity.
Qed.

Lemma pair_rows : rp ∈ dataframe /\ rs ∈ dataframe.
Proof.
  assert (H : forall r, r ∈ [rp; rs] -> r ∈ dataframe).
  { intros r Hr. rewrite <- Hgroup in Hr.
    apply list_elem_of_filter in Hr. tauto. }
  split; apply H; [left | right; left].
Qed.

Lemma pair_sub_frame (value : row -> Q) :
  let l := sub_frame_row value dataframe numnode cont d in
  Some ((value rp + 0) / inject_Z 1)%Q ∈ l /\
  Some ((value rs + 0) / inject_Z 1)%Q ∈ l /\
  forall x, Some x ∈ l -> x == value rp \/ x == value rs.
Proof.
  destruct pair_rows as [Hp Hs]. unfold sub_frame_row. simpl.
  split; [|split].
  - apply list_elem_of_fmap. exists (numnode, cont, "primary"). split.
    + rewrite pair_cell. reflexivity.
    + apply elem_of_sub_columns. exists rp. split; [exact Hp | reflexivity].
  - apply list_elem_of_fmap. exists (numnode, cont, "secondary"). split.
    + rewrite pair_cell. reflexivity.
    + apply elem_of_sub_columns. exists rs. split; [exact Hs | reflexivity].
  - intros x Hx. apply list_elem_of_fmap in Hx as [k [Hk Hin]].
    destruct (sub_columns_labels _ _ _ _ Hin) as [w ->].
    rewrite pair_cell in Hk.
    destruct (decide (w = "primary")); [|destruct (decide (w = "secondary"))];
      [injection Hk as ->; left | injection Hk as ->; right | discriminate];
      unfold inject_Z; field.
Qed.

Lemma pair_min (value : row -> Q) :
  exists m, min_skipna (sub_frame_row value dataframe numnode cont d) = Some m /\
            m == Qmin (value rp) (value rs).
Proof.
  destruct (pair_sub_frame value) as [Hp [Hs Hall]].
  destruct (min_skipna_pair _ _ _ Hp Hs) as [m [Hm Heq]].
  - intros x Hx. destruct (Hall x Hx) as [H|H]; [left | right]; rewrite H;
      unfold inject_Z; field.
  - exists m. split; [exact Hm|]. rewrite Heq.
    apply Q.min_compat; unfold inject_Z; field.
Qed.

Lemma pair_max (value : row -> Q) :
  exists m, max_skipna (sub_frame_row value dataframe numnode cont d) = Some m /\
            m == Qmax (value rp) (value rs).
Proof.
  destruct (pair_sub_frame value) as [Hp [Hs Hall]].
  destruct (max_skipna_pair _ _ _ Hp Hs) as [m [Hm Heq]].
  - intros x Hx. destruct (Hall x Hx) as [H|H]; [left | right]; rewrite H;
      unfold inject_Z; field.
  - exists m. split; [exact Hm|]. rewrite Heq.
    apply Q.max_compat; unfold inject_Z; field.
Qed.

Lemma pair_overlap_cell :
  exists o n tot,
    overlap_cell dataframe numnode cont d
      = {| overlapping := Some o; non_overlapping := Some n; total := Some tot |} /\
    o == Qmax 0 (Qmin ep es - Qmax sp ss) /\
    tot == Qmax ep es - Qmin sp ss /\
    n == tot - o.
Proof.
  destruct (pair_min end_) as [me [Hme Eme]].
  destruct (pair_max end_) as [Me [HMe EMe]].
  destruct (pair_min start) as [ms [Hms Ems]].
  destruct (pair_max start) as [Ms [HMs EMs]].
  simpl in Eme, EMe, Ems, EMs.
  unfold overlap_cell. rewrite Hme, HMe, Hms, HMs. simpl.
  eexists _, _, _. split; [reflexivity|].
  split; [|split; [|reflexivity]].
  - rewrite <- Eme, <- EMs.
    destruct (Qltb 0 (me - Ms)) eqn:E.
    + apply Qltb_lt in E. symmetry. apply Q.max_r. lra.
    + apply Qltb_ge in E. symmetry. apply Q.max_l. exact E.
  - rewrite EMe, Ems. reflexivity.
Qed.
End OnePair.

(** The cell the table holds for the first window pair of the specification,
    primary [0,100] and secondary [50,150], and for its disjoint pair,
    [0,10] and [20,30]. *)
Definition cell_of (dataframe : list row) (d : string) (numnode : Z) (cont : string)
    : result (option cell) :=
  (fun t => lookup_cell t d numnode cont) <$> calculate_contention_overlap dataframe.

(** C1, counterexample: every group of [lopsided_table] has exactly one
    primary and one secondary row, and the call raises instead of returning
    the overlaps, because no row pairs 1 node with "noisy". *)
Lemma lopsided_table_raises :
  calculate_contention_overlap lopsided_table =
  Raise (IncompleteDatasetError
           "incomplete dataset for primary_nodes=1 contention=noisy" 1 "noisy").
Proof. vm_compute. reflexivity. Qed.

(** C1, amended: when every primary_nodes value of the table occurs with
    every contention value, a group made of exactly one primary row and one
    secondary row gets overlapping = max(0, min(end_p, end_s) - max(start_p,
    start_s)), total = max(end_p, end_s) - min(start_p, start_s) and
    non_overlapping = total - overlapping; windows [0,100] and [50,150] give
    50, 150 and 100, and windows [0,10] and [20,30] give 0, 30 and 30. *)
Theorem overlap_formula :
  (forall (dataframe : list row) (d : string) (numnode : Z) (cont : string)
          (sp ep ss es : Q),
     rectangular dataframe ->
     filter (fun r => dataset_id r = d /\ primary_nodes r = numnode /\ contention r = cont)
       dataframe
       ≡ₚ [Row d numnode cont "primary" sp ep; Row d numnode cont "secondary" ss es] ->
     exists t o n tot,
       calculate_contention_overlap dataframe = Ok t /\
       lookup_cell t d numnode cont
         = Some {| overlapping := Some o; non_overlapping := Some n; total := Some tot |} /\
       o == Qmax 0 (Qmin ep es - Qmax sp ss) /\
       tot == Qmax ep es - Qmin sp ss /\
       n == tot - o) /\
  cell_of overlapping_windows "d1" 1 "noisy"
    = Ok (Some {| overlapping := Some 50%Q; non_overlapping := Some 100%Q; total := Some 150%Q |}) /\
  cell_of disjoint_windows "d1" 1 "quiet"
    = Ok (Some {| overlapping := Some 0%Q; non_overlapping := Some 30%Q; total := Some 30%Q |}).
Proof.
  split; [|split; vm_compute; reflexivity].
  intros dataframe d numnode cont sp ep ss es Hrect Hgroup.
  destruct (calculate_rectangular dataframe Hrect) as [t [Ht Hcells]].
  destruct (pair_overlap_cell dataframe d numnode cont sp ep ss es Hgroup)
    as [o [n [tot [Hcell H]]]].
  destruct (pair_rows dataframe d numnode cont sp ep ss es Hgroup) as [Hp _].
  exists t, o, n, tot. split; [exact Ht|]. split; [|exact H].
  rewrite <- Hcell. apply Hcells.
  - apply list_elem_of_fmap. eexists. split; [|exact Hp]. reflexivity.
  - apply elem_of_loop_pairs. split; apply list_elem_of_fmap;
      eexists; (split; [|exact Hp]); reflexivity.
Qed.

Lemma overlap_formula_witness :
  exists t o n tot,
    calculate_contention_overlap overlapping_windows = Ok t /\
    lookup_cell t "d1" 1 "noisy"
      = Some {| overlapping := Some o; non_overlapping := Some n; total := Some tot |} /\
    o == Qmax 0 (Qmin 100 150 - Qmax 0 50) /\
    tot == Qmax 100 150 - Qmin 0 50 /\
    n == tot - o.
Proof.
  apply (proj1 overlap_formula overlapping_windows "d1" 1%Z "noisy" 0%Q 100%Q 50%Q 150%Q).
  - apply (bool_decide_unpack _). vm_compute. exact I.
  - vm_compute. reflexivity.
Defined.

(** ** Incomplete datasets *)

(** A label pair the loop visits and no row carries. *)
Definition missing_pair (dataframe : list row) (numnode : Z) (cont : string) : Prop :=
  numnode ∈ primary_nodes <$> dataframe /\
  cont ∈ contention <$> dataframe /\
  Forall (fun r => ~ (primary_nodes r = numnode /\ contention r = cont)) dataframe.

#[global] Instance missing_pair_dec (dataframe : list row) (numnode : Z)
    (cont : string) : Decision (missing_pair dataframe numnode cont).
Proof. unfold missing_pair. apply _. Defined.

Definition primary_only : list row :=
  [ Row "d1" 1 "quiet" "primary" 0 100 ].

(** C6, counterexample: the combination ("d1", 1, "quiet") lacks its
    secondary row, and the call returns a table whose cell is computed from
    the primary row alone. *)
Lemma primary_only_returns :
  cell_of primary_only "d1" 1 "quiet"
  = Ok (Some {| overlapping := Some 100%Q; non_overlapping := Some 0%Q; total := Some 100%Q |}).
Proof. vm_compute. reflexivity. Qed.

Lemma overlap_loop_columns (dataframe : list row) (ids : list string)
    (pairs : list (Z * string)) (cs : list ((Z * string) * list (string * cell))) :
  overlap_loop dataframe ids pairs = Ok cs ->
  forall p, p ∈ pairs -> sub_columns (pivot_columns dataframe) p.1 p.2 <> [].
Proof.
  revert cs. induction pairs as [|[n c] rest IH]; simpl; intros cs H p Hp.
  - inversion Hp.
  - destruct (sub_columns (pivot_columns dataframe) n c) eqn:E; [discriminate|].
    destruct (overlap_loop dataframe ids rest) as [done|]; simpl in H; [|discriminate].
    apply elem_of_cons in Hp as [->|Hp]; [simpl; rewrite E; discriminate|].
    exact (IH done eq_refl p Hp).
Qed.

(** C6, amended: the call fails exactly when some pair of a primary_nodes
    value and a contention value of the table occurs in no row; the error is
    then IncompleteDatasetError, its message and fields name such a pair, and
    no table is returned.  A combination that only lacks its primary or its
    secondary row raises nothing. *)
Theorem incomplete_dataset (dataframe : list row) :
  ((exists numnode cont, missing_pair dataframe numnode cont) <->
   (exists e, calculate_contention_overlap dataframe = Raise e)) /\
  (forall e, calculate_contention_overlap dataframe = Raise e ->
     exists numnode cont,
       missing_pair dataframe numnode cont /\
       e = IncompleteDatasetError
             ("incomplete dataset for primary_nodes=" ++ str_of_Z numnode
              ++ " contention=" ++ cont) numnode cont).
Proof.
  assert (Hraise : forall e, calculate_contention_overlap dataframe = Raise e ->
     exists numnode cont,
       missing_pair dataframe numnode cont /\
       e = IncompleteDatasetError (incomplete_message numnode cont) numnode cont).
  { intros e. unfold calculate_contention_overlap.
    destruct (overlap_loop _ _ _) as [cs|e'] eqn:E; simpl; [discriminate|].
    intros [= <-]. apply overlap_loop_Raise in E as [n [c [Hin [Hnil ->]]]].
    exists n, c. split; [|reflexivity].
    apply elem_of_loop_pairs in Hin as [Hn Hc].
    split; [exact Hn|]. split; [exact Hc|].
    apply Forall_forall. apply sub_columns_nil. exact Hnil. }
  split; [split|exact Hraise].
  - intros [n [c [Hn [Hc Hno]]]].
    destruct (calculate_contention_overlap dataframe) as [t|e] eqn:E; [|eauto].
    exfalso. unfold calculate_contention_overlap in E.
    apply bind_Ok in E as [cs [Hloop _]].
    apply (overlap_loop_columns _ _ _ _ Hloop (n, c)).
    + apply elem_of_loop_pairs. auto.
    + apply sub_columns_nil. apply Forall_forall. exact Hno.
  - intros [e He]. destruct (Hraise e He) as [n [c [H _]]]. eauto.
Qed.

Lemma incomplete_dataset_witness :
  exists e, calculate_contention_overlap lopsided_table = Raise e.
Proof.
  apply (proj1 (proj1 (incomplete_dataset lopsided_table))).
  exists 1%Z, "noisy". apply (bool_decide_unpack _). vm_compute. exact I.
Defined.

(** ** The invariant of the overlap table *)




(** ** The validator: walltime floor and paired columns *)

(** Every (primary_nodes, contention) pair of the table has a primary and a
    secondary row, and the table is not empty. *)
Definition paired (dataframe : list row) : Prop :=
  dataframe <> [] /\
  Forall (fun r =>
    Exists (fun r' => primary_nodes r' = primary_nodes r /\
                      contention r' = contention r /\
                      workload_id r' = "primary") dataframe /\
    Exists (fun r' => primary_nodes r' = primary_nodes r /\
                      contention r' = contention r /\
                      workload_id r' = "secondary") dataframe)
    dataframe.

#[global] Instance paired_dec (dataframe : list row) : Decision (paired dataframe).
Proof. unfold paired. apply _. Defined.

Lemma NoDup_pivot_columns (dataframe : list row) : NoDup (pivot_columns dataframe).
Proof. unfold pivot_columns. rewrite merge_sort_Permutation. apply NoDup_unique. Qed.

(** When every pair has a row of workload [w], the columns of that workload
    are as many as the pairs. *)
Lemma label_count (dataframe : list row) (w : string) :
  (forall r, r ∈ dataframe ->
     exists r', r' ∈ dataframe /\ primary_nodes r' = primary_nodes r /\
                contention r' = contention r /\ workload_id r' = w) ->
  length (filter (fun k : col_key => k.2 = w) (pivot_columns dataframe))
  = length (unique (fst <$> pivot_columns dataframe)).
Proof.
  intros H.
  rewrite <- (length_fmap fst (filter _ (pivot_columns dataframe))).
  apply Permutation_length, NoDup_Permutation.
  - apply NoDup_fmap_2_strong; [|apply NoDup_filter, NoDup_pivot_columns].
    intros [p1 w1] [p2 w2] H1 H2. rewrite list_elem_of_filter in H1, H2.
    simpl in *. intros ->. destruct H1 as [-> _], H2 as [-> _]. reflexivity.
  - apply NoDup_unique.
  - intros p. rewrite elem_of_unique, !list_elem_of_fmap. split.
    + intros [k [-> Hk]]. apply list_elem_of_filter in Hk as [_ Hk]. eauto.
    + intros [k [-> Hk]]. apply elem_of_pivot_columns in Hk as [r [Hr <-]].
      destruct (H r Hr) as [r' [Hr' [Hn [Hc Hw]]]].
      exists (row_key r'). split; [unfold row_key; simpl; congruence|].
      apply list_elem_of_filter. split; [exact Hw|].
      apply elem_of_pivot_columns. eauto.
Qed.

Lemma paired_rows (dataframe : list row) (w : string) :
  paired dataframe -> w = "primary" \/ w = "secondary" ->
  forall r, r ∈ dataframe ->
    exists r', r' ∈ dataframe /\ primary_nodes r' = primary_nodes r /\
               contention r' = contention r /\ workload_id r' = w.
Proof.
  intros [_ Hall] Hw r Hr. rewrite Forall_forall in Hall.
  destruct (Hall r Hr) as [Hp Hs].
  destruct Hw as [-> | ->]; [apply Exists_exists in Hp as [r' [? ?]]
                            | apply Exists_exists in Hs as [r' [? ?]]];
    exists r'; tauto.
Qed.

Lemma paired_label_nonempty (dataframe : list row) (w : string) :
  paired dataframe -> w = "primary" \/ w = "secondary" ->
  filter (fun k : col_key => k.2 = w) (pivot_columns dataframe) <> [].
Proof.
  intros Hp Hw. pose proof Hp as [Hne _].
  destruct dataframe as [|r0 rest]; [congruence|].
  destruct (paired_rows _ w Hp Hw r0 ltac:(left)) as [r' [Hr' [_ [_ Hwr]]]].
  intros Hnil.
  assert (H : row_key r' ∈ filter (fun k : col_key => k.2 = w)
                            (pivot_columns (r0 :: rest))).
  { apply list_elem_of_filter. split; [exact Hwr|].
    apply elem_of_pivot_columns. eauto. }
  rewrite Hnil in H. inversion H.
Qed.

(** On a paired table the frame [deltatime] can be built. *)
Lemma deltatime_width_paired (dataframe : list row) :
  paired dataframe -> exists w, deltatime_width dataframe = Ok w.
Proof.
  intros Hp. unfold deltatime_width.
  rewrite decide_False by (apply paired_label_nonempty; auto).
  rewrite decide_False by (apply paired_label_nonempty; auto).
  rewrite (label_count dataframe "secondary") by (apply paired_rows; auto).
  rewrite (label_count dataframe "primary") by (apply paired_rows; auto).
  rewrite decide_True by reflexivity. cbn [mbind result_bind].
  rewrite decide_True by reflexivity. eauto.
Qed.

Lemma check_walltime_pass (dataframe : list row) (min_walltime : Q) (quiet : bool) :
  Forall (fun r => min_walltime <= end_ r - start r)%Q dataframe ->
  check_walltime dataframe min_walltime quiet = ([], Ok tt).
Proof.
  intros Hall. unfold check_walltime.
  destruct (min_skipna (walltimes dataframe)) as [m|] eqn:E; [|reflexivity].
  destruct (min_skipna_Some _ _ E) as [[x [Hx Hxm]] _].
  apply list_elem_of_fmap in Hx as [r [[= ->] Hr]].
  rewrite Forall_forall in Hall. specialize (Hall r Hr).
  simpl. replace (Qltb m min_walltime) with false; [reflexivity|].
  symmetry. apply Qltb_ge. lra.
Qed.

(** ** The validator: the quiet-job isolation check *)

Lemma elem_of_deltas (l : list Q) (x : Q) :
  Some x ∈ deltas l <->
  exists i a b, l !! i = Some a /\ l !! S i = Some b /\ x = (b - a)%Q.
Proof.
  unfold deltas. rewrite elem_of_cons. split.
  - intros [H|H]; [discriminate|].
    apply elem_of_lookup_zip_with in H as (i & a & b & Heq & Ha & Hb).
    rewrite lookup_tail in Hb. injection Heq as ->. eauto 6.
  - intros (i & a & b & Ha & Hb & ->). right.
    apply elem_of_lookup_zip_with. exists i, a, b. rewrite lookup_tail. auto.
Qed.

(** The smallest delta is below the floor exactly when two consecutive
    starts are closer than the floor. *)
Lemma rapid_starts_iff (l : list Q) (min_walltime : Q) :
  nan_lt (min_skipna (deltas l)) min_walltime = true <->
  exists i a b, l !! i = Some a /\ l !! S i = Some b /\ (b - a < min_walltime)%Q.
Proof.
  split.
  - destruct (min_skipna (deltas l)) as [m|] eqn:E; simpl; [|discriminate].
    intros H. apply Qltb_lt in H.
    destruct (min_skipna_Some _ _ E) as [[x [Hx Hxm]] _].
    apply elem_of_deltas in Hx as (i & a & b & Ha & Hb & ->).
    exists i, a, b. split; [exact Ha|]. split; [exact Hb|]. lra.
  - intros (i & a & b & Ha & Hb & Hlt).
    assert (H : Some (b - a)%Q ∈ deltas l) by (apply elem_of_deltas; eauto 6).
    destruct (min_skipna_is_Some _ _ H) as [m Hm]. rewrite Hm. simpl.
    apply Qltb_lt. destruct (min_skipna_Some _ _ Hm) as [_ Hle].
    specialize (Hle _ H). lra.
Qed.

#[global] Instance start_le_total : Total start_le.
Proof.
  intros a b. unfold start_le.
  destruct (Qlt_le_dec (start a) (start b)) as [H|H];
    [left; apply Qlt_le_weak, H | right; exact H].
Qed.

Lemma quiet_starts_sorted (dataframe : list row) :
  Sorted Qle (start <$> quiet_starts dataframe) /\
  start <$> quiet_starts dataframe
    ≡ₚ start <$> filter (fun r => contention r = "quiet") dataframe.
Proof.
  split.
  - apply (Sorted_fmap start start_le Qle); [auto|].
    unfold quiet_starts. apply (Sorted_merge_sort start_le).
  - unfold quiet_starts. rewrite merge_sort_Permutation. reflexivity.
Qed.

(** Two quiet primary jobs that start 5 s apart, each running well over the
    floor; no secondary row anywhere. *)
Definition quiet_primaries : list row :=
  [ Row "d1" 1 "quiet" "primary" 0 100; Row "d2" 1 "quiet" "primary" 5 150 ].

(** C7, counterexample: every row of [quiet_primaries] meets the walltime
    floor and its two quiet starts are 5 s apart, and the validator raises
    KeyError while building the start/end differences, not JobOverlapError. *)
Lemma quiet_primaries_raise_KeyError :
  validate_contention_dataset quiet_primaries None None None None
  = ([], Raise (KeyError "secondary")).
Proof. vm_compute. reflexivity. Qed.

(** C7, amended: on a table that is paired (every (primary_nodes,
    contention) pair has a primary and a secondary row) and whose rows all
    meet the walltime floor (45 s unless given), sort the starts of all quiet
    rows whatever their dataset_id: if two consecutive starts are closer
    than the floor, validation raises JobOverlapError "rapid quiet starts
    found"; if no two are, the outcome is that of the noisy-overlap check. *)
Theorem quiet_isolation_check (dataframe : list row)
    (min_overlap min_walltime : option Q) (min_overlap_warn : option (option Q))
    (quiet : option bool) :
  let floor := default 45%Q min_walltime in
  let starts := start <$> quiet_starts dataframe in
  Forall (fun r => floor <= end_ r - start r)%Q dataframe ->
  paired dataframe ->
  Sorted Qle starts /\
  starts ≡ₚ start <$> filter (fun r => contention r = "quiet") dataframe /\
  ((exists i a b, starts !! i = Some a /\ starts !! S i = Some b /\ (b - a < floor)%Q) ->
   snd (validate_contention_dataset dataframe min_overlap min_walltime
          min_overlap_warn quiet)
   = Raise (JobOverlapError "rapid quiet starts found")) /\
  ((forall i a b, starts !! i = Some a -> starts !! S i = Some b -> (floor <= b - a)%Q) ->
   validate_contention_dataset dataframe min_overlap min_walltime
     min_overlap_warn quiet
   = and_then (silent (calculate_contention_overlap dataframe ≫= noisy_stats))
       (fun stats =>
          check_noisy_overlap stats (default (80 # 100)%Q min_overlap)
            (default (Some (90 # 100)%Q) min_overlap_warn) (default false quiet))).
Proof.
  intros floor starts Hwall Hpaired.
  destruct (quiet_starts_sorted dataframe) as [Hsorted Hperm].
  split; [exact Hsorted|]. split; [exact Hperm|].
  destruct (deltatime_width_paired dataframe Hpaired) as [w Hw].
  unfold validate_contention_dataset, validate_body. fold floor.
  rewrite (check_walltime_pass dataframe floor _ Hwall), Hw.
  cbn [and_then silent app]. unfold check_quiet_starts. fold starts.
  split.
  - intros Hrapid. apply rapid_starts_iff in Hrapid. rewrite Hrapid. reflexivity.
  - intros Hapart.
    destruct (nan_lt (min_skipna (deltas starts)) floor) eqn:E.
    + apply rapid_starts_iff in E as (i & a & b & Ha & Hb & Hlt).
      specialize (Hapart i a b Ha Hb). lra.
    + cbn [and_then silent app].
      destruct (calculate_contention_overlap dataframe ≫= noisy_stats);
        [|reflexivity].
      destruct (check_noisy_overlap _ _ _ _). reflexivity.
Qed.

(** The validator example of the specification: two quiet jobs that start
    5 s apart under the 45 s floor. *)
Definition rapid_quiet_pair : list row :=
  [ Row "d1" 1 "quiet" "primary" 0 100; Row "d1" 1 "quiet" "secondary" 5 150 ].

Lemma quiet_isolation_check_witness :
  snd (validate_contention_dataset rapid_quiet_pair None None None None)
  = Raise (JobOverlapError "rapid quiet starts found").
Proof.
  refine (proj1 (proj2 (proj2
            (quiet_isolation_check rapid_quiet_pair None None None None _ _))) _).
  - apply (bool_decide_unpack _). vm_compute. exact I.
  - apply (bool_decide_unpack _). vm_compute. exact I.
  - exists 0%nat, 0%Q, 5%Q. vm_compute. auto.
Defined.

(** ** The validator: the noisy-overlap sufficiency check *)

(** Everything the validator does before it looks at the noisy fractions:
    the walltime check, the start/end differences, the quiet-start check
    and the table of noisy overlaps. *)
Definition earlier_checks (dataframe : list row) (min_walltime : Q) (quiet : bool)
    : printing (list noisy_stat) :=
  and_then (check_walltime dataframe min_walltime quiet) (fun _ =>
  and_then (silent (deltatime_width dataframe)) (fun _ =>
  and_then (check_quiet_starts dataframe min_walltime quiet) (fun _ =>
  silent (calculate_contention_overlap dataframe ≫= noisy_stats)))).

Lemma validate_body_split (dataframe : list row) (min_overlap min_walltime : Q)
    (min_overlap_warn : option Q) (quiet : bool) :
  validate_body dataframe min_overlap min_walltime min_overlap_warn quiet
  = and_then (earlier_checks dataframe min_walltime quiet)
      (fun stats => check_noisy_overlap stats min_overlap min_overlap_warn quiet).
Proof.
  unfold validate_body, earlier_checks.
  destruct (check_walltime dataframe min_walltime quiet) as [o1 [[]|e1]];
    [|reflexivity].
  cbn [and_then]. destruct (deltatime_width dataframe) as [w|e2]; [|reflexivity].
  cbn [and_then silent].
  destruct (check_quiet_starts dataframe min_walltime quiet) as [o3 [[]|e3]];
    [|reflexivity].
  cbn [and_then silent].
  destruct (calculate_contention_overlap dataframe ≫= noisy_stats) as [stats|e4];
    [|reflexivity].
  cbn [and_then silent].
  destruct (check_noisy_overlap stats min_overlap min_overlap_warn quiet).
  rewrite !app_nil_l, !app_nil_r, app_assoc. reflexivity.
Qed.

(** The earlier checks print only when they raise. *)
Lemma earlier_checks_silent (dataframe : list row) (min_walltime : Q) (quiet : bool)
    (out : list message) (stats : list noisy_stat) :
  earlier_checks dataframe min_walltime quiet = (out, Ok stats) -> out = [].
Proof.
  unfold earlier_checks, check_walltime, check_quiet_starts.
  destruct (nan_lt (min_skipna (walltimes dataframe)) min_walltime);
    [discriminate|].
  cbn [and_then silent]. destruct (deltatime_width dataframe); [|discriminate].
  cbn [and_then silent].
  destruct (nan_lt (min_skipna (deltas (start <$> quiet_starts dataframe)))
              min_walltime); [discriminate|].
  cbn [and_then silent].
  destruct (calculate_contention_overlap dataframe ≫= noisy_stats);
    intros [= <- _]; reflexivity.
Qed.

Lemma nan_lt_Some (x : option Q) (b : Q) :
  nan_lt x b = true <-> exists f, x = Some f /\ (f < b)%Q.
Proof.
  destruct x as [f|]; simpl.
  - rewrite Qltb_lt. split; [eauto|]. intros [f' [[= ->] H]]. exact H.
  - split; [discriminate|]. intros [f [H _]]. discriminate.
Qed.

Lemma check_noisy_overlap_spec (stats : list noisy_stat) (min_overlap : Q)
    (min_overlap_warn : option Q) (quiet : bool) :
  let out := check_noisy_overlap stats min_overlap min_overlap_warn quiet in
  let warn := warn_threshold min_overlap min_overlap_warn in
  (forall m, m ∈ fst out <->
     quiet = false /\
     exists s f, s ∈ stats /\ overlapping_frac s = Some f /\ (f < warn)%Q /\
                 m = low_overlap_message min_overlap s) /\
  (snd out = Raise (JobOverlapError "insufficient noisy overlap") <->
     exists s f, s ∈ stats /\ overlapping_frac s = Some f /\ (f < min_overlap)%Q) /\
  (snd out = Ok tt <->
     forall s f, s ∈ stats -> overlapping_frac s = Some f -> (min_overlap <= f)%Q).
Proof.
  intros out warn. subst out. unfold check_noisy_overlap. fold warn. simpl.
  assert (Hinv :
    filter (fun s => nan_lt (overlapping_frac s) min_overlap = true) stats = [] <->
    forall s f, s ∈ stats -> overlapping_frac s = Some f -> (min_overlap <= f)%Q).
  { split.
    - intros Hnil s f Hs Hf.
      destruct (Qlt_le_dec f min_overlap) as [Hlt|Hle]; [|exact Hle].
      exfalso.
      assert (H : s ∈ filter (fun s => nan_lt (overlapping_frac s) min_overlap = true)
                        stats).
      { apply list_elem_of_filter. split; [|exact Hs].
        apply nan_lt_Some. eauto. }
      rewrite Hnil in H. inversion H.
    - intros Hall.
      destruct (filter _ stats) as [|s l] eqn:E; [reflexivity|]. exfalso.
      assert (H : s ∈ filter (fun s => nan_lt (overlapping_frac s) min_overlap = true)
                        stats) by (rewrite E; left).
      apply list_elem_of_filter in H as [H Hs].
      apply nan_lt_Some in H as [f [Hf Hlt]].
      specialize (Hall s f Hs Hf). lra. }
  split; [|split].
  - intros m. rewrite list_elem_of_bind. split.
    + intros [s [Hm Hs]]. apply list_elem_of_filter in Hs as [Hlt Hs].
      apply nan_lt_Some in Hlt as [f [Hf Hlt]].
      unfold vprint in Hm. destruct quiet; [inversion Hm|].
      apply list_elem_of_singleton in Hm. eauto 10.
    + intros [-> (s & f & Hs & Hf & Hlt & ->)]. exists s. split; [left|].
      apply list_elem_of_filter. split; [|exact Hs]. apply nan_lt_Some. eauto.
  - destruct (decide (length _ = 0%nat)) as [Hz|Hnz].
    + split; [discriminate|]. intros (s & f & Hs & Hf & Hlt). exfalso.
      apply length_zero_iff_nil in Hz. rewrite Hinv in Hz.
      specialize (Hz s f Hs Hf). lra.
    + split; [intros _|reflexivity].
      destruct (filter _ stats) as [|s l] eqn:E; [contradiction Hnz; reflexivity|].
      assert (H : s ∈ filter (fun s => nan_lt (overlapping_frac s) min_overlap = true)
                        stats) by (rewrite E; left).
      apply list_elem_of_filter in H as [H Hs].
      apply nan_lt_Some in H as [f [Hf Hlt]]. eauto.
  - destruct (decide (length _ = 0%nat)) as [Hz|Hnz].
    + split; [intros _|reflexivity]. apply Hinv, length_zero_iff_nil, Hz.
    + split; [discriminate|]. intros Hall. exfalso. apply Hnz.
      apply length_zero_iff_nil, Hinv, Hall.
Qed.

(** One dataset: a noisy pair that overlapped for 80 s of 100 s, and its
    quiet pair, run well apart. *)
Definition noisy_80 : list row :=
  [ Row "d1" 1 "noisy" "primary" 0 100; Row "d1" 1 "noisy" "secondary" 20 100;
    Row "d1" 1 "quiet" "primary" 1000 1100; Row "d1" 1 "quiet" "secondary" 2000 2100 ].

(** C8, counterexample: with min_overlap = 0.5 and no warn threshold
    supplied, a row whose overlap fraction is 0.8 is warned about, although
    0.8 is not below 1 - (1 - 0.5)/2 = 0.75: the threshold in force is the
    signature's 0.90. *)
Lemma default_warn_is_not_the_formula :
  validate_contention_dataset noisy_80 (Some (1 # 2)%Q) None None None
  = ([LowNoisyOverlap false 1 "d1" (Some (80 # 100)%Q)
        (Some 80%Q) (Some 20%Q) (Some 100%Q)], Ok tt) /\
  Qltb (80 # 100) (1 - (1 - (1 # 2)) / 2) = false.
Proof. split; vm_compute; reflexivity. Qed.

(** C8, amended: when the caller passes None as the warn threshold, the
    threshold is 1 - (1 - min_overlap)/2; when the caller leaves it out it is
    0.90 whatever min_overlap is (the two agree at the default 0.80).  Once
    the earlier checks pass, a warning is printed (unless quiet) for exactly
    the noisy rows whose overlap fraction is below the threshold, and the
    validation fails with JobOverlapError exactly when some noisy row is
    below min_overlap. *)
Theorem noisy_overlap_check (dataframe : list row) (min_overlap : Q)
    (min_walltime : option Q) (min_overlap_warn : option (option Q))
    (quiet : bool) (stats : list noisy_stat) :
  let warn :=
    match min_overlap_warn with
    | None => (90 # 100)%Q
    | Some None => (1 - (1 - min_overlap) / 2)%Q
    | Some (Some w) => w
    end in
  let out := validate_contention_dataset dataframe (Some min_overlap)
               min_walltime min_overlap_warn (Some quiet) in
  snd (earlier_checks dataframe (default 45%Q min_walltime) quiet) = Ok stats ->
  (forall m, m ∈ fst out <->
     quiet = false /\
     exists s f, s ∈ stats /\ overlapping_frac s = Some f /\ (f < warn)%Q /\
                 m = low_overlap_message min_overlap s) /\
  (snd out = Raise (JobOverlapError "insufficient noisy overlap") <->
     exists s f, s ∈ stats /\ overlapping_frac s = Some f /\ (f < min_overlap)%Q) /\
  (snd out = Ok tt <->
     forall s f, s ∈ stats -> overlapping_frac s = Some f -> (min_overlap <= f)%Q) /\
  (1 - (1 - (80 # 100)) / 2 == 90 # 100)%Q.
Proof.
  intros warn out Hearlier. subst out.
  unfold validate_contention_dataset. rewrite validate_body_split.
  cbn [default from_option id].
  destruct (earlier_checks dataframe (default 45%Q min_walltime) quiet)
    as [o r] eqn:E.
  simpl in Hearlier. subst r. apply earlier_checks_silent in E as ->.
  cbn [and_then].
  pose proof (check_noisy_overlap_spec stats min_overlap
                (default (Some (90 # 100)%Q) min_overlap_warn) quiet) as H.
  cbv zeta in H.
  destruct (check_noisy_overlap stats min_overlap _ quiet) as [o r].
  rewrite app_nil_l.
  replace (warn_threshold min_overlap (default (Some (90 # 100)%Q) min_overlap_warn))
    with warn in H by (subst warn; destruct min_overlap_warn as [[w|]|]; reflexivity).
  destruct H as (H1 & H2 & H3).
  split; [exact H1|]. split; [exact H2|]. split; [exact H3|].
  vm_compute. reflexivity.
Qed.

Lemma noisy_overlap_check_witness :
  snd (validate_contention_dataset noisy_80 (Some (1 # 2)%Q) None (Some None)
         (Some false)) = Ok tt <->
  forall s f,
    s ∈ [NoisyStat "d1" 1 (Some 80%Q) (Some 20%Q) (Some 100%Q)] ->
    overlapping_frac s = Some f -> ((1 # 2) <= f)%Q.
Proof.
  refine (proj1 (proj2 (proj2
    (noisy_overlap_check noisy_80 (1 # 2)%Q None (Some None) false
       [NoisyStat "d1" 1 (Some 80%Q) (Some 20%Q) (Some 100%Q)] _)))).
  vm_compute. reflexivity.
Defined.

End Contention.

(** ** Python strings and numbers *)

Module PyStr.

Definition chars (s : string) : list ascii := list_ascii_of_string s.
Definition str (l : list ascii) : string := string_of_list_ascii l.

(** [str.isspace] on the code points 0..255. *)
Definition isspace (c : ascii) : bool :=
  let n := nat_of_ascii c in
  ((9 <=? n) && (n <=? 13) || (28 <=? n) && (n <=? 32)
   || (n =? 133) || (n =? 160))%nat.

Definition isdigit (c : ascii) : bool :=
  let n := nat_of_ascii c in ((48 <=? n) && (n <=? 57))%nat.

Definition digit_value (c : ascii) : Z := Z.of_nat (nat_of_ascii c - 48).

(** [str.lower] on the code points 0..255. *)
Definition lower_char (c : ascii) : ascii :=
  let n := nat_of_ascii c in
  if ((65 <=? n) && (n <=? 90)
      || (192 <=? n) && (n <=? 222) && negb (n =? 215))%nat
  then ascii_of_nat (n + 32) else c.

Definition lower (s : string) : string := str (lower_char <$> chars s).

Fixpoint lstrip_with (drop : ascii -> bool) (l : list ascii) : list ascii :=
  match l with
  | c :: l' => if drop c then lstrip_with drop l' else l
  | [] => []
  end.

Definition rstrip_with (drop : ascii -> bool) (l : list ascii) : list ascii :=
  rev (lstrip_with drop (rev l)).

Definition strip_with (drop : ascii -> bool) (l : list ascii) : list ascii :=
  rstrip_with drop (lstrip_with drop l).

Definition strip_chars (l : list ascii) : list ascii := strip_with isspace l.

(** The whitespace [int] and [float] skip around a literal: the separators
    28..31 count as space for [str.strip] and not for a number. *)
Definition isspace_literal (c : ascii) : bool :=
  let n := nat_of_ascii c in
  ((9 <=? n) && (n <=? 13) || (n =? 32) || (n =? 133) || (n =? 160))%nat.

Definition strip_literal (l : list ascii) : list ascii :=
  strip_with isspace_literal l.

(** [s.strip()] *)
Definition strip (s : string) : string := str (strip_chars (chars s)).

(** [s.rstrip(c)] for a one-character argument. *)
Definition rstrip (c : ascii) (s : string) : string :=
  str (rstrip_with (fun x => bool_decide (x = c)) (chars s)).

(** [s.split()]: the maximal runs of non-whitespace. *)
Fixpoint split_ws (l : list ascii) : list (list ascii) :=
  match l with
  | [] => []
  | c :: l' =>
      if isspace c then split_ws l'
      else match l' with
           | [] => [[c]]
           | c' :: _ =>
               if isspace c' then [c] :: split_ws l'
               else match split_ws l' with
                    | t :: ts => (c :: t) :: ts
                    | [] => [[c]]
                    end
           end
  end.

Definition split (s : string) : list string := str <$> split_ws (chars s).

(** [s.split(sep)] for a one-character separator: never empty. *)
Fixpoint split_chars (sep : ascii) (l : list ascii) : list (list ascii) :=
  match l with
  | [] => [[]]
  | c :: l' =>
      if bool_decide (c = sep) then [] :: split_chars sep l'
      else match split_chars sep l' with
           | t :: ts => (c :: t) :: ts
           | [] => [[c]]
           end
  end.

Definition split_on (sep : ascii) (s : string) : list string :=
  str <$> split_chars sep (chars s).

(** [s.split(sep, 1)] *)
Fixpoint split1_chars (sep : ascii) (l : list ascii) : list (list ascii) :=
  match l with
  | [] => [[]]
  | c :: l' =>
      if bool_decide (c = sep) then [[]; l']
      else match split1_chars sep l' with
           | t :: ts => (c :: t) :: ts
           | [] => [[c]]
           end
  end.

Definition split1 (sep : ascii) (s : string) : list string :=
  str <$> split1_chars sep (chars s).

(** [l[-1]] and [l[i]], raising [IndexError] out of range. *)
Definition item_last {A : Type} (l : list A) : result A :=
  match last l with
  | Some x => Ok x
  | None => Raise IndexError
  end.

Definition item {A : Type} (l : list A) (i : nat) : result A :=
  match l !! i with
  | Some x => Ok x
  | None => Raise IndexError
  end.

(** [s.startswith(prefix)], [s.endswith(suffix)] and [sub in s]. *)
Definition startswith (s prefix : string) : bool := String.prefix prefix s.

Definition endswith (s suffix : string) : bool :=
  bool_decide (drop (length (chars s) - length (chars suffix)) (chars s) = chars suffix).

Fixpoint contains (sub s : string) : bool :=
  String.prefix sub s ||
  match s with
  | EmptyString => false
  | String _ s' => contains sub s'
  end.

(** A Python float: a finite value (the exact rational), an infinity or
    NaN. *)
Inductive pyfloat : Type :=
| Finite (q : Q)
| Inf (negative : bool)
| NaN.

(** digitpart ::= digit (["_"] digit)*  -- its value and number of digits. *)
Fixpoint digitpart_from (acc : Z) (n : nat) (after_digit : bool) (l : list ascii)
    : option (Z * nat) :=
  match l with
  | [] => if after_digit then Some (acc, n) else None
  | c :: l' =>
      if isdigit c then digitpart_from (10 * acc + digit_value c) (S n) true l'
      else if bool_decide (c = "_"%char) && after_digit
           then digitpart_from acc n false l'
           else None
  end.

Definition digitpart (l : list ascii) : option (Z * nat) :=
  digitpart_from 0 0 false l.

Definition split_sign (l : list ascii) : bool * list ascii :=
  match l with
  | c :: r =>
      if bool_decide (c = "-"%char) then (true, r)
      else if bool_decide (c = "+"%char) then (false, r)
      else (false, l)
  | [] => (false, [])
  end.

(** [int(s)]: optional whitespace, an optional sign, a digitpart.  (The
    interpreter's cap on the number of digits is not modelled.) *)
Definition py_int (s : string) : option Z :=
  let (neg, body) := split_sign (strip_literal (chars s)) in
  '(n, _) ← digitpart body;
  Some (if neg then (- n)%Z else n).

Fixpoint break_at (stop : ascii -> bool) (l : list ascii)
    : list ascii * option (list ascii) :=
  match l with
  | [] => ([], None)
  | c :: l' =>
      if stop c then ([], Some l')
      else let (a, b) := break_at stop l' in (c :: a, b)
  end.

Definition pow10 (e : Z) : Q :=
  if (0 <=? e)%Z then inject_Z (10 ^ e) else (/ inject_Z (10 ^ (- e)))%Q.

(** number ::= [digitpart] "." digitpart | digitpart ["."] *)
Definition mantissa (l : list ascii) : option (Z * nat) :=
  match break_at (fun c => bool_decide (c = "."%char)) l with
  | (ip, None) => '(v, _) ← digitpart ip; Some (v, 0%nat)
  | (ip, Some fp) =>
      match ip, fp with
      | [], [] => None
      | _ :: _, [] => '(v, _) ← digitpart ip; Some (v, 0%nat)
      | [], _ :: _ => digitpart fp
      | _ :: _, _ :: _ =>
          '(v, _) ← digitpart ip;
          '(w, k) ← digitpart fp;
          Some ((v * 10 ^ Z.of_nat k + w)%Z, k)
      end
  end.

Definition exponent (l : option (list ascii)) : option Z :=
  match l with
  | None => Some 0%Z
  | Some e =>
      let (neg, body) := split_sign e in
      '(n, _) ← digitpart body;
      Some (if neg then (- n)%Z else n)
  end.

(** [float(s)]: that whitespace, an optional sign, then "inf", "infinity" or
    "nan" in any case, or a decimal number with an optional exponent. *)
Definition py_float (s : string) : option pyfloat :=
  let (neg, body) := split_sign (strip_literal (chars s)) in
  let low := str (lower_char <$> body) in
  if bool_decide (low = "inf" \/ low = "infinity") then Some (Inf neg)
  else if bool_decide (low = "nan") then Some NaN
  else
    let (m, e) := break_at (fun c => bool_decide (c = "e"%char \/ c = "E"%char)) body in
    '(v, k) ← mantissa m;
    x ← exponent e;
    let q := (inject_Z v * pow10 (x - Z.of_nat k))%Q in
    Some (Finite (Qred (if neg then - q else q))).

(** [x * k] for a float [x]. *)
Definition float_scale (x : pyfloat) (k : Q) : pyfloat :=
  match x with
  | Finite q => Finite (Qred (q * k))
  | other => other
  end.

End PyStr.

(** ** parse.py: values, records and the parser state *)

Module Parse.
Import PyStr.

(** What [coerce_value] and the header hold. *)
Inductive pyval : Type :=
| VNone
| VInt (n : Z)
| VFloat (x : pyfloat)
| VStr (s : string).

(** A Python dict with string keys: the header and every record. *)
Abbreviation record := (gmap string pyval).

(** The handler [self._parser] points at. *)
Inductive parser : Type :=
| find_run_begin
| parse_run_metadata
| find_results_begin
| find_results_header
| parse_result
| find_summary
| parse_summary.

(** An [IorOutput] under construction.  The keys the parser may set on
    [self] are fields that start out absent; [warned] collects the calls of
    [warnings.warn]. *)
Record IorOutput : Type := mkIorOutput {
  header : option record;
  results : option (list record);
  summaries : option (list record);
  stonewall_pairs : option (list (gmap Z Z));
  max_read_mibs : option pyval;
  max_write_mibs : option pyval;
  _parser : parser;
  _this_record : option record;
  _result_columns : option (list string);
  _summary_columns : option (list string);
  warned : list string
}.

Definition set_header (v : option record) (o : IorOutput) : IorOutput :=
  mkIorOutput v (results o) (summaries o) (stonewall_pairs o) (max_read_mibs o)
    (max_write_mibs o) (_parser o) (_this_record o) (_result_columns o)
    (_summary_columns o) (warned o).
Definition set_results (v : option (list record)) (o : IorOutput) : IorOutput :=
  mkIorOutput (header o) v (summaries o) (stonewall_pairs o) (max_read_mibs o)
    (max_write_mibs o) (_parser o) (_this_record o) (_result_columns o)
    (_summary_columns o) (warned o).
Definition set_summaries (v : option (list record)) (o : IorOutput) : IorOutput :=
  mkIorOutput (header o) (results o) v (stonewall_pairs o) (max_read_mibs o)
    (max_write_mibs o) (_parser o) (_this_record o) (_result_columns o)
    (_summary_columns o) (warned o).
Definition set_stonewall_pairs (v : option (list (gmap Z Z))) (o : IorOutput)
    : IorOutput :=
  mkIorOutput (header o) (results o) (summaries o) v (max_read_mibs o)
    (max_write_mibs o) (_parser o) (_this_record o) (_result_columns o)
    (_summary_columns o) (warned o).
Definition set_max_read_mibs (v : option pyval) (o : IorOutput) : IorOutput :=
  mkIorOutput (header o) (results o) (summaries o) (stonewall_pairs o) v
    (max_write_mibs o) (_parser o) (_this_record o) (_result_columns o)
    (_summary_columns o) (warned o).
Definition set_max_write_mibs (v : option pyval) (o : IorOutput) : IorOutput :=
  mkIorOutput (header o) (results o) (summaries o) (stonewall_pairs o)
    (max_read_mibs o) v (_parser o) (_this_record o) (_result_columns o)
    (_summary_columns o) (warned o).
Definition set_parser (v : parser) (o : IorOutput) : IorOutput :=
  mkIorOutput (header o) (results o) (summaries o) (stonewall_pairs o)
    (max_read_mibs o) (max_write_mibs o) v (_this_record o) (_result_columns o)
    (_summary_columns o) (warned o).
Definition set_this_record (v : option record) (o : IorOutput) : IorOutput :=
  mkIorOutput (header o) (results o) (summaries o) (stonewall_pairs o)
    (max_read_mibs o) (max_write_mibs o) (_parser o) v (_result_columns o)
    (_summary_columns o) (warned o).
Definition set_result_columns (v : option (list string)) (o : IorOutput)
    : IorOutput :=
  mkIorOutput (header o) (results o) (summaries o) (stonewall_pairs o)
    (max_read_mibs o) (max_write_mibs o) (_parser o) (_this_record o) v
    (_summary_columns o) (warned o).
Definition set_summary_columns (v : option (list string)) (o : IorOutput)
    : IorOutput :=
  mkIorOutput (header o) (results o) (summaries o) (stonewall_pairs o)
    (max_read_mibs o) (max_write_mibs o) (_parser o) (_this_record o)
    (_result_columns o) v (warned o).
Definition warn (msg : string) (o : IorOutput) : IorOutput :=
  mkIorOutput (header o) (results o) (summaries o) (stonewall_pairs o)
    (max_read_mibs o) (max_write_mibs o) (_parser o) (_this_record o)
    (_result_columns o) (_summary_columns o) (warned o ++ [msg])%list.

(** [BenchmarkOutput.__init__] followed by the assignments of
    [IorOutput.__init__]: an empty dict in the initial state. *)
Definition new_output : IorOutput :=
  mkIorOutput None None None None None None find_run_begin None None None [].

(** ** Conversions *)

Definition to_int (s : string) : result Z :=
  match py_int s with
  | Some n => Ok n
  | None => Raise (ValueError "invalid literal for int() with base 10")
  end.

Definition to_float (s : string) : result pyfloat :=
  match py_float s with
  | Some x => Ok x
  | None => Raise (ValueError "could not convert string to float")
  end.

(** [BenchmarkOutput.humansize2bytes] *)
Definition humansize2bytes (humansize : string) : result pyfloat :=
  match split (strip humansize) with
  | [xsize; unit] =>
      xsize ← to_float xsize;
      let unit :=
        if endswith unit "/s"
        then str (take (length (chars unit) - 2) (chars unit)) else unit in
      if bool_decide (unit = "bytes") then Ok xsize
      else if bool_decide (unit = "KiB") then Ok (float_scale xsize 1024)
      else if bool_decide (unit = "MiB") then Ok (float_scale xsize (inject_Z (2 ^ 20)))
      else if bool_decide (unit = "GiB") then Ok (float_scale xsize (inject_Z (2 ^ 30)))
      else if bool_decide (unit = "TiB") then Ok (float_scale xsize (inject_Z (2 ^ 40)))
      else if bool_decide (unit = "PiB") then Ok (float_scale xsize (inject_Z (2 ^ 50)))
      else if bool_decide (unit = "EiB") then Ok (float_scale xsize (inject_Z (2 ^ 60)))
      else Raise (ValueError "got unreal xsize")
  | _ => Raise (ValueError "wrong number of values to unpack")
  end.

(** [BenchmarkOutput.coerce_value] *)
Definition coerce_value (value : string) : pyval :=
  if bool_decide (value = "-" \/ value = "NA") then VNone
  else if contains "." value then
    match py_float value with
    | Some x => VFloat x
    | None => VStr value
    end
  else
    match py_int value with
    | Some n => VInt n
    | None => VStr value
    end.

(** [a < b] on values: numbers compare with numbers and text with text;
    anything else raises [TypeError]. *)
Definition float_lt (x y : pyfloat) : bool :=
  match x, y with
  | NaN, _ | _, NaN => false
  | Inf true, Inf true => false
  | Inf true, _ => true
  | _, Inf true => false
  | Inf false, _ => false
  | Finite _, Inf false => true
  | Finite a, Finite b => Qltb a b
  end.

Definition py_lt (a b : pyval) : result bool :=
  match a, b with
  | VInt x, VInt y => Ok (x <? y)%Z
  | VInt x, VFloat y => Ok (float_lt (Finite (inject_Z x)) y)
  | VFloat x, VInt y => Ok (float_lt x (Finite (inject_Z y)))
  | VFloat x, VFloat y => Ok (float_lt x y)
  | VStr x, VStr y => Ok (String.ltb x y)
  | _, _ => Raise TypeError
  end.

(** [dict(list(zip(columns, values)))] merged into a dict: later pairs
    win. *)
Fixpoint update_zip (columns : list string) (values : list pyval) (d : record)
    : record :=
  match columns, values with
  | k :: columns, v :: values => update_zip columns values (<[k := v]> d)
  | _, _ => d
  end.

(** ** The state machine *)

Section Machine.

(** [datetime.datetime.strptime(text, format).timestamp()] as whole seconds,
    [None] when [strptime] raises [ValueError].  The function belongs to the
    Python library and depends on the locale and the time zone, so the parser
    is modelled over an arbitrary one. *)
Variable strptime : string -> string -> option Z.

Definition timestamp (text format : string) : result Z :=
  match strptime text format with
  | Some t => Ok t
  | None => Raise (ValueError "time data does not match format")
  end.

(** [if 'header' not in self: self['header'] = {}] *)
Definition ensure_header (self : IorOutput) : IorOutput :=
  match header self with
  | Some _ => self
  | None => set_header (Some ∅) self
  end.

(** [self['header'][key] = value] *)
Definition header_setitem (key : string) (value : pyval) (self : IorOutput)
    : result IorOutput :=
  match header self with
  | Some h => Ok (set_header (Some (<[key := value]> h)) self)
  | None => Raise (KeyError "header")
  end.

(** The per-rank branch of [parse_anywhere]: the mapping list after
    [self['stonewall_pairs'][-1][key] = val], a new mapping being appended
    first when the last one already has the key. *)
Definition record_pair (key val : Z) (pairs : list (gmap Z Z))
    : result (list (gmap Z Z)) :=
  m ← item_last pairs;
  if bool_decide (is_Some (m !! key))
  then Ok (pairs ++ [{[key := val]}])%list
  else Ok (removelast pairs ++ [<[key := val]> m])%list.

(** [IorOutput.parse_anywhere]: the new state and whether the line was
    taken. *)
Definition parse_anywhere (self : IorOutput) (line : string)
    : result (IorOutput * bool) :=
  if contains "stonewalling pairs accessed:" line then
    let pairs := default [∅] (stonewall_pairs self) in
    let tokens := split_on ":" line in
    t0 ← item tokens 0;
    key ← to_int t0;
    t1 ← item_last tokens;
    val ← to_int t1;
    pairs ← record_pair key val pairs;
    Ok (set_stonewall_pairs (Some pairs) self, true)
  else if startswith line "Finished            :" then
    let self := ensure_header self in
    text ← item_last (split1 ":" line);
    t ← timestamp (strip text) "%c";
    self ← header_setitem "end" (VInt t) self;
    Ok (set_parser find_run_begin self, true)
  else Ok (self, false).

(** [IorOutput.find_run_begin] *)
Definition do_find_run_begin (self : IorOutput) (line : string) : IorOutput :=
  if startswith line "IOR" && contains "MPI Coordinated Test of Parallel I/O" line
  then set_parser parse_run_metadata (set_header (Some ∅) self)
  else self.

(** [IorOutput.parse_run_metadata] *)
Definition do_parse_run_metadata (self : IorOutput) (line : string)
    : result IorOutput :=
  let self := ensure_header self in
  if startswith line "nodes               :" then
    text ← item_last (split_on ":" line);
    n ← to_int (strip text);
    header_setitem "nodes" (VInt n) self
  else if startswith line "tasks               :" then
    text ← item_last (split_on ":" line);
    n ← to_int (strip text);
    header_setitem "nproc" (VInt n) self
  else if startswith line "clients per node    :" then
    text ← item_last (split_on ":" line);
    n ← to_int (strip text);
    header_setitem "ppn" (VInt n) self
  else if startswith line "xfersize            :" then
    text ← item_last (split_on ":" line);
    x ← humansize2bytes text;
    header_setitem "xfersize" (VFloat x) self
  else if startswith line "ordering in a file  :" then
    text ← item_last (split_on ":" line);
    header_setitem "ordering" (VStr (strip text)) self
  else if startswith (strip line) "aggregate filesize" then
    text ← item_last (split_on ":" line);
    x ← humansize2bytes text;
    self ← header_setitem "aggsize_bytes" (VFloat x) self;
    Ok (set_parser find_results_begin self)
  else if startswith line "StartTime           :" then
    text ← item_last (split1 ":" line);
    t ← timestamp (strip text) "%c";
    header_setitem "start" (VFloat (Finite (inject_Z t))) self
  else Ok self.

(** [IorOutput.find_results_begin] *)
Definition do_find_results_begin (self : IorOutput) (line : string) : IorOutput :=
  if bool_decide (strip line = "Results:") then set_parser find_results_header self
  else self.

(** [IorOutput.find_results_header]: the new state and whether
    [next(self._content)] was called to drop the separator line. *)
Definition do_find_results_header (self : IorOutput) (line : string)
    : IorOutput * bool :=
  if bool_decide (strip line = "") then (self, false)
  else if startswith line "WARNING: The file" then (self, false)
  else if startswith line "Using Time Stamp" then (self, false)
  else if startswith (strip line) "access" then
    (set_parser parse_result
       (set_result_columns (Some (lower <$> split (strip line))) self), true)
  else (self, false).

(** The running maximum of [parse_result]: when the record has a text
    "access" that is "read" or "write" and a "bw(mib/s)", the key
    [max_read_mibs] or [max_write_mibs] of [self] is set if it is absent or
    smaller. *)
Definition update_max (self : IorOutput) (this_record : record) : result IorOutput :=
  match this_record !! "access", this_record !! "bw(mib/s)" with
  | Some (VStr access), Some bw =>
      if bool_decide (access = "read") then
        match max_read_mibs self with
        | None => Ok (set_max_read_mibs (Some bw) self)
        | Some old =>
            less ← py_lt old bw;
            Ok (if less : bool then set_max_read_mibs (Some bw) self else self)
        end
      else if bool_decide (access = "write") then
        match max_write_mibs self with
        | None => Ok (set_max_write_mibs (Some bw) self)
        | Some old =>
            less ← py_lt old bw;
            Ok (if less : bool then set_max_write_mibs (Some bw) self else self)
        end
      else Ok self
  | _, _ => Ok self
  end.

(** The branch of [parse_result] for a row of results. *)
Definition do_result_row (self : IorOutput) (line : string) : result IorOutput :=
  let values := coerce_value <$> split (strip line) in
  columns ← match _result_columns self with
            | Some c => Ok c
            | None => Raise TypeError
            end;
  let this_record := update_zip columns values (default ∅ (_this_record self)) in
  self ← update_max self this_record;
  Ok (set_this_record None
        (set_results (Some (default [] (results self) ++ [this_record])%list) self)).

(** The branch of [parse_result] for a "Commencing" line. *)
Definition do_commencing (self : IorOutput) (line : string) : result IorOutput :=
  text ← item_last (split1 ":" line);
  stamp ← timestamp (strip text) "%a %b %d %H:%M:%S %Y";
  let stamp := VFloat (Finite (inject_Z stamp)) in
  match _this_record self with
  | None => Ok (set_this_record (Some {[ "timestamp" := stamp ]}) self)
  | Some this_record =>
      word ← item (split (strip line)) 1;
      let this_access := lower word in
      expected_access ←
        match this_record !! "access" with
        | Some (VStr a) => Ok (lower a)
        | _ => Raise AttributeError
        end;
      if negb (bool_decide (expected_access = ""))
         && negb (bool_decide (expected_access = this_access))
      then Ok (warn ("encountered " ++ this_access ++ " timestamp for a "
                     ++ expected_access ++ " record") self)
      else Ok (set_this_record (Some (<["timestamp" := stamp]> this_record)) self)
  end.

(** The branch of [parse_result] for the stonewalling statistics line. *)
Definition do_stonewalling_stats (self : IorOutput) (line : string)
    : result IorOutput :=
  let args := split line in
  let this_record := default ∅ (_this_record self) in
  a4 ← item args 4;
  min_xfers ← to_int a4;
  a6 ← item args 6;
  max_xfers ← to_int a6;
  al ← item_last args;
  secs ← to_float (rstrip "s" al);
  Ok (set_this_record
        (Some (<["stonewall_time_secs" := VFloat secs]>
                 (<["stonewall_max_xfers" := VInt max_xfers]>
                    (<["stonewall_min_xfers" := VInt min_xfers]> this_record))))
        self).

(** The branch of [parse_result] for the bytes-moved warning. *)
Definition do_bytes_moved (self : IorOutput) (line : string) : result IorOutput :=
  let this_record := default ∅ (_this_record self) in
  al ← item_last (split line);
  moved ← to_int (rstrip "." al);
  Ok (set_this_record (Some (<["stonewall_bytes_moved" := VInt moved]> this_record))
        self).

(** [IorOutput.parse_result] *)
Definition do_parse_result (self : IorOutput) (line : string) : result IorOutput :=
  if startswith line "Max" then Ok (set_parser find_summary self)
  else if startswith line "read" || startswith line "write"
          || startswith line "remove" then do_result_row self line
  else if startswith line "Commencing" then do_commencing self line
  else if startswith line "stonewalling pairs accessed " then
    do_stonewalling_stats self line
  else if startswith line "WARNING: Using actual aggregate bytes moved" then
    do_bytes_moved self line
  else Ok self.

(** [IorOutput.find_summary]: [next(self._content)] is called for the header
    row; when the content is exhausted it raises [StopIteration] before
    anything is assigned. *)
Definition do_find_summary (self : IorOutput) (line : string) (next : option string)
    : IorOutput * bool :=
  if bool_decide (strip line = "Summary of all tests:") then
    match next with
    | Some row =>
        (set_parser parse_summary
           (set_summary_columns (Some (lower <$> split (strip row))) self), true)
    | None => (self, true)
    end
  else (self, false).

(** [IorOutput.parse_summary] *)
Definition do_parse_summary (self : IorOutput) (line : string) : result IorOutput :=
  if startswith line "write" || startswith line "read" then
    let values := coerce_value <$> split (strip line) in
    columns ← match _summary_columns self with
              | Some c => Ok c
              | None => Raise TypeError
              end;
    Ok (set_summaries
          (Some (default [] (summaries self) ++ [update_zip columns values ∅])%list)
          self)
  else Ok self.

(** [BenchmarkOutput.parse_line]: the "anywhere" rules first, then the
    handler of the current state.  [next] is the line a call of
    [next(self._content)] would return; the flag of the result tells whether
    it was consumed. *)
Definition parse_line (self : IorOutput) (line : string) (next : option string)
    : result (IorOutput * bool) :=
  '(self', taken) ← parse_anywhere self line;
  if taken : bool then Ok (self', false)
  else
    match _parser self with
    | find_run_begin => Ok (do_find_run_begin self line, false)
    | parse_run_metadata => self ← do_parse_run_metadata self line; Ok (self, false)
    | find_results_begin => Ok (do_find_results_begin self line, false)
    | find_results_header => Ok (do_find_results_header self line)
    | parse_result => self ← do_parse_result self line; Ok (self, false)
    | find_summary => Ok (do_find_summary self line next)
    | parse_summary => self ← do_parse_summary self line; Ok (self, false)
    end.

(** [BenchmarkOutput.load_output] under the [try] of [__init__]: the loop
    ends at an empty line or when the content is exhausted, also when that
    happens inside a handler. *)
Fixpoint load_output (self : IorOutput) (content : list string) : result IorOutput :=
  match content with
  | [] => Ok self
  | line :: rest =>
      if bool_decide (line = "") then Ok self
      else
        '(self', consumed) ← parse_line self line (head rest);
        if consumed : bool then
          match rest with
          | [] => Ok self'
          | _ :: rest' => load_output self' rest'
          end
        else load_output self' rest
  end.

(** The loop at the end of [__init__]: [rec.update(self['header'])] for
    every record. *)
Definition normalize (self : IorOutput) : result IorOutput :=
  match results self with
  | None | Some [] => Ok self
  | Some recs =>
      match header self with
      | Some h => Ok (set_results (Some ((fun rec => h ∪ rec) <$> recs)) self)
      | None => Raise (KeyError "header")
      end
  end.

(** [IorOutput(content, normalize_results)] *)
Definition IorOutput_init (content : list string) (normalize_results : bool)
    : result IorOutput :=
  self ← load_output new_output content;
  if normalize_results then normalize self else Ok self.

End Machine.

End Parse.

(** ** A concrete clock: the C locale in UTC *)

Module CLocale.
Import PyStr.

Definition index_of (names : list string) (s : string) : option nat :=
  fst <$> list_find (fun n => n = lower s) names.

Definition weekdays : list string :=
  ["mon"; "tue"; "wed"; "thu"; "fri"; "sat"; "sun"].

Definition months : list string :=
  ["jan"; "feb"; "mar"; "apr"; "may"; "jun";
   "jul"; "aug"; "sep"; "oct"; "nov"; "dec"].

(** A field of one to [width] decimal digits, at most [limit]. *)
Definition field (width : nat) (limit : Z) (s : string) : option Z :=
  let l := chars s in
  if forallb isdigit l && (1 <=? length l)%nat && (length l <=? width)%nat then
    '(v, _) ← digitpart l;
    if (v <=? limit)%Z then Some v else None
  else None.

Definition is_leap (y : Z) : bool :=
  ((y mod 4 =? 0) && negb (y mod 100 =? 0) || (y mod 400 =? 0))%Z.

Definition days_in_month (y m : Z) : Z :=
  if (m =? 2)%Z then (if is_leap y then 29 else 28)%Z
  else if ((m =? 4) || (m =? 6) || (m =? 9) || (m =? 11))%Z then 30%Z
  else 31%Z.

(** Days from 1970-01-01 to the given date of the proleptic Gregorian
    calendar. *)
Definition days_from_civil (y m d : Z) : Z :=
  let y := (if m <=? 2 then y - 1 else y)%Z in
  let era := (y / 400)%Z in
  let yoe := (y - era * 400)%Z in
  let mp := ((m + 9) mod 12)%Z in
  let doy := ((153 * mp + 2) / 5 + d - 1)%Z in
  let doe := (yoe * 365 + yoe / 4 - yoe / 100 + doy)%Z in
  (era * 146097 + doe - 719468)%Z.

(** [datetime.strptime(text, format).timestamp()] for the two formats the
    parser uses, which coincide in the C locale ("Tue Jul 20 12:59:31 2021"),
    read as UTC. *)
Definition strptime (text format : string) : option Z :=
  if bool_decide (format = "%c" \/ format = "%a %b %d %H:%M:%S %Y") then
    match split text with
    | [a; b; d; hms; y] =>
        _ ← index_of weekdays a;
        mon ← index_of months b;
        day ← field 2 31 d;
        year ← (if (length (chars y) =? 4)%nat then field 4 9999 y else None);
        match split_on ":" hms with
        | [h; m; s] =>
            hh ← field 2 23 h;
            mm ← field 2 59 m;
            ss ← field 2 59 s;
            let month := Z.of_nat (S mon) in
            if ((1 <=? day) && (day <=? days_in_month year month) && (1 <=? year))%Z
            then Some (days_from_civil year month day * 86400
                       + hh * 3600 + mm * 60 + ss)%Z
            else None
        | _ => None
        end
    | _ => None
    end
  else None.

End CLocale.

(** ** Value coercion *)

Module Coercion.
Import PyStr Parse.

(** The coercion in the specification's words: absent for "-" and "NA";
    otherwise an integer parse and a float parse, tried in the order the
    presence of "." decides; the text itself when neither succeeds. *)
Definition coerce_value_spec (value : string) : pyval :=
  if bool_decide (value = "-" \/ value = "NA") then VNone
  else if contains "." value then
    match py_float value, py_int value with
    | Some x, _ => VFloat x
    | None, Some n => VInt n
    | None, None => VStr value
    end
  else
    match py_int value, py_float value with
    | Some n, _ => VInt n
    | None, Some x => VFloat x
    | None, None => VStr value
    end.

Lemma contains_char (c : ascii) (s : string) :
  contains (String c EmptyString) s = true -> c ∈ chars s.
Proof.
  induction s as [|a s IH]; simpl; [discriminate|].
  destruct (ascii_dec c a) as [->|Hne]; simpl.
  - intros _. left.
  - intros H. right. apply IH. exact H.
Qed.

Lemma elem_of_lstrip_with (drop : ascii -> bool) (l : list ascii) (c : ascii) :
  c ∈ l -> drop c = false -> c ∈ lstrip_with drop l.
Proof.
  induction l as [|a l IH]; simpl; intros Hc Hd; [exact Hc|].
  destruct (drop a) eqn:E; [|exact Hc].
  apply IH; [|exact Hd]. apply elem_of_cons in Hc as [->|Hc]; [congruence|exact Hc].
Qed.

Lemma elem_of_rev {A : Type} (l : list A) (x : A) : x ∈ rev l <-> x ∈ l.
Proof. rewrite !list_elem_of_In. symmetry. apply in_rev. Qed.

Lemma elem_of_strip_with (drop : ascii -> bool) (l : list ascii) (c : ascii) :
  c ∈ l -> drop c = false -> c ∈ strip_with drop l.
Proof.
  intros Hc Hs. unfold strip_with, rstrip_with.
  rewrite elem_of_rev. apply elem_of_lstrip_with; [|exact Hs].
  rewrite elem_of_rev. apply elem_of_lstrip_with; assumption.
Qed.

Lemma digitpart_from_stranger (c : ascii) (l : list ascii) :
  c ∈ l -> isdigit c = false -> c <> "_"%char ->
  forall acc n b, digitpart_from acc n b l = None.
Proof.
  intros Hc Hd Hu. induction l as [|a l IH]; intros acc n b; [inversion Hc|].
  simpl. apply elem_of_cons in Hc as [<-|Hc].
  - rewrite Hd. rewrite bool_decide_eq_false_2 by exact Hu. reflexivity.
  - destruct (isdigit a); [apply IH, Hc|].
    destruct (bool_decide (a = "_"%char) && b); [apply IH, Hc | reflexivity].
Qed.

(** A text with a "." is no integer literal. *)
Lemma py_int_dot (value : string) :
  contains "." value = true -> py_int value = None.
Proof.
  intros H. apply contains_char in H.
  apply (elem_of_strip_with isspace_literal) in H; [|reflexivity].
  unfold py_int, split_sign, strip_literal.
  destruct (strip_with isspace_literal (chars value)) as [|a l] eqn:E;
    [inversion H|].
  assert (Hbody : forall body, "."%char ∈ body -> digitpart body ≫=
            (fun '(n, _) => Some n) = @None Z).
  { intros body Hb. unfold digitpart.
    rewrite (digitpart_from_stranger "."%char body Hb) by (reflexivity || discriminate).
    reflexivity. }
  assert (Hl : a = "."%char \/ "."%char ∈ l).
  { apply elem_of_cons in H as [->|H]; auto. }
  unfold digitpart.
  destruct (bool_decide (a = "-"%char)) eqn:E1.
  - apply bool_decide_eq_true in E1 as ->. destruct Hl as [Hl|Hl]; [discriminate|].
    rewrite (digitpart_from_stranger "."%char l Hl) by (reflexivity || discriminate).
    reflexivity.
  - destruct (bool_decide (a = "+"%char)) eqn:E2.
    + apply bool_decide_eq_true in E2 as ->. destruct Hl as [Hl|Hl]; [discriminate|].
      rewrite (digitpart_from_stranger "."%char l Hl) by (reflexivity || discriminate).
      reflexivity.
    + rewrite (digitpart_from_stranger "."%char (a :: l) H)
        by (reflexivity || discriminate).
      reflexivity.
Qed.

(** C5, counterexample: "1e5" has no ".", is no integer and is a float
    literal; an integer parse followed by a float parse gives the float
    100000.0, the code gives back the text. *)
Lemma exponent_text_stays_text :
  coerce_value "1e5" = VStr "1e5" /\
  coerce_value_spec "1e5" = VFloat (Finite 100000).
Proof. split; vm_compute; reflexivity. Qed.

(** C5, amended: coerce_value returns None for "-" and "NA"; otherwise it
    makes one attempt, a float parse when the text contains "." and an
    integer parse when it does not, and returns the text unchanged when that
    attempt fails.  It therefore agrees with trying both parses on every text
    except those without "." that are float literals and not integer ones
    (such as "1e5", "inf" and "nan"), which stay text.  "12" gives the
    integer 12, "3.5" the float 3.5 (the rational 7/2) and "abc" the text
    "abc". *)
Theorem coerce_value_one_attempt :
  (forall value : string,
     (contains "." value = true \/ is_Some (py_int value) \/ py_float value = None
      \/ value = "-" \/ value = "NA") ->
     coerce_value value = coerce_value_spec value) /\
  (forall value : string,
     contains "." value = false -> py_int value = None ->
     value <> "-" -> value <> "NA" ->
     coerce_value value = VStr value) /\
  coerce_value "-" = VNone /\ coerce_value "NA" = VNone /\
  coerce_value "12" = VInt 12 /\
  coerce_value "3.5" = VFloat (Finite (7 # 2)) /\
  coerce_value "abc" = VStr "abc".
Proof.
  split; [|split; [|repeat split; vm_compute; reflexivity]].
  - intros value H. unfold coerce_value, coerce_value_spec.
    destruct (bool_decide (value = "-" \/ value = "NA")) eqn:E; [reflexivity|].
    apply bool_decide_eq_false in E.
    destruct (contains "." value) eqn:Hdot.
    + rewrite (py_int_dot value Hdot). destruct (py_float value); reflexivity.
    + destruct H as [H|[H|[H|H]]]; [discriminate | | | tauto].
      * destruct H as [n ->]. reflexivity.
      * rewrite H. destruct (py_int value); reflexivity.
  - intros value Hdot Hint H1 H2. unfold coerce_value.
    rewrite bool_decide_eq_false_2 by tauto. rewrite Hdot, Hint. reflexivity.
Qed.

Lemma coerce_value_one_attempt_witness :
  coerce_value "inf" = VStr "inf" /\ coerce_value "7" = coerce_value_spec "7".
Proof.
  split.
  - apply (proj1 (proj2 coerce_value_one_attempt) "inf");
      [vm_compute; reflexivity | vm_compute; reflexivity | discriminate | discriminate].
  - apply (proj1 coerce_value_one_attempt "7").
    right. left. exists 7%Z. vm_compute. reflexivity.
Defined.

End Coercion.

(** ** The parser: what a line can do *)

Module IorFacts.
Import PyStr Parse.

(** The test each rule applies to a line, collected from [parse_anywhere]
    and from the handler of each state: a line is recognised when some rule
    of the current state acts on it. *)
Definition anywhere (line : string) : bool :=
  contains "stonewalling pairs accessed:" line
  || startswith line "Finished            :".

Definition recognised (p : parser) (line : string) : bool :=
  anywhere line ||
  match p with
  | find_run_begin =>
      startswith line "IOR" && contains "MPI Coordinated Test of Parallel I/O" line
  | parse_run_metadata =>
      startswith line "nodes               :"
      || startswith line "tasks               :"
      || startswith line "clients per node    :"
      || startswith line "xfersize            :"
      || startswith line "ordering in a file  :"
      || startswith (strip line) "aggregate filesize"
      || startswith line "StartTime           :"
  | find_results_begin => bool_decide (strip line = "Results:")
  | find_results_header => startswith (strip line) "access"
  | parse_result =>
      startswith line "Max" || startswith line "read" || startswith line "write"
      || startswith line "remove" || startswith line "Commencing"
      || startswith line "stonewalling pairs accessed "
      || startswith line "WARNING: Using actual aggregate bytes moved"
  | find_summary => bool_decide (strip line = "Summary of all tests:")
  | parse_summary => startswith line "write" || startswith line "read"
  end.

Definition is_result_line (line : string) : bool :=
  startswith line "read" || startswith line "write" || startswith line "remove".

(** The text after the first colon: [line.split(":", 1)[-1]]. *)
Definition after_colon (line : string) : string :=
  default "" (last (split1 ":" line)).

Lemma split1_chars_nonempty (sep : ascii) (l : list ascii) :
  split1_chars sep l <> [].
Proof.
  induction l as [|c l IH]; simpl; [discriminate|].
  destruct (bool_decide (c = sep)); [discriminate|].
  destruct (split1_chars sep l); [contradiction | discriminate].
Qed.

Lemma item_last_split1 (line : string) :
  item_last (split1 ":" line) = Ok (after_colon line).
Proof.
  unfold item_last, after_colon, split1. rewrite fmap_last.
  pose proof (split1_chars_nonempty ":" (chars line)) as H.
  destruct (split1_chars ":" (chars line)) as [|t ts] using rev_ind;
    [contradiction|].
  rewrite last_snoc. reflexivity.
Qed.

Lemma startswith_head (line : string) (a : ascii) (p : string) :
  startswith line (String a p) = true -> exists rest, line = String a rest.
Proof.
  unfold startswith. destruct line as [|b rest]; simpl; [discriminate|].
  destruct (ascii_dec a b) as [->|]; [eauto | discriminate].
Qed.

Lemma startswith_other (a b : ascii) (p rest : string) :
  a <> b -> startswith (String a rest) (String b p) = false.
Proof.
  intros H. unfold startswith. simpl.
  destruct (ascii_dec b a) as [->|]; [contradiction | reflexivity].
Qed.

Ltac split_orb H :=
  repeat match type of H with
         | (_ || _) = false =>
             let H1 := fresh H in
             apply orb_false_iff in H as [H H1]; try split_orb H1
         end.

Section Steps.

Variable strptime : string -> string -> option Z.

(** A line no rule recognises changes nothing; only the handler of the
    metadata state first makes sure a header exists. *)
Lemma unrecognised_line (self : IorOutput) (line : string) (next : option string) :
  recognised (_parser self) line = false ->
  parse_line strptime self line next
  = Ok (match _parser self with
        | parse_run_metadata => ensure_header self
        | _ => self
        end, false).
Proof.
  unfold recognised, anywhere. intros H.
  apply orb_false_iff in H as [Ha H]. apply orb_false_iff in Ha as [Ha1 Ha2].
  unfold parse_line, parse_anywhere. rewrite Ha1, Ha2. cbn [mbind result_bind].
  destruct (_parser self).
  - unfold do_find_run_begin. rewrite H. reflexivity.
  - unfold do_parse_run_metadata. split_orb H.
    rewrite H, H0, H1, H2, H3, H4, H5. reflexivity.
  - unfold do_find_results_begin. rewrite H. reflexivity.
  - unfold do_find_results_header.
    destruct (bool_decide (strip line = "")); [reflexivity|].
    destruct (startswith line "WARNING: The file"); [reflexivity|].
    destruct (startswith line "Using Time Stamp"); [reflexivity|].
    rewrite H. reflexivity.
  - unfold do_parse_result. split_orb H.
    rewrite H, H0, H1, H2, H3, H4, H5. reflexivity.
  - unfold do_find_summary. rewrite H. reflexivity.
  - unfold do_parse_summary. rewrite H. reflexivity.
Qed.

(** A "Commencing" line whose timestamp [strptime] rejects raises. *)
Lemma commencing_malformed (self : IorOutput) (line : string) (next : option string) :
  _parser self = parse_result ->
  contains "stonewalling pairs accessed:" line = false ->
  startswith line "Commencing" = true ->
  strptime (strip (after_colon line)) "%a %b %d %H:%M:%S %Y" = None ->
  parse_line strptime self line next
  = Raise (ValueError "time data does not match format").
Proof.
  intros Hp Hc Hs Ht. unfold parse_line, parse_anywhere. rewrite Hc.
  destruct (startswith_head _ _ _ Hs) as [rest ->].
  rewrite startswith_other by discriminate. cbn [mbind result_bind].
  rewrite Hp. unfold do_parse_result.
  rewrite !startswith_other by discriminate. cbn [orb]. rewrite Hs.
  unfold do_commencing. rewrite item_last_split1. cbn [mbind result_bind].
  unfold timestamp. rewrite Ht. reflexivity.
Qed.

(** A stonewalling statistics line whose fifth token is missing or is no
    integer raises. *)
Lemma stonewalling_stats_malformed (self : IorOutput) (line : string)
    (next : option string) :
  _parser self = parse_result ->
  contains "stonewalling pairs accessed:" line = false ->
  startswith line "stonewalling pairs accessed " = true ->
  (split line !! 4%nat) ≫= py_int = None ->
  parse_line strptime self line next = Raise IndexError \/
  parse_line strptime self line next
  = Raise (ValueError "invalid literal for int() with base 10").
Proof.
  intros Hp Hc Hs Ht. unfold parse_line, parse_anywhere. rewrite Hc.
  destruct (startswith_head _ _ _ Hs) as [rest ->].
  rewrite startswith_other by discriminate. cbn [mbind result_bind].
  rewrite Hp. unfold do_parse_result.
  rewrite !startswith_other by discriminate. cbn [orb]. rewrite Hs.
  unfold do_stonewalling_stats, item.
  destruct (split _ !! 4%nat) as [a4|]; [|left; reflexivity].
  simpl in Ht. cbn [mbind result_bind]. unfold to_int. rewrite Ht.
  right. reflexivity.
Qed.

End Steps.

(** A run that reaches the results section and then reports a time that is
    no date. *)
Definition bad_commencing : list string :=
  [ "IOR-3.3.0: MPI Coordinated Test of Parallel I/O";
    "aggregate filesize  : 4 GiB";
    "Results:";
    "access    bw(MiB/s)  IOPS";
    "------    ---------  ----";
    "Commencing write performance test: not a date";
    "write     100.5      25" ].

(** C2, counterexample: parsing [bad_commencing] raises ValueError at the
    "Commencing" line; nothing is returned. *)
Lemma bad_commencing_raises :
  IorOutput_init CLocale.strptime bad_commencing false
  = Raise (ValueError "time data does not match format").
Proof. vm_compute. reflexivity. Qed.

(** C2, amended: a line that no rule of the current state recognises never
    raises, emits no warning and leaves the parser state as it is (in the
    metadata state an absent header is first created).  A recognised line
    with a malformed payload is fatal: a "Commencing" line whose timestamp
    does not parse raises ValueError, and a stonewalling statistics line
    whose fifth token is missing or is no integer raises IndexError or
    ValueError. *)
Theorem unrecognised_lines_are_harmless
    (strptime : string -> string -> option Z) (self : IorOutput) (line : string)
    (next : option string) :
  (recognised (_parser self) line = false ->
   exists self',
     parse_line strptime self line next = Ok (self', false) /\
     _parser self' = _parser self /\ warned self' = warned self /\
     results self' = results self /\ _this_record self' = _this_record self /\
     (is_Some (header self) -> self' = self)) /\
  (_parser self = parse_result ->
   contains "stonewalling pairs accessed:" line = false ->
   startswith line "Commencing" = true ->
   strptime (strip (after_colon line)) "%a %b %d %H:%M:%S %Y" = None ->
   parse_line strptime self line next
   = Raise (ValueError "time data does not match format")) /\
  (_parser self = parse_result ->
   contains "stonewalling pairs accessed:" line = false ->
   startswith line "stonewalling pairs accessed " = true ->
   (split line !! 4%nat) ≫= py_int = None ->
   parse_line strptime self line next = Raise IndexError \/
   parse_line strptime self line next
   = Raise (ValueError "invalid literal for int() with base 10")).
Proof.
  split; [|split].
  - intros H. rewrite (unrecognised_line strptime self line next H).
    eexists. split; [reflexivity|].
    destruct (_parser self) eqn:E; try (repeat split; auto; fail).
    unfold ensure_header.
    destruct (header self) as [h|] eqn:Eh; repeat split; simpl; auto.
    intros [x Hx]. discriminate.
  - apply commencing_malformed.
  - apply stonewalling_stats_malformed.
Qed.

Lemma unrecognised_lines_are_harmless_witness :
  exists self',
    parse_line CLocale.strptime new_output "hello world" None = Ok (self', false) /\
    _parser self' = find_run_begin /\ warned self' = [] /\
    results self' = None /\ _this_record self' = None /\
    (is_Some (header new_output) -> self' = new_output).
Proof.
  apply (proj1 (unrecognised_lines_are_harmless CLocale.strptime new_output
                  "hello world" None)).
  vm_compute. reflexivity.
Defined.

End IorFacts.

(** ** The parser: frames, records and the stonewall pairs *)

Module IorFrame.
Import PyStr Parse IorFacts.

Ltac inv_ok :=
  repeat match goal with
         | H : Ok _ = Ok _ |- _ => injection H as H; subst
         | H : (_, _) = (_, _) |- _ => injection H as ? ?; subst
         | H : Raise _ = Ok _ |- _ => discriminate H
         | H : (_ ≫= _) = Ok _ |- _ =>
             let x := fresh "x" in let Hx := fresh "Hx" in
             apply bind_Ok in H as (x & Hx & H)
         | H : (if ?b then _ else _) = Ok _ |- _ => destruct b eqn:?
         | H : match ?x with _ => _ end = Ok _ |- _ => destruct x eqn:?
         end.

Section Frame.
Variable strptime : string -> string -> option Z.

Lemma header_setitem_frame (key : string) (value : pyval) (self self' : IorOutput) :
  header_setitem key value self = Ok self' ->
  exists h, self' = set_header (Some h) self.
Proof.
  unfold header_setitem. destruct (header self); intros [= <-]; eauto.
Qed.

Lemma update_max_frame (self self' : IorOutput) (r : record) :
  update_max self r = Ok self' ->
  results self' = results self /\ stonewall_pairs self' = stonewall_pairs self /\
  _parser self' = _parser self /\ _this_record self' = _this_record self /\
  _result_columns self' = _result_columns self /\ header self' = header self /\
  warned self' = warned self.
Proof.
  unfold update_max. intros H. inv_ok; repeat case_match; repeat split; reflexivity.
Qed.


Ltac unfold_handlers :=
  unfold parse_line, parse_anywhere, do_find_run_begin, do_parse_run_metadata,
    do_find_results_begin, do_find_results_header, do_parse_result,
    do_result_row, do_commencing, do_stonewalling_stats, do_bytes_moved,
    do_find_summary, do_parse_summary, header_setitem, ensure_header in *.



Ltac frame_cases :=
  inv_ok;
  repeat match goal with
         | H : update_max _ _ = Ok _ |- _ =>
             apply update_max_frame in H; destruct_and?
         end;
  simpl in *.

(** A record is appended only by a result row handled in the results
    state, which also clears the record in progress. *)
Lemma results_frame (self self' : IorOutput) (line : string)
    (next : option string) (c : bool) :
  parse_line strptime self line next = Ok (self', c) ->
  results self' = results self \/
  (_parser self = parse_result /\ is_result_line line = true /\ c = false /\
   _this_record self' = None /\
   exists cols,
     _result_columns self = Some cols /\
     results self'
     = Some (default [] (results self)
             ++ [update_zip cols (coerce_value <$> split (strip line))
                   (default ∅ (_this_record self))])%list).
Proof.
  intros H. unfold_handlers. unfold is_result_line.
  frame_cases; try (left; repeat case_match; simplify_eq; reflexivity).
  right. repeat split; try assumption; try reflexivity.
  eexists. split; [reflexivity|]. congruence.
Qed.


(** In the results state a line that neither starts with "Max" nor is the
    run-end marker keeps the state and the columns, and consumes nothing
    more. *)
Lemma parse_result_stays (self self' : IorOutput) (line : string)
    (next : option string) (c : bool) :
  _parser self = parse_result ->
  startswith line "Max" = false ->
  startswith line "Finished            :" = false ->
  parse_line strptime self line next = Ok (self', c) ->
  _parser self' = parse_result /\ c = false /\
  _result_columns self' = _result_columns self.
Proof.
  intros Hp Hm Hf H. unfold parse_line, parse_anywhere in H.
  rewrite Hp, Hf in H. unfold_handlers. rewrite Hm in H.
  frame_cases; repeat case_match; simplify_eq; simpl; auto.
  repeat split; congruence.
Qed.


(** *** Rows and columns *)

Lemma update_zip_absent (columns : list string) (values : list pyval) (d : record)
    (name : string) :
  name ∉ take (length values) columns ->
  update_zip columns values d !! name = d !! name.
Proof.
  revert values d. induction columns as [|k columns IH]; intros [|v values] d H;
    simpl; try reflexivity.
  simpl in H. apply not_elem_of_cons in H as [Hne H].
  rewrite IH by exact H. apply lookup_insert_ne. congruence.
Qed.



(** *** A result row is never a per-rank line that parses *)

Lemma lstrip_with_snoc (drop : ascii -> bool) (l : list ascii) (c : ascii) :
  drop c = false -> lstrip_with drop (l ++ [c]) = (lstrip_with drop l ++ [c])%list.
Proof.
  intros H. induction l as [|a l IH]; simpl; [rewrite H; reflexivity|].
  destruct (drop a); [exact IH | reflexivity].
Qed.

Lemma rstrip_with_cons (drop : ascii -> bool) (c : ascii) (l : list ascii) :
  drop c = false -> rstrip_with drop (c :: l) = c :: rstrip_with drop l.
Proof.
  intros H. unfold rstrip_with. simpl rev.
  rewrite lstrip_with_snoc by exact H. apply rev_unit.
Qed.

Lemma py_int_letter (c : ascii) (t : list ascii) :
  isspace_literal c = false -> isdigit c = false ->
  c <> "-"%char -> c <> "+"%char ->
  py_int (str (c :: t)) = None.
Proof.
  intros Hs Hd Hm Hp. unfold py_int, chars, str.
  rewrite list_ascii_of_string_of_list_ascii. unfold strip_literal, strip_with.
  simpl lstrip_with. rewrite Hs. rewrite rstrip_with_cons by exact Hs.
  unfold split_sign. rewrite !bool_decide_eq_false_2 by assumption.
  unfold digitpart. simpl. rewrite Hd, andb_false_r. reflexivity.
Qed.

Lemma split_chars_head (sep c : ascii) (l : list ascii) :
  c <> sep -> exists t ts, split_chars sep (c :: l) = (c :: t) :: ts.
Proof.
  intros H. simpl. rewrite bool_decide_eq_false_2 by exact H.
  destruct (split_chars sep l); eauto.
Qed.

Lemma result_line_head (line : string) :
  is_result_line line = true ->
  exists c rest, line = String c rest /\ (c = "r"%char \/ c = "w"%char).
Proof.
  unfold is_result_line. intros H.
  apply orb_true_iff in H as [H|H]; [apply orb_true_iff in H as [H|H]|];
    apply startswith_head in H as [rest ->]; eauto.
Qed.

Lemma result_line_anywhere (self : IorOutput) (line : string) :
  is_result_line line = true ->
  (exists e, parse_anywhere strptime self line = Raise e) \/
  parse_anywhere strptime self line = Ok (self, false).
Proof.
  intros H. destruct (result_line_head line H) as (c & rest & -> & Hc).
  unfold parse_anywhere.
  destruct (contains "stonewalling pairs accessed:" (String c rest)) eqn:E.
  - left. unfold split_on, chars. simpl list_ascii_of_string.
    destruct (split_chars_head ":" c (list_ascii_of_string rest)) as (t & ts & ->).
    { destruct Hc as [-> | ->]; discriminate. }
    change (item (str <$> (c :: t) :: ts) 0) with (Ok (str (c :: t))).
    cbn [mbind result_bind]. unfold to_int.
    rewrite py_int_letter by (destruct Hc as [-> | ->]; (reflexivity || discriminate)).
    cbn [mbind result_bind]. eauto.
  - rewrite startswith_other by (destruct Hc as [-> | ->]; discriminate).
    right. reflexivity.
Qed.

(** A result row handled in the results state appends one record. *)
Lemma result_row_step (self self' : IorOutput) (line : string)
    (next : option string) (c : bool) :
  _parser self = parse_result -> is_result_line line = true ->
  parse_line strptime self line next = Ok (self', c) ->
  exists cols,
    _result_columns self = Some cols /\
    results self'
    = Some (default [] (results self)
            ++ [update_zip cols (coerce_value <$> split (strip line))
                  (default ∅ (_this_record self))])%list.
Proof.
  intros Hp Hr H. pose proof H as H'. apply results_frame in H' as [Hsame|H'].
  - exfalso. unfold parse_line in H.
    destruct (result_line_anywhere self line Hr) as [[e He]|He]; rewrite He in H;
      [discriminate|].
    cbn [mbind result_bind] in H. rewrite Hp in H.
    unfold do_parse_result in H.
    destruct (result_line_head line Hr) as (a & rest & -> & Ha).
    rewrite startswith_other in H by (destruct Ha as [-> | ->]; discriminate).
    unfold is_result_line in Hr. rewrite Hr in H. unfold do_result_row in H.
    frame_cases. rewrite H in Hsame.
    destruct (results self) as [l|]; simpl in Hsame.
    + injection Hsame as Hsame. apply (f_equal length) in Hsame.
      rewrite length_app in Hsame. simpl in Hsame. lia.
    + discriminate.
  - destruct H' as (_ & _ & _ & _ & Hcols). exact Hcols.
Qed.


(** *** Counting the records of a results section *)

(** A line that keeps the parser reading results: not empty, no "Max"
    line, not the run-end marker. *)
Definition stays (line : string) : Prop :=
  line <> "" /\ startswith line "Max" = false /\
  startswith line "Finished            :" = false.


(** *** The stonewall pair sequence *)

Definition is_rank_line (line : string) : bool :=
  contains "stonewalling pairs accessed:" line.











(** *** The claims about the records *)


Lemma normalize_frame (self self' : IorOutput) :
  normalize self = Ok self' ->
  header self' = header self /\ stonewall_pairs self' = stonewall_pairs self /\
  (forall h, header self = Some h ->
     results self' = fmap (M := list) (fun rec => h ∪ rec) <$> results self).
Proof.
  unfold normalize. intros H.
  destruct (results self) as [[|r rs]|] eqn:Er.
  - injection H as <-. rewrite Er. auto.
  - destruct (header self) as [h|] eqn:Eh; [|discriminate].
    injection H as <-. simpl. rewrite Eh. split; [reflexivity|].
    split; [reflexivity|]. intros h' [= <-]. reflexivity.
  - injection H as <-. rewrite Er. auto.
Qed.

(** C3, amended: with normalize mode requested, the records of the whole
    stream, whichever run produced them, all receive the fields of the one
    header the parser holds when the stream ends; a header field overrides
    the record's own value for the same key.  Each run-start marker met in
    the initial state replaces the header by an empty one, so that header is
    the last run's. *)
Theorem normalize_copies_final_header :
  (forall (content : list string) (self : IorOutput),
     IorOutput_init strptime content true = Ok self ->
     exists raw,
       IorOutput_init strptime content false = Ok raw /\
       header self = header raw /\
       (forall h, header raw = Some h ->
          results self = fmap (M := list) (fun rec => h ∪ rec) <$> results raw) /\
       (forall h recs rec key value,
          header self = Some h -> results self = Some recs -> rec ∈ recs ->
          h !! key = Some value -> rec !! key = Some value)) /\
  (forall (self : IorOutput) (line : string) (next : option string),
     _parser self = find_run_begin -> anywhere line = false ->
     startswith line "IOR" = true ->
     contains "MPI Coordinated Test of Parallel I/O" line = true ->
     parse_line strptime self line next
     = Ok (set_parser parse_run_metadata (set_header (Some ∅) self), false)).
Proof.
  split.
  - intros content self. unfold IorOutput_init.
    destruct (load_output strptime new_output content) as [raw|e];
      cbn [mbind result_bind]; [|discriminate].
    intros H. exists raw. split; [reflexivity|].
    destruct (normalize_frame raw self H) as (Hh & _ & Hres).
    split; [exact Hh|]. split; [exact Hres|].
    intros h recs rec key value Hhs Hrecs Hin Hk.
    rewrite Hh in Hhs. rewrite (Hres h Hhs) in Hrecs.
    destruct (results raw) as [raws|]; [|discriminate].
    injection Hrecs as <-. apply list_elem_of_fmap in Hin as [r [-> _]].
    apply lookup_union_Some_l. exact Hk.
  - intros self line next Hp Ha Hs Hc. unfold anywhere in Ha.
    apply orb_false_iff in Ha as [Ha1 Ha2].
    unfold parse_line, parse_anywhere. rewrite Ha1, Ha2.
    cbn [mbind result_bind]. rewrite Hp. unfold do_find_run_begin.
    rewrite Hs, Hc. reflexivity.
Qed.


End Frame.

(** Two runs in one stream, on 1 and on 2 nodes. *)
Definition run_on (nodes rank : string) (row : string) : list string :=
  [ "IOR-3.3.0: MPI Coordinated Test of Parallel I/O";
    "nodes               : " ++ nodes;
    "aggregate filesize  : 4 GiB";
    "Results:";
    "access    bw(MiB/s)  IOPS";
    "------    ---------  ----";
    row;
    rank ++ ": stonewalling pairs accessed: 17";
    "Finished            : Tue Jul 20 13:00:31 2021" ].

Definition two_runs : list string :=
  (run_on "1" "3" "write     100.5      25"
   ++ run_on "2" "3" "read      50.5       12")%list.

Definition field_of_records (key : string) (o : IorOutput) : list (option pyval) :=
  (fun rec : record => rec !! key) <$> default [] (results o).

(** C3, counterexample: parsed alone, the first run's record carries
    nodes = 1; parsed in the stream of both runs with normalize requested, it
    carries nodes = 2, the value of the other run's header. *)
Lemma first_run_gets_second_header :
  field_of_records "nodes"
    <$> IorOutput_init CLocale.strptime (run_on "1" "3" "write     100.5      25") true
  = Ok [Some (VInt 1)] /\
  field_of_records "nodes" <$> IorOutput_init CLocale.strptime two_runs true
  = Ok [Some (VInt 2); Some (VInt 2)].
Proof. split; vm_compute; reflexivity. Qed.

Lemma normalize_copies_final_header_witness :
  exists self raw,
    IorOutput_init CLocale.strptime two_runs true = Ok self /\
    IorOutput_init CLocale.strptime two_runs false = Ok raw /\
    header self = header raw.
Proof.
  destruct (IorOutput_init CLocale.strptime two_runs true) as [self|e] eqn:E;
    [|vm_compute in E; discriminate].
  destruct (proj1 (normalize_copies_final_header CLocale.strptime) two_runs self E)
    as (raw & Hraw & Hh & _).
  exists self, raw. auto.
Defined.

(** A result row with fewer tokens than the header has columns. *)
Definition short_row : list string :=
  [ "IOR-3.3.0: MPI Coordinated Test of Parallel I/O";
    "aggregate filesize  : 4 GiB";
    "Results:";
    "access    bw(MiB/s)  IOPS";
    "------    ---------  ----";
    "read      5.5" ].


Definition reading_results : IorOutput :=
  set_parser parse_result
    (set_result_columns (Some ["access"; "bw(mib/s)"; "iops"]) new_output).

Definition two_rows : list string :=
  [ "write     100.5      25";
    "Commencing read performance test: Tue Jul 20 12:59:32 2021";
    "read      50.5       12" ].





(** X1: in the results state, a "Commencing" line with a well-formed
    timestamp that meets a record in progress reads the record's "access"
    with [.get('access').lower()]; unless that entry is a text the call
    raises AttributeError, before the guard [if expected_access] that
    follows it is reached. *)
Theorem commencing_needs_access (strptime : string -> string -> option Z)
    (self : IorOutput) (line : string) (next : option string) (rec : record)
    (t : Z) (word : string) :
  _parser self = parse_result ->
  contains "stonewalling pairs accessed:" line = false ->
  startswith line "Commencing" = true ->
  strptime (strip (after_colon line)) "%a %b %d %H:%M:%S %Y" = Some t ->
  split (strip line) !! 1%nat = Some word ->
  _this_record self = Some rec ->
  (forall a, rec !! "access" <> Some (VStr a)) ->
  parse_line strptime self line next = Raise AttributeError.
Proof.
  intros Hp Hc Hs Ht Hw Hrec Hacc. unfold parse_line, parse_anywhere. rewrite Hc.
  destruct (startswith_head _ _ _ Hs) as [rest ->].
  rewrite startswith_other by discriminate. cbn [mbind result_bind].
  rewrite Hp. unfold do_parse_result.
  rewrite !startswith_other by discriminate. cbn [orb]. rewrite Hs.
  unfold do_commencing. rewrite item_last_split1. cbn [mbind result_bind].
  unfold timestamp. rewrite Ht. cbn [mbind result_bind]. rewrite Hrec.
  unfold item. rewrite Hw. cbn [mbind result_bind].
  destruct (rec !! "access") as [[| | |a]|] eqn:E; try reflexivity.
  exfalso. exact (Hacc a eq_refl).
Qed.

(** Two "Commencing" lines with no result row between them. *)
Definition commencing_twice : list string :=
  [ "IOR-3.3.0: MPI Coordinated Test of Parallel I/O";
    "aggregate filesize  : 4 GiB";
    "Results:";
    "access    bw(MiB/s)  IOPS";
    "------    ---------  ----";
    "Commencing write performance test: Tue Jul 20 12:59:32 2021";
    "Commencing write performance test: Tue Jul 20 12:59:33 2021" ].

Lemma commencing_twice_raises :
  IorOutput_init CLocale.strptime commencing_twice false = Raise AttributeError.
Proof. vm_compute. reflexivity. Qed.

Lemma commencing_needs_access_witness :
  parse_line CLocale.strptime
    (set_this_record (Some {[ "timestamp" := VFloat (Finite 1626785972) ]})
       reading_results)
    "Commencing write performance test: Tue Jul 20 12:59:33 2021" None
  = Raise AttributeError.
Proof.
  apply (commencing_needs_access CLocale.strptime _ _ None
           {[ "timestamp" := VFloat (Finite 1626785972) ]} 1626785973 "write");
    try (vm_compute; reflexivity).
  intros a. vm_compute. discriminate.
Defined.

End IorFrame.

(** ** The parser: whole streams *)

Module IorStream.
Import PyStr Parse IorFacts IorFrame.

(** The "bw(mib/s)" entries of the records whose "access" is the given
    text, in stream order. *)
Definition has_access (access : string) (rec : record) : bool :=
  match rec !! "access" with
  | Some (VStr a) => bool_decide (a = access)
  | _ => false
  end.

Definition bandwidths (access : string) (recs : list record) : list pyval :=
  omap (fun rec : record => rec !! "bw(mib/s)")
       (filter (fun rec => has_access access rec = true) recs).

Section Stream.
Variable strptime : string -> string -> option Z.

(** A property that every line keeps is kept by the whole stream. *)
Lemma load_output_preserves (R : IorOutput -> IorOutput -> Prop) :
  (forall s, R s s) ->
  (forall a b c, R a b -> R b c -> R a c) ->
  (forall self line next self' c,
     parse_line strptime self line next = Ok (self', c) -> R self self') ->
  forall content self self',
    load_output strptime self content = Ok self' -> R self self'.
Proof.
  intros Hrefl Htrans Hstep content.
  assert (H : forall n content self self', (length content <= n)%nat ->
            load_output strptime self content = Ok self' -> R self self').
  { clear content. induction n as [|n IH]; intros [|line rest] self self' Hlen H;
      simpl in Hlen; try lia; simpl in H;
      try (injection H as <-; apply Hrefl).
    destruct (bool_decide (line = "")); [injection H as <-; apply Hrefl|].
    apply bind_Ok in H as ([self1 c] & Hs & H).
    apply Hstep in Hs. apply (Htrans _ self1); [exact Hs|].
    destruct c.
    - destruct rest as [|x rest']; [injection H as <-; apply Hrefl|].
      apply IH in H; [exact H | simpl in Hlen; lia].
    - apply IH in H; [exact H | lia]. }
  intros self self'. apply (H (length content)). lia.
Qed.

(** One line either leaves the records and both maxima alone, or is a
    result row: the record is built, the maxima are updated with it, and it
    is appended. *)
Lemma row_step (self self' : IorOutput) (line : string) (next : option string)
    (c : bool) :
  parse_line strptime self line next = Ok (self', c) ->
  (results self' = results self /\ max_read_mibs self' = max_read_mibs self /\
   max_write_mibs self' = max_write_mibs self) \/
  exists rec self1,
    update_max self rec = Ok self1 /\
    results self' = Some (default [] (results self) ++ [rec])%list /\
    max_read_mibs self' = max_read_mibs self1 /\
    max_write_mibs self' = max_write_mibs self1.
Proof.
  intros H.
  unfold parse_line, parse_anywhere, do_find_run_begin, do_parse_run_metadata,
    do_find_results_begin, do_find_results_header, do_parse_result,
    do_result_row, do_commencing, do_stonewalling_stats, do_bytes_moved,
    do_find_summary, do_parse_summary, header_setitem, ensure_header in H.
  inv_ok; simpl;
    try (left; repeat case_match; simplify_eq; repeat split; reflexivity).
  right. eexists _, _. split; [eassumption|]. simpl.
  match goal with
  | H : update_max _ _ = Ok _ |- _ => apply update_max_frame in H as [-> _]
  end. auto.
Qed.

Lemma update_max_summaries (self self' : IorOutput) (r : record) :
  update_max self r = Ok self' -> summaries self' = summaries self.
Proof.
  unfold update_max. intros H. inv_ok; repeat case_match; reflexivity.
Qed.

Lemma summaries_step (self self' : IorOutput) (line : string) (next : option string)
    (c : bool) :
  parse_line strptime self line next = Ok (self', c) ->
  summaries self' = summaries self \/
  exists rec, summaries self' = Some (default [] (summaries self) ++ [rec])%list.
Proof.
  intros H.
  unfold parse_line, parse_anywhere, do_find_run_begin, do_parse_run_metadata,
    do_find_results_begin, do_find_results_header, do_parse_result,
    do_result_row, do_commencing, do_stonewalling_stats, do_bytes_moved,
    do_find_summary, do_parse_summary, header_setitem, ensure_header in H.
  inv_ok;
    repeat match goal with
           | H : update_max _ _ = Ok _ |- _ => apply update_max_summaries in H
           end; simpl in *;
    try (left; repeat case_match; simplify_eq; simpl; congruence).
  all: right; eexists; reflexivity.
Qed.

(** *** The order [<] on values *)

Lemma string_compare_refl (s : string) : String.compare s s = Eq.
Proof.
  induction s as [|c s IH]; simpl; [reflexivity|].
  unfold Ascii.compare. rewrite N.compare_refl. exact IH.
Qed.

Lemma string_compare_trans (a b c : string) :
  String.compare a b = Lt -> String.compare b c = Lt -> String.compare a c = Lt.
Proof.
  revert b c. induction a as [|x a IH]; intros [|y b] [|z c]; simpl;
    try discriminate; try reflexivity.
  unfold Ascii.compare.
  destruct (N.compare_spec (N_of_ascii x) (N_of_ascii y)) as [Hxy|Hxy|Hxy];
    destruct (N.compare_spec (N_of_ascii y) (N_of_ascii z)) as [Hyz|Hyz|Hyz];
    try discriminate; intros H1 H2.
  - rewrite Hxy, Hyz, N.compare_refl. eapply IH; eassumption.
  - rewrite Hxy. apply N.compare_lt_iff in Hyz. rewrite Hyz. reflexivity.
  - rewrite <- Hyz. apply N.compare_lt_iff in Hxy. rewrite Hxy. reflexivity.
  - assert (Hxz : (N_of_ascii x < N_of_ascii z)%N) by lia.
    apply N.compare_lt_iff in Hxz. rewrite Hxz. reflexivity.
Qed.

Lemma float_lt_irrefl (x : pyfloat) : float_lt x x = false.
Proof.
  destruct x as [q|[]|]; simpl; try reflexivity.
  apply Qltb_ge. apply Qle_refl.
Qed.

Lemma float_lt_chain (m n b : pyfloat) :
  float_lt m b = false -> float_lt m n = true -> float_lt n b = false.
Proof.
  destruct m as [m|[]|], n as [n|[]|], b as [b|[]|]; simpl;
    try discriminate; try reflexivity.
  rewrite !Qltb_ge, Qltb_lt. intros H1 H2. lra.
Qed.

(** The number a value denotes, when it is one. *)
Definition number (v : pyval) : option pyfloat :=
  match v with
  | VInt n => Some (Finite (inject_Z n))
  | VFloat x => Some x
  | _ => None
  end.

Lemma Zltb_Qltb (x y : Z) : (x <? y)%Z = Qltb (inject_Z x) (inject_Z y).
Proof.
  destruct (x <? y)%Z eqn:E; symmetry.
  - apply Qltb_lt. rewrite <- Zlt_Qlt. lia.
  - apply Qltb_ge. rewrite <- Zle_Qle. lia.
Qed.

Lemma py_lt_numbers (a b : pyval) (x y : pyfloat) :
  number a = Some x -> number b = Some y -> py_lt a b = Ok (float_lt x y).
Proof.
  destruct a, b; simpl; intros [= <-] [= <-]; try reflexivity.
  rewrite Zltb_Qltb. reflexivity.
Qed.

Lemma py_lt_Ok (a b : pyval) (r : bool) :
  py_lt a b = Ok r ->
  (exists x y, number a = Some x /\ number b = Some y /\ r = float_lt x y) \/
  (exists s t, a = VStr s /\ b = VStr t /\ r = String.ltb s t).
Proof.
  destruct a, b; simpl; intros [= <-]; try (right; eauto; fail);
    left; eexists _, _; repeat split; try reflexivity.
  apply Zltb_Qltb.
Qed.

Lemma py_lt_irrefl (v : pyval) : v <> VNone -> py_lt v v = Ok false.
Proof.
  destruct v as [|n|x|s]; simpl; intros H; [contradiction| | |].
  - rewrite Z.ltb_irrefl. reflexivity.
  - rewrite float_lt_irrefl. reflexivity.
  - unfold String.ltb. rewrite string_compare_refl. reflexivity.
Qed.

(** If the maximum is not below [b] and is below [n], then [n] is not below
    [b] either. *)
Lemma py_lt_chain (m n b : pyval) :
  py_lt m b = Ok false -> py_lt m n = Ok true -> py_lt n b = Ok false.
Proof.
  intros H1 H2.
  apply py_lt_Ok in H1 as [(x & y & Hx & Hy & H1)|(s & t & Hs & Ht & H1)];
    apply py_lt_Ok in H2 as [(x' & z & Hx' & Hz & H2)|(s' & u & Hs' & Hu & H2)].
  - rewrite Hx in Hx'. injection Hx' as <-.
    rewrite (py_lt_numbers _ _ _ _ Hz Hy). f_equal.
    eapply float_lt_chain; eauto.
  - subst m. discriminate.
  - subst m. discriminate.
  - subst m n b. injection Hs' as <-. simpl. f_equal. unfold String.ltb in *.
    destruct (String.compare u t) eqn:E; try reflexivity.
    destruct (String.compare s u) eqn:E2; try discriminate.
    rewrite (string_compare_trans _ _ _ E2 E) in H1. discriminate.
Qed.

(** *** The running maxima *)

(** [mx] is the running maximum of the bandwidths of the records with the
    given access: it is one of them, none of them (None apart) is above it,
    and it is absent only when there is none. *)
Definition running_max (access : string) (mx : option pyval) (recs : list record)
    : Prop :=
  (forall bw, bw ∈ bandwidths access recs -> bw <> VNone ->
     exists m, mx = Some m /\ py_lt m bw = Ok false) /\
  (forall m, mx = Some m -> m ∈ bandwidths access recs) /\
  (mx = None -> bandwidths access recs = []).

Lemma bandwidths_snoc (access : string) (recs : list record) (rec : record) :
  bandwidths access (recs ++ [rec])
  = (bandwidths access recs
     ++ (if has_access access rec then option_list (rec !! "bw(mib/s)") else []))%list.
Proof.
  unfold bandwidths. rewrite filter_app, omap_app. f_equal.
  rewrite filter_cons, filter_nil.
  destruct (has_access access rec); simpl; [|reflexivity].
  destruct (rec !! "bw(mib/s)"); reflexivity.
Qed.

Lemma running_max_skip (access : string) (mx : option pyval) (recs : list record)
    (rec : record) :
  (has_access access rec = false \/ rec !! "bw(mib/s)" = None) ->
  running_max access mx recs -> running_max access mx (recs ++ [rec]).
Proof.
  intros H. unfold running_max. rewrite bandwidths_snoc.
  destruct H as [-> | ->]; [|destruct (has_access access rec)];
    simpl; rewrite app_nil_r; auto.
Qed.

Lemma running_max_push (access : string) (mx : option pyval) (recs : list record)
    (rec : record) (bw : pyval) (mx' : option pyval) :
  has_access access rec = true -> rec !! "bw(mib/s)" = Some bw ->
  match mx with
  | None => mx' = Some bw
  | Some old => exists less, py_lt old bw = Ok less /\
                             mx' = if less : bool then Some bw else Some old
  end ->
  running_max access mx recs -> running_max access mx' (recs ++ [rec]).
Proof.
  intros Ha Hb Hmx (Hle & Hin & Hnone). unfold running_max.
  rewrite bandwidths_snoc, Ha, Hb. simpl.
  destruct mx as [old|].
  - destruct Hmx as (less & Hlt & ->). destruct less.
    + split; [|split; [|discriminate]].
      * intros b Hb' Hne. exists bw. split; [reflexivity|].
        apply elem_of_app in Hb' as [Hb'|Hb'].
        -- destruct (Hle b Hb' Hne) as (m & [= <-] & Hm).
           eapply py_lt_chain; eauto.
        -- apply list_elem_of_singleton in Hb' as ->. apply py_lt_irrefl. exact Hne.
      * intros m [= <-]. apply elem_of_app. right. apply list_elem_of_singleton.
        reflexivity.
    + split; [|split; [|discriminate]].
      * intros b Hb' Hne. exists old. split; [reflexivity|].
        apply elem_of_app in Hb' as [Hb'|Hb'].
        -- destruct (Hle b Hb' Hne) as (m & [= <-] & Hm). exact Hm.
        -- apply list_elem_of_singleton in Hb' as ->. exact Hlt.
      * intros m [= <-]. apply elem_of_app. left. apply Hin. reflexivity.
  - subst mx'. rewrite (Hnone eq_refl). simpl.
    split; [|split; [|discriminate]].
    + intros b Hb' Hne. apply list_elem_of_singleton in Hb' as ->.
      exists bw. split; [reflexivity|]. apply py_lt_irrefl. exact Hne.
    + intros m [= <-]. apply list_elem_of_singleton. reflexivity.
Qed.

Lemma update_max_running (self self1 : IorOutput) (rec : record) (recs : list record) :
  update_max self rec = Ok self1 ->
  running_max "read" (max_read_mibs self) recs ->
  running_max "write" (max_write_mibs self) recs ->
  running_max "read" (max_read_mibs self1) (recs ++ [rec]) /\
  running_max "write" (max_write_mibs self1) (recs ++ [rec]).
Proof.
  unfold update_max. intros H Hr Hw.
  destruct (rec !! "access") as [[| | |access]|] eqn:Ea;
    try (injection H as <-; split; apply running_max_skip; auto;
         left; unfold has_access; rewrite Ea; reflexivity).
  destruct (rec !! "bw(mib/s)") as [bw|] eqn:Eb;
    [|injection H as <-; split; apply running_max_skip; auto].
  assert (Hacc : forall a, has_access a rec = bool_decide (access = a)).
  { intros a. unfold has_access. rewrite Ea. reflexivity. }
  destruct (bool_decide (access = "read")) eqn:E1.
  - apply bool_decide_eq_true in E1 as ->.
    assert (Hwr : running_max "write" (max_write_mibs self) (recs ++ [rec])).
    { apply running_max_skip; [|exact Hw]. left. rewrite Hacc. reflexivity. }
    destruct (max_read_mibs self) as [old|] eqn:Em.
    + apply bind_Ok in H as (less & Hlt & H). injection H as <-.
      split.
      * eapply running_max_push; [rewrite Hacc; reflexivity | exact Eb | | exact Hr].
        simpl. exists less. split; [exact Hlt|]. destruct less; simpl; congruence.
      * destruct less; exact Hwr.
    + injection H as <-. split; [|exact Hwr].
      eapply running_max_push; [rewrite Hacc; reflexivity | exact Eb | | exact Hr].
      reflexivity.
  - destruct (bool_decide (access = "write")) eqn:E2.
    + apply bool_decide_eq_true in E2 as ->.
      assert (Hrd : running_max "read" (max_read_mibs self) (recs ++ [rec])).
      { apply running_max_skip; [|exact Hr]. left. rewrite Hacc. reflexivity. }
      destruct (max_write_mibs self) as [old|] eqn:Em.
      * apply bind_Ok in H as (less & Hlt & H). injection H as <-.
        split.
        -- destruct less; exact Hrd.
        -- eapply running_max_push; [rewrite Hacc; reflexivity | exact Eb | | exact Hw].
           simpl. exists less. split; [exact Hlt|]. destruct less; simpl; congruence.
      * injection H as <-. split; [exact Hrd|].
        eapply running_max_push; [rewrite Hacc; reflexivity | exact Eb | | exact Hw].
        reflexivity.
    + injection H as <-.
      split; apply running_max_skip; auto; left; rewrite Hacc; assumption.
Qed.

Definition maxima_hold (o : IorOutput) : Prop :=
  running_max "read" (max_read_mibs o) (default [] (results o)) /\
  running_max "write" (max_write_mibs o) (default [] (results o)).

Lemma maxima_step (self self' : IorOutput) (line : string) (next : option string)
    (c : bool) :
  parse_line strptime self line next = Ok (self', c) ->
  maxima_hold self -> maxima_hold self'.
Proof.
  intros H [Hr Hw]. unfold maxima_hold.
  apply row_step in H as [(-> & -> & ->)|(rec & self1 & Hu & -> & -> & ->)].
  - split; assumption.
  - simpl. eapply update_max_running; eassumption.
Qed.

Lemma maxima_stream (content : list string) (self self' : IorOutput) :
  load_output strptime self content = Ok self' ->
  maxima_hold self -> maxima_hold self'.
Proof.
  apply (load_output_preserves (fun a b => maxima_hold a -> maxima_hold b)).
  - auto.
  - auto.
  - intros a line next b c. apply maxima_step.
Qed.

(** *** Records are only ever appended *)

Lemma results_grow_step (self self' : IorOutput) (line : string)
    (next : option string) (c : bool) :
  parse_line strptime self line next = Ok (self', c) ->
  default [] (results self) `prefix_of` default [] (results self') /\
  default [] (summaries self) `prefix_of` default [] (summaries self') /\
  (is_Some (results self) -> is_Some (results self')) /\
  (is_Some (summaries self) -> is_Some (summaries self')).
Proof.
  intros H. pose proof (summaries_step _ _ _ _ _ H) as Hs.
  apply row_step in H as [(-> & _)|(rec & self1 & _ & -> & _)];
    destruct Hs as [-> | (srec & ->)]; simpl;
    repeat split; eauto; try reflexivity; try (eexists; reflexivity).
Qed.

(** *** The order of the markers of a run *)

Definition is_banner (line : string) : bool :=
  startswith line "IOR" && contains "MPI Coordinated Test of Parallel I/O" line.

(** The tests that move the parser from the initial state to a committed
    record, in the order it applies them. *)
Definition preamble : list (string -> bool) :=
  [ is_banner;
    (fun line => startswith (strip line) "aggregate filesize");
    (fun line => bool_decide (strip line = "Results:"));
    (fun line => startswith (strip line) "access");
    is_result_line ].

(** Whether the content has lines passing the tests, in this order (as a
    subsequence). *)
Fixpoint in_order (marks : list (string -> bool)) (content : list string) : bool :=
  match marks, content with
  | [], _ => true
  | _ :: _, [] => false
  | m :: marks', line :: rest =>
      if m line then in_order marks' rest else in_order marks rest
  end.

(** How many markers a state has behind it. *)
Definition level (p : parser) : nat :=
  match p with
  | find_run_begin => 0
  | parse_run_metadata => 1
  | find_results_begin => 2
  | find_results_header => 3
  | parse_result | find_summary | parse_summary => 4
  end.

Lemma in_order_tail (m : string -> bool) (marks : list (string -> bool))
    (content : list string) :
  in_order (m :: marks) content = true -> in_order marks content = true.
Proof.
  revert m marks. induction content as [|line rest IH]; intros m marks H;
    simpl in H; [discriminate|].
  destruct marks as [|m' marks]; [reflexivity|]. simpl.
  destruct (m line).
  - destruct (m' line); [eapply IH; exact H | exact H].
  - destruct (m' line); [eapply IH, IH; exact H | eapply IH; exact H].
Qed.

Lemma in_order_drop (k : nat) (marks : list (string -> bool)) (content : list string) :
  in_order marks content = true -> in_order (drop k marks) content = true.
Proof.
  revert marks. induction k as [|k IH]; intros marks H; [exact H|].
  destruct marks as [|m marks]; [exact H|]. simpl.
  apply IH. eapply in_order_tail. exact H.
Qed.

Lemma in_order_cons (marks : list (string -> bool)) (line : string)
    (content : list string) :
  in_order marks content = true -> in_order marks (line :: content) = true.
Proof.
  intros H. destruct marks as [|m marks]; [reflexivity|]. simpl.
  destruct (m line); [eapply in_order_tail; exact H | exact H].
Qed.

Lemma in_order_later (j k : nat) (content : list string) :
  (j <= k)%nat -> in_order (drop j preamble) content = true ->
  in_order (drop k preamble) content = true.
Proof.
  intros Hle H. replace k with (j + (k - j))%nat by lia.
  rewrite <- drop_drop. apply in_order_drop. exact H.
Qed.

(** A line moves the parser at most one marker ahead, and only when it
    passes the test of that marker. *)
Lemma level_step (self self' : IorOutput) (line : string) (next : option string)
    (c : bool) :
  parse_line strptime self line next = Ok (self', c) ->
  (level (_parser self') <= level (_parser self))%nat \/
  exists m, preamble !! level (_parser self) = Some m /\ m line = true /\
            level (_parser self') = S (level (_parser self)).
Proof.
  intros H.
  unfold parse_line, parse_anywhere, do_find_run_begin, do_parse_run_metadata,
    do_find_results_begin, do_find_results_header, do_parse_result,
    do_result_row, do_commencing, do_stonewalling_stats, do_bytes_moved,
    do_find_summary, do_parse_summary, header_setitem, ensure_header in H.
  inv_ok;
    repeat match goal with
           | H : update_max _ _ = Ok _ |- _ =>
               apply update_max_frame in H; destruct_and?
           end; simpl in *;
    repeat case_match; simplify_eq; simpl in *;
    repeat match goal with
           | H : _parser _ = _ |- _ => rewrite H in *
           end; simpl;
    try (left; lia);
    right; eexists; (split; [reflexivity|]); split; try reflexivity;
    unfold is_banner; simpl; try assumption.
Qed.

Lemma records_need_markers (n : nat) :
  forall (content : list string) (self self' : IorOutput),
    (length content <= n)%nat ->
    results self = None ->
    load_output strptime self content = Ok self' ->
    is_Some (results self') ->
    in_order (drop (level (_parser self)) preamble) content = true.
Proof.
  induction n as [|n IH]; intros [|line rest] self self' Hlen Hnone H Hsome;
    simpl in Hlen; try lia; simpl in H;
    try (injection H as <-; rewrite Hnone in Hsome; destruct Hsome; discriminate).
  destruct (bool_decide (line = ""));
    [injection H as <-; rewrite Hnone in Hsome; destruct Hsome; discriminate|].
  apply bind_Ok in H as ([self1 c] & Hstep & H).
  pose proof (results_frame _ _ _ _ _ _ Hstep) as [Hsame|(Hp & Hr & _)].
  - assert (Hrest : exists tl, (length tl <= n)%nat /\
              load_output strptime self1 tl = Ok self' /\
              (forall marks, in_order marks tl = true -> in_order marks rest = true)).
    { destruct c.
      - destruct rest as [|x rest'].
        + exists []. split; [simpl; lia|]. split; [exact H|]. auto.
        + exists rest'. split; [simpl in Hlen; lia|]. split; [exact H|].
          intros marks. apply in_order_cons.
      - exists rest. split; [lia|]. split; [exact H|]. auto. }
    destruct Hrest as (tl & Hl & Htl & Hsub).
    assert (Hih : in_order (drop (level (_parser self1)) preamble) rest = true).
    { apply Hsub. eapply IH; eauto. congruence. }
    destruct (level_step _ _ _ _ _ Hstep) as [Hle|(m & Hm & Hline & Hup)].
    + apply in_order_cons. eapply in_order_later; eauto.
    + rewrite (drop_S _ _ _ Hm). cbn [in_order]. rewrite Hline. rewrite <- Hup. exact Hih.
  - rewrite Hp. simpl. rewrite Hr. destruct rest; reflexivity.
Qed.

(** *** The summary state *)

Definition is_summary_line (line : string) : bool :=
  startswith line "write" || startswith line "read".

Lemma summary_line_is_result_line (line : string) :
  is_summary_line line = true -> is_result_line line = true.
Proof.
  unfold is_summary_line, is_result_line. intros H.
  apply orb_true_iff in H as [-> | ->]; simpl; [|reflexivity].
  destruct (startswith line "read"); reflexivity.
Qed.

Lemma summary_step (self self' : IorOutput) (line : string) (next : option string)
    (c : bool) :
  _parser self = parse_summary ->
  startswith line "Finished            :" = false ->
  parse_line strptime self line next = Ok (self', c) ->
  _parser self' = parse_summary /\ c = false /\
  results self' = results self /\ header self' = header self /\
  _this_record self' = _this_record self /\
  length (default [] (summaries self'))
  = (length (default [] (summaries self))
     + if is_summary_line line then 1 else 0)%nat.
Proof.
  intros Hp Hf H. unfold parse_line in H.
  destruct (is_summary_line line) eqn:Hs.
  - destruct (result_line_anywhere strptime self line
                (summary_line_is_result_line line Hs)) as [[e He]|He];
      rewrite He in H; [discriminate|].
    cbn [mbind result_bind] in H. rewrite Hp in H. unfold do_parse_summary in H.
    unfold is_summary_line in Hs. rewrite Hs in H.
    destruct (_summary_columns self); cbn [mbind result_bind] in H; [|discriminate].
    injection H as <- <-. simpl. repeat split; try assumption.
    rewrite length_app. simpl. reflexivity.
  - unfold parse_anywhere in H. rewrite Hf in H.
    unfold is_summary_line in Hs.
    destruct (contains "stonewalling pairs accessed:" line).
    + inv_ok. simpl. repeat split; try assumption. lia.
    + cbn [mbind result_bind] in H. rewrite Hp in H. unfold do_parse_summary in H.
      rewrite Hs in H. cbn [mbind result_bind] in H. injection H as <- <-.
      repeat split; try assumption. lia.
Qed.

Lemma summary_stream (body : list string) (self self' : IorOutput) :
  _parser self = parse_summary ->
  Forall (fun line => line <> "" /\ startswith line "Finished            :" = false)
         body ->
  load_output strptime self body = Ok self' ->
  _parser self' = parse_summary /\ results self' = results self /\
  header self' = header self /\ _this_record self' = _this_record self /\
  length (default [] (summaries self'))
  = (length (default [] (summaries self))
     + length (filter (fun line => is_summary_line line = true) body))%nat.
Proof.
  revert self. induction body as [|line rest IH]; intros self Hp Hall H; simpl in H.
  - injection H as <-. repeat split; try assumption. simpl. lia.
  - apply Forall_cons in Hall as [[Hne Hf] Hall].
    rewrite bool_decide_eq_false_2 in H by exact Hne.
    apply bind_Ok in H as ([self1 c] & Hstep & H).
    destruct (summary_step _ _ _ _ _ Hp Hf Hstep) as (Hp1 & -> & Hr & Hh & Ht & Hlen).
    destruct (IH self1 Hp1 Hall H) as (Hp' & Hr' & Hh' & Ht' & Hlen').
    repeat split; try congruence.
    rewrite filter_cons.
    destruct (decide (is_summary_line line = true)) as [E|E].
    + rewrite E in Hlen. simpl. lia.
    + destruct (is_summary_line line); [contradiction|]. lia.
Qed.

(** *** The timestamp of a record *)

(** A line of the results section that neither starts nor commits a record
    and does not end the section. *)
Definition between_rows (line : string) : Prop :=
  stays line /\ startswith line "Commencing" = false /\ is_result_line line = false.

Lemma timestamp_kept (self self' : IorOutput) (line : string) (next : option string)
    (c : bool) (v : pyval) (rec : record) :
  _parser self = parse_result -> between_rows line ->
  _this_record self = Some rec -> rec !! "timestamp" = Some v ->
  parse_line strptime self line next = Ok (self', c) ->
  exists rec', _this_record self' = Some rec' /\ rec' !! "timestamp" = Some v.
Proof.
  intros Hp ((Hne & Hm & Hf) & Hc & Hr) Hrec Hv H.
  unfold is_result_line in Hr.
  unfold parse_line, parse_anywhere in H. rewrite Hf, Hp in H.
  unfold do_parse_result in H. rewrite Hm, Hr, Hc in H.
  unfold do_stonewalling_stats, do_bytes_moved in H. rewrite Hrec in H.
  inv_ok; simpl; eauto.
  - eexists. split; [reflexivity|].
    rewrite !lookup_insert_ne by discriminate. exact Hv.
  - eexists. split; [reflexivity|].
    rewrite !lookup_insert_ne by discriminate. exact Hv.
Qed.

Lemma timestamp_to_row (middle : list string) :
  forall (self self' : IorOutput) (row : string) (cols : list string)
         (rec : record) (v : pyval),
    _parser self = parse_result -> _result_columns self = Some cols ->
    Forall between_rows middle -> is_result_line row = true -> row <> "" ->
    _this_record self = Some rec -> rec !! "timestamp" = Some v ->
    "timestamp" ∉ cols ->
    load_output strptime self (middle ++ [row]) = Ok self' ->
    exists rec',
      results self' = Some (default [] (results self) ++ [rec'])%list /\
      rec' !! "timestamp" = Some v.
Proof.
  induction middle as [|line rest IH];
    intros self self' row cols rec v Hp Hcols Hall Hrow Hne Hrec Hv Hout H;
    simpl in H.
  - rewrite bool_decide_eq_false_2 in H by exact Hne.
    apply bind_Ok in H as ([self1 c] & Hstep & H).
    destruct (result_row_step strptime _ _ _ _ _ Hp Hrow Hstep) as (cols' & Hc' & Hres).
    assert (c = false) as ->.
    { apply results_frame in Hstep as [Hsame|(_ & _ & Hc & _)]; [|exact Hc].
      rewrite Hres in Hsame. exfalso.
      destruct (results self); simpl in Hsame; [|discriminate].
      injection Hsame as Hsame. apply (f_equal length) in Hsame.
      rewrite length_app in Hsame. simpl in Hsame. lia. }
    simpl in H. injection H as <-. rewrite Hcols in Hc'. injection Hc' as <-.
    eexists. split; [exact Hres|].
    rewrite update_zip_absent.
    + rewrite Hrec. exact Hv.
    + intros Hin. apply Hout. eapply subseteq_take. exact Hin.
  - apply Forall_cons in Hall as [Hline Hall].
    pose proof Hline as ((Hne' & Hm & Hf) & Hcomm & Hnr).
    rewrite bool_decide_eq_false_2 in H by exact Hne'.
    apply bind_Ok in H as ([self1 c] & Hstep & H).
    destruct (parse_result_stays strptime _ _ _ _ _ Hp Hm Hf Hstep) as (Hp1 & -> & Hc1).
    destruct (timestamp_kept _ _ _ _ _ _ _ Hp Hline Hrec Hv Hstep) as (rec1 & Hr1 & Hv1).
    assert (Hsame : results self1 = results self).
    { apply results_frame in Hstep as [Hsame|(_ & Hr' & _)]; [exact Hsame|congruence]. }
    rewrite <- Hsame. eapply IH; eauto. congruence.
Qed.
(** [self['max_read_mibs']] or [self['max_write_mibs']], by the access. *)
Definition running_maximum (access : string) (o : IorOutput) : option pyval :=
  if bool_decide (access = "read") then max_read_mibs o
  else if bool_decide (access = "write") then max_write_mibs o
  else None.

Lemma incomparable_row (self : IorOutput) (line : string) (next : option string)
    (cols : list string) (access : string) (old bw : pyval) :
  _parser self = parse_result -> is_result_line line = true ->
  is_rank_line line = false -> _result_columns self = Some cols ->
  running_maximum access self = Some old ->
  update_zip cols (coerce_value <$> split (strip line))
    (default ∅ (_this_record self)) !! "access" = Some (VStr access) ->
  update_zip cols (coerce_value <$> split (strip line))
    (default ∅ (_this_record self)) !! "bw(mib/s)" = Some bw ->
  py_lt old bw = Raise TypeError ->
  parse_line strptime self line next = Raise TypeError.
Proof.
  intros Hp Hr Hrank Hcols Hmax Ha Hb Hlt. unfold parse_line.
  destruct (result_line_anywhere strptime self line Hr) as [[e He]|He].
  - exfalso. unfold parse_anywhere, is_rank_line in *. rewrite Hrank in He.
    destruct (result_line_head line Hr) as (ch & rest & -> & Hc).
    rewrite startswith_other in He by (destruct Hc as [-> | ->]; discriminate).
    discriminate.
  - rewrite He. cbn [mbind result_bind]. rewrite Hp. unfold do_parse_result.
    destruct (result_line_head line Hr) as (ch & rest & -> & Hc).
    rewrite startswith_other by (destruct Hc as [-> | ->]; discriminate).
    unfold is_result_line in Hr. rewrite Hr.
    unfold do_result_row. rewrite Hcols. cbn [mbind result_bind].
    unfold update_max. rewrite Ha, Hb. unfold running_maximum in Hmax.
    destruct (bool_decide (access = "read")).
    + rewrite Hmax, Hlt. reflexivity.
    + destruct (bool_decide (access = "write")); [|discriminate].
      rewrite Hmax, Hlt. reflexivity.
Qed.

(** X2: the records and the summary records of an output are only ever
    appended to: whatever lines follow, in the same run or in a later one of
    the same stream, the records committed so far stay where they are,
    unchanged, and a key "results" or "summaries" that exists is never
    removed. *)
Theorem records_are_only_appended (content : list string) (self self' : IorOutput) :
  load_output strptime self content = Ok self' ->
  default [] (results self) `prefix_of` default [] (results self') /\
  default [] (summaries self) `prefix_of` default [] (summaries self') /\
  (is_Some (results self) -> is_Some (results self')) /\
  (is_Some (summaries self) -> is_Some (summaries self')).
Proof.
  apply (load_output_preserves (fun a b =>
    default [] (results a) `prefix_of` default [] (results b) /\
    default [] (summaries a) `prefix_of` default [] (summaries b) /\
    (is_Some (results a) -> is_Some (results b)) /\
    (is_Some (summaries a) -> is_Some (summaries b)))).
  - intros s. repeat split; auto.
  - intros a b c (H1 & H2 & H3 & H4) (H1' & H2' & H3' & H4').
    repeat split; auto; etrans; eauto.
  - intros a line next b c. apply results_grow_step.
Qed.

(** X3: after parsing a whole stream, [max_read_mibs] is the running maximum
    of the "bw(mib/s)" entries of all records whose access is "read", over
    every run of the stream: it is one of these entries, no entry (None
    apart) is above it, and it is absent exactly when there is no such
    entry; likewise [max_write_mibs] for "write". *)
Theorem bandwidth_maxima (content : list string) (self : IorOutput) :
  IorOutput_init strptime content false = Ok self ->
  forall access, access = "read" \/ access = "write" ->
    (forall bw, bw ∈ bandwidths access (default [] (results self)) -> bw <> VNone ->
       exists m, running_maximum access self = Some m /\ py_lt m bw = Ok false) /\
    (forall m, running_maximum access self = Some m ->
       m ∈ bandwidths access (default [] (results self))) /\
    (running_maximum access self = None ->
       bandwidths access (default [] (results self)) = []).
Proof.
  unfold IorOutput_init. intros H.
  destruct (load_output strptime new_output content) as [raw|e] eqn:E;
    cbn [mbind result_bind] in H; [|discriminate].
  injection H as <-.
  apply maxima_stream in E.
  - destruct E as [Hr Hw]. intros access [-> | ->]; assumption.
  - split; (split; [|split]); simpl; try discriminate; try reflexivity;
      intros bw Hbw; inversion Hbw.
Qed.

(** X4: a read or write row whose bandwidth cannot be compared with the
    running maximum of its access raises TypeError, which ends the parse.
    None compares with nothing, so after a row whose bandwidth is "-" or
    "NA" every later row of the same access with a bandwidth entry raises,
    and so does a "-" or "NA" bandwidth after a numeric one. *)
Theorem incomparable_bandwidth_raises :
  (forall (self : IorOutput) (line : string) (next : option string)
          (cols : list string) (access : string) (old bw : pyval),
     _parser self = parse_result -> is_result_line line = true ->
     is_rank_line line = false -> _result_columns self = Some cols ->
     running_maximum access self = Some old ->
     update_zip cols (coerce_value <$> split (strip line))
       (default ∅ (_this_record self)) !! "access" = Some (VStr access) ->
     update_zip cols (coerce_value <$> split (strip line))
       (default ∅ (_this_record self)) !! "bw(mib/s)" = Some bw ->
     py_lt old bw = Raise TypeError ->
     parse_line strptime self line next = Raise TypeError) /\
  (forall v, py_lt VNone v = Raise TypeError /\ py_lt v VNone = Raise TypeError) /\
  (forall v s, is_Some (number v) ->
     py_lt v (VStr s) = Raise TypeError /\ py_lt (VStr s) v = Raise TypeError).
Proof.
  split; [exact incomparable_row|]. split.
  - intros v. destruct v; split; reflexivity.
  - intros v s [x Hx]. destruct v; try discriminate; split; reflexivity.
Qed.

Lemma normalize_keeps_absent (self self' : IorOutput) :
  normalize self = Ok self' -> is_Some (results self') -> is_Some (results self).
Proof.
  unfold normalize. intros H.
  destruct (results self) as [[|r rs]|] eqn:E; eauto.
  injection H as <-. rewrite E. auto.
Qed.

(** X5: an output has a "results" key only if its stream holds, in this
    order, a line that starts a run ("IOR..." with "MPI Coordinated Test of
    Parallel I/O"), an "aggregate filesize" line, a "Results:" line, a header
    row starting with "access" and a row starting with read, write or
    remove.  A stream lacking one of them yields no record at all. *)
Theorem results_need_preamble (content : list string) (normalize_results : bool)
    (self : IorOutput) :
  IorOutput_init strptime content normalize_results = Ok self ->
  is_Some (results self) ->
  in_order preamble content = true.
Proof.
  unfold IorOutput_init. intros H Hsome.
  destruct (load_output strptime new_output content) as [raw|e] eqn:E;
    cbn [mbind result_bind] in H; [|discriminate].
  assert (Hraw : is_Some (results raw)).
  { destruct normalize_results.
    - eapply normalize_keeps_absent; eauto.
    - injection H as <-. exact Hsome. }
  apply (records_need_markers (length content)) in E; auto.
Qed.

(** X6: once the parser reads the summary table, nothing but a "Finished"
    line ends it.  Over any lines without one (and without an empty line)
    the state stays the summary state, the records and the header are
    untouched, and every line starting with write or read becomes one more
    summary record: the banner, the metadata and the result rows of a run
    that follows without a "Finished" line in between are not parsed as
    such. *)
Theorem summary_needs_finished (body : list string) (self self' : IorOutput) :
  _parser self = parse_summary ->
  Forall (fun line => line <> "" /\ startswith line "Finished            :" = false)
         body ->
  load_output strptime self body = Ok self' ->
  _parser self' = parse_summary /\ results self' = results self /\
  header self' = header self /\
  length (default [] (summaries self'))
  = (length (default [] (summaries self))
     + length (filter (fun line => is_summary_line line = true) body))%nat.
Proof.
  intros Hp Hall H.
  destruct (summary_stream body self self' Hp Hall H) as (H1 & H2 & H3 & _ & H5).
  auto.
Qed.

(** X7: the time of a "Commencing" line that opens a record is the
    "timestamp" of the record the next result row commits, whatever
    statistics lines come between them, provided no column is named
    "timestamp". *)
Theorem commencing_stamps_next_record (self self' : IorOutput) (line row : string)
    (middle : list string) (cols : list string) (t : Z) :
  _parser self = parse_result -> _this_record self = None ->
  _result_columns self = Some cols -> "timestamp" ∉ cols ->
  is_rank_line line = false -> startswith line "Commencing" = true ->
  strptime (strip (after_colon line)) "%a %b %d %H:%M:%S %Y" = Some t ->
  Forall between_rows middle -> is_result_line row = true ->
  load_output strptime self (line :: middle ++ [row]) = Ok self' ->
  exists rec,
    results self' = Some (default [] (results self) ++ [rec])%list /\
    rec !! "timestamp" = Some (VFloat (Finite (inject_Z t))).
Proof.
  intros Hp Hrec Hcols Hout Hrank Hc Ht Hall Hrow H.
  assert (Hne : line <> "").
  { intros ->. discriminate. }
  assert (Hrne : row <> "").
  { intros ->. discriminate. }
  cbn [load_output] in H. rewrite bool_decide_eq_false_2 in H by exact Hne.
  assert (Hstep : parse_line strptime self line (head (middle ++ [row]))
                  = Ok (set_this_record
                          (Some {[ "timestamp" := VFloat (Finite (inject_Z t)) ]})
                          self, false)).
  { unfold parse_line, parse_anywhere. unfold is_rank_line in Hrank. rewrite Hrank.
    destruct (startswith_head _ _ _ Hc) as [rest ->].
    rewrite startswith_other by discriminate. cbn [mbind result_bind].
    rewrite Hp. unfold do_parse_result.
    rewrite !startswith_other by discriminate. cbn [orb]. rewrite Hc.
    unfold do_commencing. rewrite item_last_split1. cbn [mbind result_bind].
    unfold timestamp. rewrite Ht. cbn [mbind result_bind]. rewrite Hrec.
    reflexivity. }
  rewrite Hstep in H. cbn [mbind result_bind] in H.
  eapply timestamp_to_row in H; eauto.
Qed.

End Stream.

Lemma records_are_only_appended_witness :
  exists self',
    load_output CLocale.strptime reading_results two_rows = Ok self' /\
    default [] (results reading_results) `prefix_of` default [] (results self').
Proof.
  destruct (load_output CLocale.strptime reading_results two_rows)
    as [self'|e] eqn:E; [|vm_compute in E; discriminate].
  exists self'. split; [reflexivity|].
  exact (proj1 (records_are_only_appended CLocale.strptime two_rows
                  reading_results self' E)).
Defined.

Lemma bandwidth_maxima_witness :
  exists self,
    IorOutput_init CLocale.strptime two_runs false = Ok self /\
    (running_maximum "write" self = None ->
     bandwidths "write" (default [] (results self)) = []).
Proof.
  destruct (IorOutput_init CLocale.strptime two_runs false) as [self|e] eqn:E;
    [|vm_compute in E; discriminate].
  exists self. split; [reflexivity|].
  exact (proj2 (proj2 (bandwidth_maxima CLocale.strptime two_runs self E "write"
                         (or_intror eq_refl)))).
Defined.

(** The results state after a read row whose bandwidth was "-". *)
Definition after_dash : IorOutput := set_max_read_mibs (Some VNone) reading_results.

Lemma incomparable_bandwidth_raises_witness :
  parse_line CLocale.strptime after_dash "read      5.5       12" None
  = Raise TypeError.
Proof.
  apply (proj1 (incomparable_bandwidth_raises CLocale.strptime) after_dash _ None
           ["access"; "bw(mib/s)"; "iops"] "read" VNone (VFloat (Finite (11 # 2))));
    vm_compute; reflexivity.
Defined.

Lemma results_need_preamble_witness :
  in_order preamble short_row = true.
Proof.
  destruct (IorOutput_init CLocale.strptime short_row false) as [self|e] eqn:E;
    [|vm_compute in E; discriminate].
  apply (results_need_preamble CLocale.strptime short_row false self E).
  vm_compute in E. injection E as <-. simpl. eauto.
Defined.

(** The summary state, and the start of a second run met in it. *)
Definition reading_summary : IorOutput :=
  set_parser parse_summary
    (set_summary_columns (Some ["operation"; "max(mib)"; "min(mib)"]) new_output).

Definition unfinished_run : list string :=
  [ "write     100.5      90.5";
    "IOR-3.3.0: MPI Coordinated Test of Parallel I/O";
    "read      50.5       12" ].

Lemma summary_needs_finished_witness :
  exists self',
    load_output CLocale.strptime reading_summary unfinished_run = Ok self' /\
    _parser self' = parse_summary /\ results self' = None /\
    length (default [] (summaries self')) = 2%nat.
Proof.
  destruct (load_output CLocale.strptime reading_summary unfinished_run)
    as [self'|e] eqn:E; [|vm_compute in E; discriminate].
  exists self'. split; [reflexivity|].
  destruct (summary_needs_finished CLocale.strptime unfinished_run reading_summary
              self' eq_refl
              ltac:(repeat constructor; (discriminate || reflexivity)) E)
    as (H1 & H2 & _ & H4).
  auto.
Defined.

Definition stamped_row : list string :=
  [ "stonewalling pairs accessed min: 10 max: 20 -- min data: 1.0 GiB mean data: 1.5 GiB time: 3.5s";
    "WARNING: Using actual aggregate bytes moved = 1024." ].

Lemma commencing_stamps_next_record_witness :
  exists self' rec,
    load_output CLocale.strptime reading_results
      ("Commencing write performance test: Tue Jul 20 12:59:31 2021"
       :: stamped_row ++ ["write     100.5      25"]) = Ok self' /\
    results self' = Some [rec] /\
    rec !! "timestamp" = Some (VFloat (Finite 1626785971)).
Proof.
  destruct (load_output CLocale.strptime reading_results
              ("Commencing write performance test: Tue Jul 20 12:59:31 2021"
               :: stamped_row ++ ["write     100.5      25"]))
    as [self'|e] eqn:E; [|vm_compute in E; discriminate].
  destruct (commencing_stamps_next_record CLocale.strptime reading_results self'
              "Commencing write performance test: Tue Jul 20 12:59:31 2021"
              "write     100.5      25" stamped_row
              ["access"; "bw(mib/s)"; "iops"] 1626785971
              eq_refl eq_refl eq_refl
              ltac:(intros H; repeat (apply elem_of_cons in H as [H|H];
                                      [discriminate|]); inversion H)
              eq_refl eq_refl ltac:(vm_compute; reflexivity)
              ltac:(repeat constructor; (discriminate || reflexivity))
              eq_refl E)
    as (rec & Hres & Hts).
  exists self', rec. auto.
Defined.

End IorStream.

(** ** Regular expressions *)

Module Re.
Import PyStr.

(** The patterns the sources compile, with the backtracking semantics of
    Python's [re]: alternatives are tried in order and repetition is greedy.
    The sources repeat character classes only. *)
Inductive regex : Type :=
| Lit (s : string)
| Cls (p : ascii -> bool)
| Many (min : nat) (p : ascii -> bool)
| Seq (r1 r2 : regex)
| Alt (r1 r2 : regex)
| Opt (r : regex)
| Group (n : nat) (r : regex)
| Bol.

(** A position in the subject: the offset, the text that is left and the
    groups matched so far (the latest first). *)
Record cursor : Type := mkCursor {
  pos : nat;
  rest : list ascii;
  groups : list (nat * string)
}.

Definition advance (k : nat) (s : cursor) : cursor :=
  mkCursor (pos s + k) (drop k (rest s)) (groups s).

(** The text between two cursors. *)
Definition consumed (s s' : cursor) : list ascii :=
  take (length (rest s) - length (rest s')) (rest s).

Definition set_group (n : nat) (text : list ascii) (s : cursor) : cursor :=
  mkCursor (pos s) (rest s) ((n, str text) :: groups s).

(** The length of the longest prefix made of characters of the class. *)
Fixpoint span (p : ascii -> bool) (l : list ascii) : nat :=
  match l with
  | c :: l' => if p c then S (span p l') else 0
  | [] => 0
  end.

Fixpoint is_prefix (t l : list ascii) : bool :=
  match t, l with
  | [], _ => true
  | a :: t', b :: l' => bool_decide (a = b) && is_prefix t' l'
  | _ :: _, [] => false
  end.

(** All the ways the pattern matches at the cursor, in the order the
    backtracking matcher tries them: the first is the match it reports. *)
Fixpoint run (r : regex) (s : cursor) : list cursor :=
  match r with
  | Lit t =>
      if is_prefix (chars t) (rest s) then [advance (length (chars t)) s] else []
  | Cls p =>
      match rest s with
      | c :: _ => if p c then [advance 1 s] else []
      | [] => []
      end
  | Many min p =>
      (fun k => advance k s) <$> rev (seq min (S (span p (rest s)) - min))
  | Seq r1 r2 => s1 ← run r1 s; run r2 s1
  | Alt r1 r2 => run r1 s ++ run r2 s
  | Opt r => run r s ++ [s]
  | Group n r => (fun s' => set_group n (consumed s s') s') <$> run r s
  | Bol => if (pos s =? 0)%nat then [s] else []
  end.

(** A match object: where the match starts and the cursor at its end. *)
Record found : Type := mkFound {
  start : nat;
  stop : cursor
}.

(** [m.group(n)]: None for a group that took no part in the match. *)
Definition group (m : found) (n : nat) : option string := assoc n (groups (stop m)).

(** [pattern.search(text)]: the first match at the leftmost position that
    has one. *)
Fixpoint search_from (r : regex) (p : nat) (l : list ascii) : option found :=
  match head (run r (mkCursor p l [])) with
  | Some s => Some (mkFound p s)
  | None =>
      match l with
      | _ :: l' => search_from r (S p) l'
      | [] => None
      end
  end.

Definition search (r : regex) (text : string) : option found :=
  search_from r 0 (chars text).

(** [\d], [\s], [\S], [\w] and [.] on the code points 0..255. *)
Definition digit : ascii -> bool := isdigit.
Definition space : ascii -> bool := isspace.
Definition nonspace (c : ascii) : bool := negb (isspace c).
Definition word (c : ascii) : bool :=
  let n := nat_of_ascii c in
  ((48 <=? n) && (n <=? 57) || (65 <=? n) && (n <=? 90) || (n =? 95)
   || (97 <=? n) && (n <=? 122) || (n =? 170) || (178 <=? n) && (n <=? 179)
   || (n =? 181) || (185 <=? n) && (n <=? 186) || (188 <=? n) && (n <=? 190)
   || (192 <=? n) && (n <=? 214) || (216 <=? n) && (n <=? 246)
   || (248 <=? n))%nat.
Definition any (c : ascii) : bool := negb (bool_decide (c = "010"%char)).
Definition one_of (set : string) (c : ascii) : bool := bool_decide (c ∈ chars set).
Definition none_of (set : string) (c : ascii) : bool := negb (one_of set c).

(** *** The first match of a pattern *)

Lemma chars_app (a b : string) : chars (a ++ b) = (chars a ++ chars b)%list.
Proof. induction a as [|c a IH]; simpl; [reflexivity|]. unfold chars in *. simpl. f_equal. exact IH. Qed.

Lemma str_chars (s : string) : str (chars s) = s.
Proof. apply string_of_list_ascii_of_string. Qed.

Lemma is_prefix_app (t l : list ascii) : is_prefix t (t ++ l) = true.
Proof.
  induction t as [|a t IH]; simpl; [reflexivity|].
  rewrite bool_decide_eq_true_2 by reflexivity. exact IH.
Qed.

Lemma span_app (p : ascii -> bool) (l1 l2 : list ascii) :
  Forall (fun c => p c = true) l1 -> span p l2 = 0%nat ->
  span p (l1 ++ l2) = length l1.
Proof.
  intros H H2. induction H as [|c l1 Hc _ IH]; simpl; [exact H2|].
  rewrite Hc, IH. reflexivity.
Qed.

Lemma head_seq (r1 r2 : regex) (s s1 s2 : cursor) :
  head (run r1 s) = Some s1 -> head (run r2 s1) = Some s2 ->
  head (run (Seq r1 r2) s) = Some s2.
Proof.
  simpl. destruct (run r1 s) as [|x l]; simpl; intros [= ->] H.
  rewrite head_app, H. reflexivity.
Qed.

Lemma head_group (n : nat) (r : regex) (s s1 : cursor) :
  head (run r s) = Some s1 ->
  head (run (Group n r) s) = Some (set_group n (consumed s s1) s1).
Proof.
  simpl. destruct (run r s) as [|x l]; simpl; intros [= ->]. reflexivity.
Qed.

Lemma head_many (min : nat) (p : ascii -> bool) (s : cursor) :
  (min <= span p (rest s))%nat ->
  head (run (Many min p) s) = Some (advance (span p (rest s)) s).
Proof.
  intros H. simpl.
  replace (S (span p (rest s)) - min)%nat with (S (span p (rest s) - min)) by lia.
  rewrite seq_S, rev_unit. simpl. do 2 f_equal. lia.
Qed.

Lemma head_lit (t : string) (s : cursor) (l : list ascii) :
  rest s = (chars t ++ l)%list ->
  head (run (Lit t) s) = Some (advance (length (chars t)) s).
Proof.
  intros H. simpl. rewrite H, is_prefix_app. reflexivity.
Qed.

Lemma run_lit_fail (t : string) (r : regex) (s : cursor) :
  is_prefix (chars t) (rest s) = false -> run (Seq (Lit t) r) s = [].
Proof. intros H. simpl. rewrite H. reflexivity. Qed.

(** A pattern that starts with a literal matches nowhere in a text that
    does not contain the literal. *)
Lemma search_from_absent (t : string) (r : regex) (l : list ascii) :
  forall p,
    (forall k, is_prefix (chars t) (drop k l) = false) ->
    search_from (Seq (Lit t) r) p l = None.
Proof.
  induction l as [|c l IH]; intros p H; cbn [search_from].
  - rewrite run_lit_fail; [reflexivity|]. exact (H 0%nat).
  - rewrite run_lit_fail; [|exact (H 0%nat)]. simpl.
    apply IH. intros k. exact (H (S k)).
Qed.

(** The search skips the positions at which the leading literal does not
    occur. *)
Lemma search_from_skip (t : string) (r : regex) (pre l : list ascii) :
  forall p,
    (forall k, (k < length pre)%nat -> is_prefix (chars t) (drop k (pre ++ l)) = false) ->
    search_from (Seq (Lit t) r) p (pre ++ l)
    = search_from (Seq (Lit t) r) (p + length pre) l.
Proof.
  induction pre as [|c pre IH]; intros p H.
  - simpl. rewrite Nat.add_0_r. reflexivity.
  - change ((c :: pre) ++ l)%list with (c :: (pre ++ l))%list.
    cbn [search_from]. rewrite run_lit_fail.
    + simpl. rewrite IH.
      * f_equal. lia.
      * intros k Hk. apply (H (S k)). simpl. lia.
    + apply (H 0%nat). simpl. lia.
Qed.

Lemma is_prefix_String (t s : string) : is_prefix (chars t) (chars s) = String.prefix t s.
Proof.
  revert s. induction t as [|a t IH]; intros [|b s]; simpl; try reflexivity.
  destruct (ascii_dec a b) as [->|Hne].
  - rewrite bool_decide_eq_true_2 by reflexivity. apply IH.
  - rewrite bool_decide_eq_false_2 by exact Hne. reflexivity.
Qed.

Lemma contains_drop (t s : string) (k : nat) :
  contains t s = false -> is_prefix (chars t) (drop k (chars s)) = false.
Proof.
  revert k. induction s as [|c s IH]; intros k H; simpl in H.
  - apply orb_false_iff in H as [H _].
    change (chars "") with (@nil ascii). rewrite drop_nil.
    rewrite <- H. apply (is_prefix_String t "").
  - apply orb_false_iff in H as [H1 H2]. destruct k as [|k].
    + rewrite <- H1. apply (is_prefix_String t (String c s)).
    + change (chars (String c s)) with (c :: chars s). simpl. apply IH. exact H2.
Qed.

Lemma is_prefix_take (t l : list ascii) :
  is_prefix t l = is_prefix t (take (length t) l).
Proof.
  revert l. induction t as [|a t IH]; intros [|b l]; simpl; try reflexivity.
  rewrite <- IH. reflexivity.
Qed.

(** Whether a literal occurs at a position depends on the text up to the
    end of the literal only. *)
Lemma is_prefix_cut (t a b : list ascii) :
  (length t <= length a)%nat -> is_prefix t (a ++ b) = is_prefix t a.
Proof.
  intros H. rewrite (is_prefix_take t (a ++ b)), (is_prefix_take t a).
  rewrite take_app_le by exact H. reflexivity.
Qed.

(** The first match of a literal and of a run of digits held by a group,
    with the cursor they leave. *)
Lemma head_lit_at (t : string) (s : cursor) (l : list ascii) :
  rest s = (chars t ++ l)%list ->
  head (run (Lit t) s)
  = Some (mkCursor (pos s + length (chars t)) l (groups s)).
Proof.
  intros H. rewrite (head_lit t s l H). unfold advance. rewrite H.
  rewrite drop_app_length. reflexivity.
Qed.

Lemma head_class_group (n : nat) (p : ascii -> bool) (text : string) (s : cursor)
    (l : list ascii) :
  rest s = (chars text ++ l)%list -> text <> "" ->
  Forall (fun c => p c = true) (chars text) -> span p l = 0%nat ->
  head (run (Group n (Many 1 p)) s)
  = Some (mkCursor (pos s + length (chars text)) l ((n, text) :: groups s)).
Proof.
  intros H Hne Hall Hl.
  assert (Hspan : span p (rest s) = length (chars text)).
  { rewrite H. apply span_app; assumption. }
  rewrite (head_group n (Many 1 p) s (advance (length (chars text)) s)).
  - unfold set_group, consumed, advance. simpl. rewrite H.
    rewrite drop_app_length, length_app.
    replace (length (chars text) + length l - length l)%nat
      with (length (chars text)) by lia.
    rewrite take_app_length, str_chars. reflexivity.
  - rewrite head_many; rewrite Hspan; [reflexivity|].
    destruct text; [contradiction|]. simpl. lia.
Qed.
End Re.

(** ** parse.py: metadata from the file name *)

Module Filename.
Import PyStr Parse Re.

(** [r'ior-n(\d+)ppn(\d+)t(\d+)([mgkMGK]?)(\.\d+)?.out'] *)
Definition _filename_rex : regex :=
  Seq (Lit "ior-n") (Seq (Group 1 (Many 1 digit))
  (Seq (Lit "ppn") (Seq (Group 2 (Many 1 digit))
  (Seq (Lit "t") (Seq (Group 3 (Many 1 digit))
  (Seq (Group 4 (Opt (Cls (one_of "mgkMGK"))))
  (Seq (Opt (Group 5 (Seq (Lit ".") (Many 1 digit))))
  (Seq (Cls any) (Lit "out"))))))))).

(** [r'ior-n(\d+)p(pn)?(\d+).*\.out'] *)
Definition _filename_rex_simple : regex :=
  Seq (Lit "ior-n") (Seq (Group 1 (Many 1 digit))
  (Seq (Lit "p") (Seq (Opt (Group 2 (Lit "pn")))
  (Seq (Group 3 (Many 1 digit))
  (Seq (Many 0 any) (Lit ".out")))))).

(** [int(match.group(n))] *)
Definition int_group (m : found) (n : nat) : result Z :=
  match group m n with
  | Some text => to_int text
  | None => Raise TypeError
  end.

(** [self['header'].update(d)] for a dict literal given as its items. *)
Definition header_update (items : list (string * pyval)) (self : IorOutput)
    : result IorOutput :=
  match header self with
  | Some h =>
      Ok (set_header (Some (foldl (fun h kv => <[kv.1 := kv.2]> h) h items)) self)
  | None => Raise (KeyError "header")
  end.

(** [IorOutput.add_filename_metadata] *)
Definition add_filename_metadata (self : IorOutput) (filename : string)
    : result IorOutput :=
  let found := search _filename_rex filename in
  let self := match header self with
              | Some _ => self
              | None => set_header (Some ∅) self
              end in
  match found with
  | Some m =>
      xfersize ← int_group m 3;
      unit ← match group m 4 with
             | Some text => Ok (lower text)
             | None => Raise AttributeError
             end;
      let xfersize :=
        if bool_decide (unit = "k") then (xfersize * 2 ^ 10)%Z
        else if bool_decide (unit = "m") then (xfersize * 2 ^ 20)%Z
        else if bool_decide (unit = "g") then (xfersize * 2 ^ 30)%Z
        else xfersize in
      nodes ← int_group m 1;
      ppn ← int_group m 2;
      header_update [("nodes", VInt nodes); ("ppn", VInt ppn);
                     ("xfersize", VInt xfersize)] self
  | None =>
      match search _filename_rex_simple filename with
      | Some m =>
          nodes ← int_group m 1;
          ppn ← int_group m 3;
          header_update [("nodes", VInt nodes); ("ppn", VInt ppn)] self
      | None =>
          Ok (warn ("Could not extract metadata from filename " ++ filename) self)
      end
  end.

(** The multiplier of the unit letter in a file name. *)
Definition unit_factor (unit : string) : Z :=
  if bool_decide (lower unit = "k") then (2 ^ 10)%Z
  else if bool_decide (lower unit = "m") then (2 ^ 20)%Z
  else if bool_decide (lower unit = "g") then (2 ^ 30)%Z
  else 1%Z.

Definition digits (text : string) : Prop :=
  text <> "" /\ Forall (fun c => digit c = true) (chars text).

(** A directory part in which the name does not begin early. *)
Definition plain_directory (dir : string) : Prop :=
  contains "ior-n" (dir ++ "ior-") = false.

Lemma directory_skipped (dir : string) (l : list ascii) (k : nat) :
  plain_directory dir -> (k < length (chars dir))%nat ->
  is_prefix (chars "ior-n") (drop k (chars dir ++ chars "ior-n" ++ l)) = false.
Proof.
  intros H Hk. apply (contains_drop _ _ k) in H.
  rewrite chars_app in H. rewrite drop_app_le in H by lia.
  rewrite drop_app_le by lia.
  change (chars "ior-n" ++ l)%list with (chars "ior-" ++ ("n"%char :: l))%list.
  rewrite app_assoc. rewrite is_prefix_cut; [exact H|].
  rewrite length_app, length_drop. simpl. lia.
Qed.

Lemma filename_match (dir N P T U : string) :
  plain_directory dir -> digits N -> digits P -> digits T ->
  U ∈ [""; "k"; "m"; "g"; "K"; "M"; "G"] ->
  exists m,
    search _filename_rex (dir ++ "ior-n" ++ N ++ "ppn" ++ P ++ "t" ++ T ++ U ++ ".out")
    = Some m /\
    group m 1 = Some N /\ group m 2 = Some P /\ group m 3 = Some T /\
    group m 4 = Some U.
Proof.
  intros Hdir [HN1 HN2] [HP1 HP2] [HT1 HT2] HU.
  unfold search. rewrite !chars_app.
  unfold _filename_rex at 1. rewrite search_from_skip.
  2: { intros k Hk. apply directory_skipped; assumption. }
  fold _filename_rex.
  assert (Hhead : exists s,
            head (run _filename_rex
                    (mkCursor (0 + length (chars dir))
                       (chars "ior-n" ++ chars N ++ chars "ppn" ++ chars P
                        ++ chars "t" ++ chars T ++ chars U ++ chars ".out") []))
            = Some s /\
            assoc 1%nat (groups s) = Some N /\ assoc 2%nat (groups s) = Some P /\
            assoc 3%nat (groups s) = Some T /\ assoc 4%nat (groups s) = Some U).
  { repeat (apply elem_of_cons in HU as [->|HU]); [..|inversion HU].
    all: eexists; split;
      [ unfold _filename_rex;
        eapply head_seq; [eapply head_lit_at; reflexivity|];
        eapply head_seq;
          [eapply (head_class_group 1 digit N);
           [reflexivity | assumption | assumption | reflexivity]|];
        eapply head_seq; [eapply head_lit_at; reflexivity|];
        eapply head_seq;
          [eapply (head_class_group 2 digit P);
           [reflexivity | assumption | assumption | reflexivity]|];
        eapply head_seq; [eapply head_lit_at; reflexivity|];
        eapply head_seq;
          [eapply (head_class_group 3 digit T);
           [reflexivity | assumption | assumption | reflexivity]|];
        cbn; reflexivity
      | repeat split; reflexivity ]. }
  destruct Hhead as (s & Hs & H1 & H2 & H3 & H4).
  exists (mkFound (0 + length (chars dir)) s). split.
  - destruct (chars "ior-n" ++ chars N ++ chars "ppn" ++ chars P
              ++ chars "t" ++ chars T ++ chars U ++ chars ".out")%list;
      cbn [search_from]; rewrite Hs; reflexivity.
  - unfold group. simpl. auto.
Qed.

Lemma search_absent (t : string) (r : regex) (text : string) :
  contains t text = false -> search (Seq (Lit t) r) text = None.
Proof.
  intros H. unfold search. apply search_from_absent.
  intros k. apply contains_drop. exact H.
Qed.

(** X8: a file name built by the convention
    "ior-n<nodes>ppn<ppn>t<size><unit>.out" (the unit one of k, m, g in
    either case, or none; any directory in front in which the name does not
    begin early) sets the header's nodes, ppn and xfersize from the name,
    the size multiplied by 2^10, 2^20 or 2^30 for the unit; values the header
    already holds for these keys, such as those parsed from the output, are
    replaced, and a header is created when there is none. *)
Theorem filename_convention (self : IorOutput) (dir N P T U : string) (n p t : Z) :
  plain_directory dir -> digits N -> digits P -> digits T ->
  U ∈ [""; "k"; "m"; "g"; "K"; "M"; "G"] ->
  py_int N = Some n -> py_int P = Some p -> py_int T = Some t ->
  add_filename_metadata self
    (dir ++ "ior-n" ++ N ++ "ppn" ++ P ++ "t" ++ T ++ U ++ ".out")
  = Ok (set_header
          (Some (<["xfersize" := VInt (t * unit_factor U)]>
                   (<["ppn" := VInt p]>
                      (<["nodes" := VInt n]> (default ∅ (header self))))))
          self).
Proof.
  intros Hdir HN HP HT HU Hn Hp Ht.
  destruct (filename_match dir N P T U Hdir HN HP HT HU)
    as (m & Hm & H1 & H2 & H3 & H4).
  unfold add_filename_metadata. rewrite Hm.
  unfold int_group, to_int. rewrite H1, H2, H3, H4, Hn, Hp, Ht.
  cbn [mbind result_bind].
  assert (Hx : (if bool_decide (lower U = "k") then (t * 2 ^ 10)%Z
                else if bool_decide (lower U = "m") then (t * 2 ^ 20)%Z
                else if bool_decide (lower U = "g") then (t * 2 ^ 30)%Z
                else t) = (t * unit_factor U)%Z).
  { unfold unit_factor.
    destruct (bool_decide (lower U = "k")); [reflexivity|].
    destruct (bool_decide (lower U = "m")); [reflexivity|].
    destruct (bool_decide (lower U = "g")); [reflexivity|]. lia. }
  rewrite Hx. unfold header_update.
  destruct (header self) as [h|] eqn:E; simpl; rewrite ?E; reflexivity.
Qed.

(** X9: a file name that does not contain "ior-n" matches neither pattern:
    the call only warns, and leaves the header as it is (an absent header is
    created empty). *)
Theorem filename_without_marker (self : IorOutput) (filename : string) :
  contains "ior-n" filename = false ->
  add_filename_metadata self filename
  = Ok (warn ("Could not extract metadata from filename " ++ filename)
          (match header self with
           | Some _ => self
           | None => set_header (Some ∅) self
           end)).
Proof.
  intros H. unfold add_filename_metadata.
  unfold _filename_rex, _filename_rex_simple.
  rewrite !search_absent by exact H. reflexivity.
Qed.

Lemma filename_convention_witness :
  add_filename_metadata new_output "results/run1/ior-n4ppn16t1m.out"
  = Ok (set_header
          (Some (<["xfersize" := VInt 1048576]>
                   (<["ppn" := VInt 16]> (<["nodes" := VInt 4]> ∅))))
          new_output).
Proof.
  apply (filename_convention new_output "results/run1/" "4" "16" "1" "m" 4 16 1);
    try (vm_compute; reflexivity);
    try (split; [discriminate | repeat constructor]).
  repeat constructor.
Defined.

Lemma filename_without_marker_witness :
  add_filename_metadata new_output "slurm-1234.out"
  = Ok (warn "Could not extract metadata from filename slurm-1234.out"
          (set_header (Some ∅) new_output)).
Proof.
  apply (filename_without_marker new_output "slurm-1234.out").
  vm_compute. reflexivity.
Defined.
End Filename.

(** ** common.py: human-readable quantities *)

Module Common.
Import PyStr Parse.

(** A Python number: the int the caller passes, or the float a division
    leaves. *)
Inductive number : Type :=
| Int (n : Z)
| Float (x : Q).

Definition to_Q (v : number) : Q :=
  match v with
  | Int n => inject_Z n
  | Float x => x
  end.

Definition units : list string := ["K"; "M"; "G"; "T"; "P"; "E"; "Z"].

(** The loop of [humanize_bytes]: [break] at the first unit for which the
    quantity is below 1024. *)
Fixpoint humanize_loop (units : list string) (quantity : number) (return_unit : string)
    : number * string :=
  match units with
  | [] => (quantity, return_unit)
  | unit :: units =>
      if Qle_bool 1024 (to_Q quantity)
      then humanize_loop units (Float (to_Q quantity / 1024)) (unit ++ "iB")
      else (quantity, return_unit)
  end.

(** [humanize_bytes] for an int quantity.  The floats of the loop are
    exact rationals, as they are in Python for a multiple of 1024 below 2^63. *)
Definition humanize_bytes (quantity : Z) : number * string :=
  if bool_decide (quantity mod 1024 <> 0)%Z then (Int quantity, "")
  else humanize_loop units (Int quantity) "".

Lemma Qle_bool_false (x y : Q) : Qle_bool x y = false -> (y < x)%Q.
Proof. intros H. apply Qltb_lt. unfold Qltb. rewrite H. reflexivity. Qed.

Lemma Qdiv_1024 (x : Q) : (x / 1024 * 1024 == x)%Q.
Proof. field. Qed.

Lemma humanize_in_range (quantity : Z) :
  (quantity mod 1024 = 0)%Z -> (1024 <= quantity < 2 ^ 63)%Z ->
  exists (x : Q) (k : nat) (name : string),
    humanize_bytes quantity = (Float x, name ++ "iB") /\
    take 6 units !! k = Some name /\
    (1 <= x)%Q /\ (x < 1024)%Q /\
    (x * inject_Z (1024 ^ Z.of_nat (S k)) == inject_Z quantity)%Q.
Proof.
  intros H [Hlo Hhi]. unfold humanize_bytes.
  rewrite bool_decide_eq_false_2 by lia.
  assert (Hq1 : (1024 <= inject_Z quantity)%Q).
  { change 1024%Q with (inject_Z 1024). rewrite <- Zle_Qle. exact Hlo. }
  assert (Hq2 : (inject_Z quantity < inject_Z (2 ^ 63))%Q).
  { rewrite <- Zlt_Qlt. exact Hhi. }
  change (inject_Z (2 ^ 63)) with 9223372036854775808%Q in Hq2.
  unfold units. cbn [humanize_loop to_Q].
  set (q := inject_Z quantity) in *.
  pose proof (Qdiv_1024 q) as D1. set (x1 := (q / 1024)%Q) in *.
  pose proof (Qdiv_1024 x1) as D2. set (x2 := (x1 / 1024)%Q) in *.
  pose proof (Qdiv_1024 x2) as D3. set (x3 := (x2 / 1024)%Q) in *.
  pose proof (Qdiv_1024 x3) as D4. set (x4 := (x3 / 1024)%Q) in *.
  pose proof (Qdiv_1024 x4) as D5. set (x5 := (x4 / 1024)%Q) in *.
  pose proof (Qdiv_1024 x5) as D6. set (x6 := (x5 / 1024)%Q) in *.
  destruct (Qle_bool 1024 q) eqn:E0;
    [clear E0 | apply Qle_bool_false in E0; lra].
  destruct (Qle_bool 1024 x1) eqn:E1;
    [apply Qle_bool_iff in E1 | apply Qle_bool_false in E1].
  2: { exists x1, 0%nat, "K".
       change (inject_Z (1024 ^ Z.of_nat 1)) with 1024%Q.
       repeat split; try reflexivity; lra. }
  destruct (Qle_bool 1024 x2) eqn:E2;
    [apply Qle_bool_iff in E2 | apply Qle_bool_false in E2].
  2: { exists x2, 1%nat, "M".
       change (inject_Z (1024 ^ Z.of_nat 2)) with 1048576%Q.
       repeat split; try reflexivity; lra. }
  destruct (Qle_bool 1024 x3) eqn:E3;
    [apply Qle_bool_iff in E3 | apply Qle_bool_false in E3].
  2: { exists x3, 2%nat, "G".
       change (inject_Z (1024 ^ Z.of_nat 3)) with 1073741824%Q.
       repeat split; try reflexivity; lra. }
  destruct (Qle_bool 1024 x4) eqn:E4;
    [apply Qle_bool_iff in E4 | apply Qle_bool_false in E4].
  2: { exists x4, 3%nat, "T".
       change (inject_Z (1024 ^ Z.of_nat 4)) with 1099511627776%Q.
       repeat split; try reflexivity; lra. }
  destruct (Qle_bool 1024 x5) eqn:E5;
    [apply Qle_bool_iff in E5 | apply Qle_bool_false in E5].
  2: { exists x5, 4%nat, "P".
       change (inject_Z (1024 ^ Z.of_nat 5)) with 1125899906842624%Q.
       repeat split; try reflexivity; lra. }
  destruct (Qle_bool 1024 x6) eqn:E6;
    [apply Qle_bool_iff in E6; lra | apply Qle_bool_false in E6].
  exists x6, 5%nat, "E".
  change (inject_Z (1024 ^ Z.of_nat 6)) with 1152921504606846976%Q.
  repeat split; try reflexivity; lra.
Qed.

Lemma humanize_beyond (quantity : Z) :
  (quantity mod 1024 = 0)%Z -> (1024 ^ 7 <= quantity)%Z ->
  snd (humanize_bytes quantity) = "ZiB".
Proof.
  intros H Hlo. unfold humanize_bytes.
  rewrite bool_decide_eq_false_2 by lia.
  assert (Hq1 : (inject_Z (1024 ^ 7) <= inject_Z quantity)%Q).
  { rewrite <- Zle_Qle. exact Hlo. }
  change (inject_Z (1024 ^ 7)) with 1180591620717411303424%Q in Hq1.
  unfold units. cbn [humanize_loop to_Q].
  set (q := inject_Z quantity) in *.
  pose proof (Qdiv_1024 q) as D1. set (x1 := (q / 1024)%Q) in *.
  pose proof (Qdiv_1024 x1) as D2. set (x2 := (x1 / 1024)%Q) in *.
  pose proof (Qdiv_1024 x2) as D3. set (x3 := (x2 / 1024)%Q) in *.
  pose proof (Qdiv_1024 x3) as D4. set (x4 := (x3 / 1024)%Q) in *.
  pose proof (Qdiv_1024 x4) as D5. set (x5 := (x4 / 1024)%Q) in *.
  pose proof (Qdiv_1024 x5) as D6. set (x6 := (x5 / 1024)%Q) in *.
  destruct (Qle_bool 1024 q) eqn:E0; [|apply Qle_bool_false in E0; lra].
  destruct (Qle_bool 1024 x1) eqn:E1; [|apply Qle_bool_false in E1; lra].
  destruct (Qle_bool 1024 x2) eqn:E2; [|apply Qle_bool_false in E2; lra].
  destruct (Qle_bool 1024 x3) eqn:E3; [|apply Qle_bool_false in E3; lra].
  destruct (Qle_bool 1024 x4) eqn:E4; [|apply Qle_bool_false in E4; lra].
  destruct (Qle_bool 1024 x5) eqn:E5; [|apply Qle_bool_false in E5; lra].
  destruct (Qle_bool 1024 x6) eqn:E6; [|apply Qle_bool_false in E6; lra].
  reflexivity.
Qed.

(** *** Reading a quantity back *)

(** A text without whitespace. *)
Definition token (s : string) : Prop :=
  s <> "" /\ Forall (fun c => isspace c = false) (chars s).

Lemma split_ws_token (a l : list ascii) :
  a <> [] -> Forall (fun c => isspace c = false) a ->
  (l = [] \/ exists c l', l = c :: l' /\ isspace c = true) ->
  split_ws (a ++ l) = a :: split_ws l.
Proof.
  intros Hne Hall Hl. induction a as [|c a IH]; [contradiction|].
  apply Forall_cons in Hall as [Hc Hall].
  destruct a as [|c' a].
  - cbn [app split_ws]. rewrite Hc.
    destruct Hl as [-> | (s & l' & -> & Hs)]; [reflexivity|].
    rewrite Hs. reflexivity.
  - change ((c :: c' :: a) ++ l)%list with (c :: (c' :: a) ++ l)%list.
    cbn [split_ws]. rewrite Hc.
    assert (Hc' : isspace c' = false) by (inversion Hall; assumption).
    change ((c' :: a) ++ l)%list with (c' :: (a ++ l))%list at 1.
    cbn iota. rewrite Hc'. rewrite IH by (discriminate || assumption).
    reflexivity.
Qed.

Lemma lstrip_with_keep (drop : ascii -> bool) (c : ascii) (l : list ascii) :
  drop c = false -> lstrip_with drop (c :: l) = c :: l.
Proof. intros H. simpl. rewrite H. reflexivity. Qed.

Lemma rstrip_with_keep (drop : ascii -> bool) (l : list ascii) (c : ascii) :
  drop c = false -> rstrip_with drop (l ++ [c]) = (l ++ [c])%list.
Proof.
  intros H. unfold rstrip_with. rewrite rev_unit. simpl. rewrite H.
  simpl. rewrite rev_involutive. reflexivity.
Qed.

Lemma strip_two (a b : list ascii) :
  a <> [] -> b <> [] ->
  Forall (fun c => isspace c = false) a -> Forall (fun c => isspace c = false) b ->
  strip_chars (a ++ " "%char :: b) = (a ++ " "%char :: b)%list.
Proof.
  intros Ha Hb Hall Hbll. unfold strip_chars, strip_with.
  destruct a as [|c a]; [contradiction|].
  apply Forall_cons in Hall as [Hc _].
  change ((c :: a) ++ " "%char :: b)%list with (c :: (a ++ " "%char :: b))%list.
  rewrite lstrip_with_keep by exact Hc.
  destruct b as [|d b] using rev_ind; [contradiction|].
  apply Forall_app in Hbll as [_ Hd]. apply Forall_cons in Hd as [Hd _].
  replace (c :: a ++ " "%char :: b ++ [d])%list
    with ((c :: a ++ " "%char :: b) ++ [d])%list.
  - apply rstrip_with_keep. exact Hd.
  - simpl. rewrite <- app_assoc. reflexivity.
Qed.

Lemma split_two (a b : string) :
  token a -> token b -> split (strip (a ++ " " ++ b)) = [a; b].
Proof.
  intros [Ha Hall] [Hb Hbll]. unfold split, strip.
  assert (Ha' : chars a <> []) by (destruct a; [contradiction | discriminate]).
  assert (Hb' : chars b <> []) by (destruct b; [contradiction | discriminate]).
  rewrite !Re.chars_app. change (chars " ") with [" "%char].
  change ([" "%char] ++ chars b)%list with (" "%char :: chars b).
  rewrite strip_two by assumption.
  unfold chars at 1, str at 1. rewrite list_ascii_of_string_of_list_ascii.
  rewrite split_ws_token; try assumption.
  2: { right. exists " "%char, (chars b). split; reflexivity. }
  cbn [split_ws]. change (isspace " ") with true. cbn iota.
  rewrite <- (app_nil_r (chars b)).
  rewrite split_ws_token; try assumption; [|left; reflexivity].
  simpl. rewrite !Re.str_chars. reflexivity.
Qed.

Lemma Qred_inject_Z (n : Z) : Qred (inject_Z n) = inject_Z n.
Proof.
  unfold Qred, inject_Z.
  pose proof (Z.ggcd_gcd n 1) as Hg. pose proof (Z.ggcd_correct_divisors n 1) as Hd.
  destruct (Z.ggcd n 1) as [g [aa bb]]. simpl in Hg. destruct Hd as [Hn H1].
  rewrite Z.gcd_1_r in Hg. subst g. rewrite Z.mul_1_l in Hn, H1. subst aa bb.
  reflexivity.
Qed.

Lemma humansize_unit (text name : string) (k : nat) (x : Q) :
  token text -> py_float text = Some (Finite x) ->
  take 6 units !! k = Some name ->
  humansize2bytes (text ++ " " ++ name ++ "iB")
  = Ok (Finite (Qred (x * inject_Z (1024 ^ Z.of_nat (S k))))).
Proof.
  intros Ht Hf Hk. unfold humansize2bytes.
  assert (Hname : token (name ++ "iB")).
  { do 6 (destruct k as [|k]; [injection Hk as <-; split;
                                [discriminate | repeat constructor]|]).
    discriminate. }
  rewrite split_two by assumption.
  unfold to_float. rewrite Hf. cbn [mbind result_bind].
  do 6 (destruct k as [|k]; [injection Hk as <-; reflexivity|]).
  discriminate.
Qed.

(** X10: [humanize_bytes] on an int.  A quantity that is no multiple of
    1024 is returned as it is, with an empty unit, however large it is; so
    is a multiple of 1024 below 1024 (zero and the negative ones).  A
    multiple of 1024 from 1024 up to 2^63 is divided by 1024 as often as it
    takes to bring it below 1024: the result is a float in [1, 1024) with the
    unit KiB, MiB, GiB, TiB, PiB or EiB, and the float times the unit gives
    the quantity back.  (In this range every float operation is exact.) *)
Theorem humanize_bytes_scales (quantity : Z) :
  ((quantity mod 1024 <> 0)%Z -> humanize_bytes quantity = (Int quantity, "")) /\
  ((quantity mod 1024 = 0)%Z -> (quantity < 1024)%Z ->
   humanize_bytes quantity = (Int quantity, "")) /\
  ((quantity mod 1024 = 0)%Z -> (1024 <= quantity < 2 ^ 63)%Z ->
   exists (x : Q) (k : nat) (name : string),
     humanize_bytes quantity = (Float x, name ++ "iB") /\
     take 6 units !! k = Some name /\
     (1 <= x)%Q /\ (x < 1024)%Q /\
     (x * inject_Z (1024 ^ Z.of_nat (S k)) == inject_Z quantity)%Q).
Proof.
  split; [|split].
  - intros H. unfold humanize_bytes. rewrite bool_decide_eq_true_2 by exact H.
    reflexivity.
  - intros H Hlt. unfold humanize_bytes.
    rewrite bool_decide_eq_false_2 by lia. simpl.
    destruct (Qle_bool 1024 (inject_Z quantity)) eqn:E; [|reflexivity].
    apply Qle_bool_iff in E. change 1024%Q with (inject_Z 1024) in E.
    rewrite <- Zle_Qle in E. lia.
  - apply humanize_in_range.
Qed.

(** X11: [humansize2bytes] reads back what [humanize_bytes] writes.  For a
    multiple of 1024 from 1024 up to 2^63, any text that [float] reads as the
    number [humanize_bytes] returns, followed by a blank and the unit it
    returns, is converted back to the quantity.  From 1024^7 on, as far as
    a float reaches, the unit is "ZiB", which [humansize2bytes] does not
    know: it raises ValueError. *)
Theorem humansize_inverts_humanize :
  (forall (quantity : Z) (x y : Q) (unit text : string),
     (quantity mod 1024 = 0)%Z -> (1024 <= quantity < 2 ^ 63)%Z ->
     humanize_bytes quantity = (Float x, unit) ->
     token text -> py_float text = Some (Finite y) -> (y == x)%Q ->
     humansize2bytes (text ++ " " ++ unit) = Ok (Finite (inject_Z quantity))) /\
  (forall (quantity : Z) (text : string) (y : pyfloat),
     (quantity mod 1024 = 0)%Z -> (1024 ^ 7 <= quantity < 2 ^ 1023)%Z ->
     token text -> py_float text = Some y ->
     snd (humanize_bytes quantity) = "ZiB" /\
     humansize2bytes (text ++ " " ++ snd (humanize_bytes quantity))
     = Raise (ValueError "got unreal xsize")).
Proof.
  split.
  - intros quantity x y unit text Hmod Hrange Hh Ht Hf Hxy.
    destruct (humanize_in_range quantity Hmod Hrange)
      as (x' & k & name & Hh' & Hk & _ & _ & Hq).
    rewrite Hh in Hh'. injection Hh' as -> ->.
    rewrite (humansize_unit text name k y Ht Hf Hk).
    do 2 f_equal. transitivity (Qred (inject_Z quantity));
      [|apply Qred_inject_Z].
    apply Qred_complete. rewrite Hxy. exact Hq.
  - intros quantity text y Hmod [Hlo _] Ht Hf.
    rewrite (humanize_beyond quantity Hmod Hlo). split; [reflexivity|].
    unfold humansize2bytes.
    rewrite (split_two text "ZiB" Ht) by (split; [discriminate | repeat constructor]).
    unfold to_float. rewrite Hf. reflexivity.
Qed.

Lemma humanize_bytes_scales_witness :
  humanize_bytes 1500%Z = (Int 1500%Z, "") /\
  humanize_bytes (-2048)%Z = (Int (-2048)%Z, "") /\
  exists (x : Q) (k : nat) (name : string),
    humanize_bytes 1572864%Z = (Float x, name ++ "iB") /\
    take 6 units !! k = Some name /\
    (1 <= x)%Q /\ (x < 1024)%Q /\
    (x * inject_Z (1024 ^ Z.of_nat (S k)) == inject_Z 1572864)%Q.
Proof.
  split; [|split].
  - apply (proj1 (humanize_bytes_scales 1500%Z)). vm_compute. discriminate.
  - apply (proj1 (proj2 (humanize_bytes_scales (-2048)%Z))); [reflexivity | lia].
  - apply (proj2 (proj2 (humanize_bytes_scales 1572864%Z))); [reflexivity | lia].
Defined.

Lemma humansize_inverts_humanize_witness :
  humansize2bytes ("1.5" ++ " " ++ "MiB") = Ok (Finite (inject_Z 1572864)).
Proof.
  apply (proj1 humansize_inverts_humanize 1572864%Z
           (1572864 / 1024 / 1024)%Q (3 # 2)%Q "MiB" "1.5").
  - reflexivity.
  - lia.
  - reflexivity.
  - split; [discriminate | repeat constructor].
  - vm_compute. reflexivity.
  - reflexivity.
Defined.

End Common.

(** ** A concrete clock for both parsers *)

Module Clock.
Import PyStr.

(** [datetime.strptime(text, format).timestamp()] in UTC: the ISO format of
    md-workbench ("2021-08-30 09:57:39"), and the C-locale formats of IOR. *)
Definition strptime (text format : string) : option Z :=
  if bool_decide (format = "%Y-%m-%d %H:%M:%S") then
    match split text with
    | [date; time] =>
        match split_on "-" date, split_on ":" time with
        | [y; m; d], [hh; mm; ss] =>
            year ← (if (length (chars y) =? 4)%nat then CLocale.field 4 9999 y
                    else None);
            month ← CLocale.field 2 12 m;
            day ← CLocale.field 2 31 d;
            hh ← CLocale.field 2 23 hh;
            mm ← CLocale.field 2 59 mm;
            ss ← CLocale.field 2 59 ss;
            if ((1 <=? month) && (1 <=? day)
                && (day <=? CLocale.days_in_month year month) && (1 <=? year))%Z
            then Some (CLocale.days_from_civil year month day * 86400
                       + hh * 3600 + mm * 60 + ss)%Z
            else None
        | _, _ => None
        end
    | _ => None
    end
  else CLocale.strptime text format.

End Clock.

(** ** parse.py: the md-workbench parser *)

Module MdWorkbench.
Import PyStr Re.
Import Parse(pyval, VNone, VInt, VFloat, VStr, record, to_int, to_float,
             humansize2bytes).

(** [s.split(sep, n)] for a one-character separator. *)
Fixpoint splitn_chars (sep : ascii) (l : list ascii) (n : nat) : list (list ascii) :=
  match l with
  | [] => [[]]
  | c :: l' =>
      match n with
      | 0 => [l]
      | S n' =>
          if bool_decide (c = sep) then [] :: splitn_chars sep l' n'
          else match splitn_chars sep l' n with
               | t :: ts => (c :: t) :: ts
               | [] => [[c]]
               end
      end
  end.

Definition splitn (sep : ascii) (n : nat) (s : string) : list string :=
  str <$> splitn_chars sep (chars s) n.

(** [s.lstrip(c)] for a one-character argument. *)
Definition lstrip (c : ascii) (s : string) : string :=
  str (lstrip_with (fun x => bool_decide (x = c)) (chars s)).

(** [" ".join(l)] *)
Fixpoint join (l : list string) : string :=
  match l with
  | [] => ""
  | [s] => s
  | s :: l' => s ++ " " ++ join l'
  end.

(** [l[i:j]] for 0 <= i <= j. *)
Definition slice {A : Type} (i j : nat) (l : list A) : list A :=
  take (j - i) (drop i l).

(** [x / k] for a float [x] and a positive int [k]. *)
Definition float_div (x : pyfloat) (k : Z) : pyfloat :=
  match x with
  | Finite q => Finite (Qred (q / inject_Z k))
  | other => other
  end.

(** The handler [self._parser] points at. *)
Inductive parser : Type :=
| find_run_begin
| find_results_line.

(** An [MdWorkbenchOutput] under construction: the keys the parser may set
    on [self], absent at first, and the current handler. *)
Record MdWorkbenchOutput : Type := mkMdWorkbenchOutput {
  header : option record;
  results : option (list record);
  stonewall_runtime : option (list (gmap Z pyfloat));
  _parser : parser
}.

Definition new_output : MdWorkbenchOutput :=
  mkMdWorkbenchOutput None None None find_run_begin.

Definition set_header (v : option record) (o : MdWorkbenchOutput) : MdWorkbenchOutput :=
  mkMdWorkbenchOutput v (results o) (stonewall_runtime o) (_parser o).
Definition set_results (v : option (list record)) (o : MdWorkbenchOutput)
    : MdWorkbenchOutput :=
  mkMdWorkbenchOutput (header o) v (stonewall_runtime o) (_parser o).
Definition set_stonewall_runtime (v : option (list (gmap Z pyfloat)))
    (o : MdWorkbenchOutput) : MdWorkbenchOutput :=
  mkMdWorkbenchOutput (header o) (results o) v (_parser o).
Definition set_parser (v : parser) (o : MdWorkbenchOutput) : MdWorkbenchOutput :=
  mkMdWorkbenchOutput (header o) (results o) (stonewall_runtime o) v.

(** [r"^(\d+): stonewall runtime ([^s]+)s"] *)
Definition _stonewall_runtime_rex : regex :=
  Seq Bol (Seq (Group 1 (Many 1 digit))
  (Seq (Lit ": stonewall runtime ")
  (Seq (Group 2 (Many 1 (none_of "s"))) (Lit "s")))).

(** A sequence of patterns. *)
Fixpoint seqs (r : regex) (rs : list regex) : regex :=
  match rs with
  | [] => r
  | r' :: rs' => Seq r (seqs r' rs')
  end.

(** [r"(\w+)\(([^s]+)s,\s*([^s]+)s,\s*([^s]+)s,\s*([^s]+)s,\s*([^s]+)s,\s*([^s]+)s,\s*([^s]+)s\)"] *)
Definition _op_stats_record : regex :=
  seqs (Group 1 (Many 1 word))
    [ Lit "(";
      Group 2 (Many 1 (none_of "s")); Lit "s,"; Many 0 space;
      Group 3 (Many 1 (none_of "s")); Lit "s,"; Many 0 space;
      Group 4 (Many 1 (none_of "s")); Lit "s,"; Many 0 space;
      Group 5 (Many 1 (none_of "s")); Lit "s,"; Many 0 space;
      Group 6 (Many 1 (none_of "s")); Lit "s,"; Many 0 space;
      Group 7 (Many 1 (none_of "s")); Lit "s,"; Many 0 space;
      Group 8 (Many 1 (none_of "s")); Lit "s)" ].

(** [pattern.finditer(text)]: the matches from left to right, each search
    starting where the last match ended.  (The patterns of the sources match
    no empty text.) *)
Fixpoint finditer_from (fuel : nat) (r : regex) (p : nat) (l : list ascii)
    : list found :=
  match fuel with
  | 0 => []
  | S fuel =>
      match search_from r p l with
      | Some m => m :: finditer_from fuel r (pos (stop m)) (rest (stop m))
      | None => []
      end
  end.

Definition finditer (r : regex) (text : string) : list found :=
  finditer_from (S (length (chars text))) r 0 (chars text).

Definition group_text (m : found) (n : nat) : result string :=
  match group m n with
  | Some text => Ok text
  | None => Raise TypeError
  end.

Section Machine.

(** [datetime.datetime.strptime(text, format).timestamp()] as whole
    seconds, as for the IOR parser. *)
Variable strptime : string -> string -> option Z.

Definition timestamp (text format : string) : result Z :=
  match strptime text format with
  | Some t => Ok t
  | None => Raise (ValueError "time data does not match format")
  end.

(** The per-rank branch of [parse_anywhere]:
    [self['stonewall_runtime'][-1][rank] = runtime], a new mapping being
    appended first when the last one already has the rank. *)
Definition record_runtime (rank : Z) (runtime : pyfloat) (runs : list (gmap Z pyfloat))
    : result (list (gmap Z pyfloat)) :=
  m ← item_last runs;
  if bool_decide (is_Some (m !! rank))
  then Ok (runs ++ [{[rank := runtime]}])%list
  else Ok (removelast runs ++ [<[rank := runtime]> m])%list.

(** [MdWorkbenchOutput.parse_anywhere] *)
Definition parse_anywhere (self : MdWorkbenchOutput) (line : string)
    : result (MdWorkbenchOutput * bool) :=
  match search _stonewall_runtime_rex line with
  | Some m =>
      let runs := default [∅] (stonewall_runtime self) in
      g1 ← group_text m 1;
      rank ← to_int g1;
      g2 ← group_text m 2;
      runtime ← to_float g2;
      runs ← record_runtime rank runtime runs;
      Ok (set_stonewall_runtime (Some runs) self, true)
  | None =>
      if startswith line "Total runtime" then
        let h := default ∅ (header self) in
        match splitn ":" 2 line with
        | [_; runtime; stamp] =>
            word ← item (split1 "s" (strip runtime)) 0;
            walltime ← to_int word;
            let h := <["walltime" := VInt walltime]> h in
            t ← timestamp (strip stamp) "%Y-%m-%d %H:%M:%S";
            let h := <["end" := VInt t]> h in
            Ok (set_parser find_run_begin (set_header (Some h) self), true)
        | _ => Raise (ValueError "wrong number of values to unpack")
        end
      else Ok (self, false)
  end.

(** [MdWorkbenchOutput.find_run_begin] *)
Definition do_find_run_begin (self : MdWorkbenchOutput) (line : string)
    : result MdWorkbenchOutput :=
  if startswith line "MD-Workbench total" then
    let args := split (strip line) in
    a3 ← item args 3;
    total_objects ← to_int a3;
    size ← humansize2bytes (join (slice 6 8 args));
    version ← item args 9;
    start ← timestamp (join (slice 11 13 args)) "%Y-%m-%d %H:%M:%S";
    Ok (set_parser find_results_line
          (set_header
             (Some (<["start" := VInt start]>
                      (<["version" := VStr version]>
                         (<["workingset_size_bytes" := VFloat size]>
                            (<["total_objects" := VInt total_objects]> ∅)))))
             self))
  else Ok self.

(** [float(args[i].split(":", 1)[-1].rstrip("s"))] and its variants. *)
Definition after_colon (args : list string) (i : nat) : result string :=
  a ← item args i;
  item_last (split1 ":" a).

Definition seconds_field (args : list string) (i : nat) : result pyfloat :=
  text ← after_colon args i;
  to_float (rstrip "s" text).

Definition float_field (args : list string) (i : nat) : result pyfloat :=
  text ← after_colon args i;
  to_float text.

(** The seven statistics of one operation in the record. *)
Definition op_stats (m : found) (rec : record) : result record :=
  opname ← group_text m 1;
  g ← group_text m 2; v_min ← to_float g;
  g ← group_text m 3; v_q1 ← to_float g;
  g ← group_text m 4; v_median ← to_float g;
  g ← group_text m 5; v_q3 ← to_float g;
  g ← group_text m 6; v_q90 ← to_float g;
  g ← group_text m 7; v_q99 ← to_float g;
  g ← group_text m 8; v_max ← to_float g;
  Ok (<[opname ++ "_max_secs" := VFloat v_max]>
     (<[opname ++ "_q99_secs" := VFloat v_q99]>
     (<[opname ++ "_q90_secs" := VFloat v_q90]>
     (<[opname ++ "_q3_secs" := VFloat v_q3]>
     (<[opname ++ "_median_secs" := VFloat v_median]>
     (<[opname ++ "_q1_secs" := VFloat v_q1]>
     (<[opname ++ "_min_secs" := VFloat v_min]> rec))))))).

Fixpoint all_op_stats (ms : list found) (rec : record) : result record :=
  match ms with
  | [] => Ok rec
  | m :: ms => rec ← op_stats m rec; all_op_stats ms rec
  end.

(** [MdWorkbenchOutput.find_results_line] *)
Definition do_find_results_line (self : MdWorkbenchOutput) (line : string)
    : result MdWorkbenchOutput :=
  if startswith line "benchmark process" then
    let args := split (strip line) in
    walltime_max ← seconds_field args 2;
    walltime_min ← seconds_field args 3;
    a5 ← item args 5;
    walltime_mean ← to_float (rstrip "s" a5);
    walltime_std ← float_field args 7;
    iops ← seconds_field args 8;
    num_objects ← float_field args 10;
    cycle_rate ← float_field args 11;
    size ← item (split1 ":" (join (slice 13 15 args))) 1;
    bytes ← humansize2bytes size;
    op_max ← seconds_field args 15;
    a16 ← item args 16;
    num_op_errors ← to_int (lstrip "(" a16);
    a18 ← after_colon args 18;
    stonewall_cycles ← to_int a18;
    let record : record :=
      <["stonewall_cycles" := VInt stonewall_cycles]>
      (<["num_op_errors" := VInt num_op_errors]>
      (<["op_max_secs" := VFloat op_max]>
      (<["bw(mib/s)" := VFloat (float_div bytes (2 ^ 20))]>
      (<["cycle_rate" := VFloat cycle_rate]>
      (<["num_objects" := VFloat num_objects]>
      (<["iops" := VFloat iops]>
      (<["walltime_std_secs" := VFloat walltime_std]>
      (<["walltime_mean_secs" := VFloat walltime_mean]>
      (<["walltime_min_secs" := VFloat walltime_min]>
      (<["walltime_max_secs" := VFloat walltime_max]>
      (<["phase" := VStr "2"]> ∅))))))))))) in
    record ← all_op_stats (finditer _op_stats_record line) record;
    Ok (set_results (Some (default [] (results self) ++ [record])%list) self)
  else Ok self.

(** [BenchmarkOutput.parse_line] *)
Definition parse_line (self : MdWorkbenchOutput) (line : string)
    : result MdWorkbenchOutput :=
  '(self', taken) ← parse_anywhere self line;
  if taken : bool then Ok self'
  else
    match _parser self with
    | find_run_begin => do_find_run_begin self line
    | find_results_line => do_find_results_line self line
    end.

(** [BenchmarkOutput.load_output] under the [try] of [__init__]. *)
Fixpoint load_output (self : MdWorkbenchOutput) (content : list string)
    : result MdWorkbenchOutput :=
  match content with
  | [] => Ok self
  | line :: rest =>
      if bool_decide (line = "") then Ok self
      else self ← parse_line self line; load_output self rest
  end.

(** The loop at the end of [__init__]. *)
Definition normalize (self : MdWorkbenchOutput) : result MdWorkbenchOutput :=
  match results self with
  | None | Some [] => Ok self
  | Some recs =>
      match header self with
      | Some h => Ok (set_results (Some ((fun rec => h ∪ rec) <$> recs)) self)
      | None => Raise (KeyError "header")
      end
  end.

(** [MdWorkbenchOutput(content, normalize_results)] *)
Definition MdWorkbenchOutput_init (content : list string) (normalize_results : bool)
    : result MdWorkbenchOutput :=
  self ← load_output new_output content;
  if normalize_results then normalize self else Ok self.

End Machine.


(** *** What a line can do *)

Lemma append_long (a b k : string) :
  (length (chars k) < length (chars b))%nat -> a ++ b <> k.
Proof.
  intros H E. apply (f_equal (fun s => length (chars s))) in E.
  rewrite chars_app, length_app in E. lia.
Qed.

Ltac bind_ok H :=
  repeat match type of H with
         | (_ ≫= _) = Ok _ =>
             let x := fresh "x" in let Hx := fresh "Hx" in
             apply bind_Ok in H as (x & Hx & H)
         end.

(** The statistics of an operation are stored under keys of eight
    characters or more. *)
Lemma op_stats_frame (m : found) (rec rec' : record) (key : string) :
  op_stats m rec = Ok rec' -> (length (chars key) < 8)%nat ->
  rec' !! key = rec !! key.
Proof.
  unfold op_stats. intros H Hk. bind_ok H. injection H as <-.
  rewrite !lookup_insert_ne; [reflexivity|..];
    apply append_long; simpl; lia.
Qed.

Lemma all_op_stats_frame (ms : list found) (rec rec' : record) (key : string) :
  all_op_stats ms rec = Ok rec' -> (length (chars key) < 8)%nat ->
  rec' !! key = rec !! key.
Proof.
  revert rec. induction ms as [|m ms IH]; intros rec H Hk; simpl in H.
  - injection H as <-. reflexivity.
  - apply bind_Ok in H as (rec1 & H1 & H).
    rewrite (IH _ H Hk). eapply op_stats_frame; eauto.
Qed.

Section Facts.
Variable strptime : string -> string -> option Z.

(** A record as [find_results_line] builds it. *)
Definition benchmark_record (rec : record) : Prop :=
  rec !! "phase" = Some (VStr "2") /\ exists x, rec !! "iops" = Some (VFloat x).

(** The rules of [parse_anywhere]: a per-rank line touches the runtimes
    only; a "Total runtime" line adds the walltime and the end to the header
    and ends the run. *)
Lemma parse_anywhere_inv (self s1 : MdWorkbenchOutput) (line : string) (taken : bool) :
  parse_anywhere strptime self line = Ok (s1, taken) ->
  (taken = false /\ s1 = self /\ startswith line "Total runtime" = false /\
   search _stonewall_runtime_rex line = None) \/
  (taken = true /\ results s1 = results self /\
   ((header s1 = header self /\ _parser s1 = _parser self /\
     is_Some (search _stonewall_runtime_rex line)) \/
    (startswith line "Total runtime" = true /\ _parser s1 = find_run_begin /\
     stonewall_runtime s1 = stonewall_runtime self /\
     exists w t,
       header s1 = Some (<["end" := VInt t]>
                           (<["walltime" := VInt w]> (default ∅ (header self))))))).
Proof.
  unfold parse_anywhere. intros H.
  destruct (search _stonewall_runtime_rex line) as [m|] eqn:Em.
  - right. bind_ok H. injection H as <- <-. simpl.
    repeat split. left. repeat split. eauto.
  - destruct (startswith line "Total runtime") eqn:Et.
    + right. destruct (splitn ":" 2 line) as [|a [|b [|c [|d l]]]];
        try discriminate.
      bind_ok H. injection H as <- <-. simpl. repeat split.
      right. repeat split. eauto.
    + left. injection H as <- <-. auto.
Qed.

(** The handler of the initial state: a line that starts a run replaces
    the header by one with a start time. *)
Lemma find_run_begin_inv (self s1 : MdWorkbenchOutput) (line : string) :
  do_find_run_begin strptime self line = Ok s1 ->
  s1 = self \/
  (startswith line "MD-Workbench total" = true /\
   results s1 = results self /\ stonewall_runtime s1 = stonewall_runtime self /\
   _parser s1 = find_results_line /\
   exists h t, header s1 = Some h /\ h !! "start" = Some (VInt t) /\
               h !! "phase" = None /\ h !! "iops" = None).
Proof.
  unfold do_find_run_begin. intros H.
  destruct (startswith line "MD-Workbench total"); [|injection H as <-; auto].
  right. bind_ok H. injection H as <-. simpl. repeat split.
  eexists _, _. split; [reflexivity|]. split; [apply lookup_insert_eq|].
  split; reflexivity.
Qed.

(** The handler of the results state: a "benchmark process" line appends
    one record. *)
Lemma find_results_line_inv (self s1 : MdWorkbenchOutput) (line : string) :
  do_find_results_line self line = Ok s1 ->
  (startswith line "benchmark process" = false /\ s1 = self) \/
  (startswith line "benchmark process" = true /\
   header s1 = header self /\ stonewall_runtime s1 = stonewall_runtime self /\
   _parser s1 = _parser self /\
   exists rec, benchmark_record rec /\
               results s1 = Some (default [] (results self) ++ [rec])%list).
Proof.
  unfold do_find_results_line. intros H.
  destruct (startswith line "benchmark process"); [|injection H as <-; auto].
  right. bind_ok H. injection H as <-. simpl. repeat split.
  eexists. split; [|reflexivity].
  match goal with
  | H : all_op_stats _ _ = Ok _ |- _ =>
      split;
      [ rewrite (all_op_stats_frame _ _ _ "phase" H) by (simpl; lia)
      | eexists;
        rewrite (all_op_stats_frame _ _ _ "iops" H) by (simpl; lia) ]
  end.
  - rewrite !lookup_insert_ne by discriminate. apply lookup_insert_eq.
  - rewrite !lookup_insert_ne by discriminate. apply lookup_insert_eq.
Qed.


Lemma parse_line_inv (self self' : MdWorkbenchOutput) (line : string) :
  parse_line strptime self line = Ok self' ->
  exists s1 taken,
    parse_anywhere strptime self line = Ok (s1, taken) /\
    (taken = true -> self' = s1) /\
    (taken = false ->
     s1 = self /\
     match _parser self with
     | find_run_begin => do_find_run_begin strptime self line = Ok self'
     | find_results_line => do_find_results_line self line = Ok self'
     end).
Proof.
  unfold parse_line. intros H. apply bind_Ok in H as ([s1 taken] & Ha & H).
  exists s1, taken. split; [exact Ha|]. destruct taken.
  - injection H as <-. split; [reflexivity | discriminate].
  - split; [discriminate|]. intros _.
    apply parse_anywhere_inv in Ha as [(_ & -> & _)|(Ht & _)]; [|discriminate].
    split; [reflexivity|]. destruct (_parser self); exact H.
Qed.

(** What holds of an output at every point of the parse. *)
Definition well_formed (self : MdWorkbenchOutput) : Prop :=
  Forall benchmark_record (default [] (results self)) /\
  (forall h, header self = Some h -> h !! "phase" = None /\ h !! "iops" = None) /\
  (_parser self = find_results_line \/ is_Some (results self) ->
   exists h t, header self = Some h /\ h !! "start" = Some (VInt t)).

Lemma well_formed_step (self self' : MdWorkbenchOutput) (line : string) :
  parse_line strptime self line = Ok self' ->
  well_formed self -> well_formed self'.
Proof.
  intros H (Hrec & Hhead & Hstart).
  apply parse_line_inv in H as (s1 & taken & Ha & Ht & Hf).
  apply parse_anywhere_inv in Ha
    as [(-> & -> & _)|(-> & Hr & [(Hh & Hp & _)|(_ & Hp & _ & w & t & Hh)])].
  - destruct (Hf eq_refl) as [_ Hf']. clear Ht Hf.
    destruct (_parser self) eqn:Hp.
    + apply find_run_begin_inv in Hf'
        as [-> |(_ & Hr & _ & Hp' & h & t & Hh & Hs & Hph & Hio)].
      * split; [|split]; try assumption. rewrite Hp. exact Hstart.
      * split; [rewrite Hr; exact Hrec|]. split.
        -- intros h' Hh'. rewrite Hh in Hh'. injection Hh' as <-. auto.
        -- intros _. eauto.
    + apply find_results_line_inv in Hf'
        as [(_ & ->)|(_ & Hh & _ & Hp' & rec & Hgood & Hr)].
      * split; [|split]; try assumption. rewrite Hp. exact Hstart.
      * split; [|split].
        -- rewrite Hr. simpl. apply Forall_app. split; [exact Hrec|].
           constructor; [exact Hgood | constructor].
        -- rewrite Hh. exact Hhead.
        -- intros _. rewrite Hh. apply Hstart. left. reflexivity || assumption.
  - rewrite (Ht eq_refl). split; [rewrite Hr; exact Hrec|].
    split; [rewrite Hh; exact Hhead|]. rewrite Hh, Hp, Hr. exact Hstart.
  - rewrite (Ht eq_refl). split; [rewrite Hr; exact Hrec|]. split.
    + intros h Hh'. rewrite Hh in Hh'. injection Hh' as <-.
      rewrite !lookup_insert_ne by discriminate.
      destruct (header self) as [h0|] eqn:E; [apply Hhead; reflexivity|].
      split; reflexivity.
    + rewrite Hp, Hr. intros [Hx|Hx]; [discriminate|].
      destruct (Hstart (or_intror Hx)) as (h0 & t0 & Hh0 & Ht0).
      eexists _, t0. split; [exact Hh|]. rewrite Hh0. simpl.
      rewrite !lookup_insert_ne by discriminate. exact Ht0.
Qed.

Lemma well_formed_stream (content : list string) :
  forall self self', load_output strptime self content = Ok self' ->
                     well_formed self -> well_formed self'.
Proof.
  induction content as [|line rest IH]; intros self self' H Hw; simpl in H.
  - injection H as <-. exact Hw.
  - destruct (bool_decide (line = "")); [injection H as <-; exact Hw|].
    apply bind_Ok in H as (s1 & Hs & H).
    eapply IH; [exact H|]. eapply well_formed_step; eauto.
Qed.

(** A line that starts with a letter is no per-rank line. *)
Lemma search_bol_later (r : regex) (l : list ascii) :
  forall p, (0 < p)%nat -> search_from (Seq Bol r) p l = None.
Proof.
  induction l as [|c l IH]; intros p Hp; cbn [search_from run].
  - destruct p; [lia|]. reflexivity.
  - destruct p; [lia|]. simpl. apply IH. lia.
Qed.

Lemma benchmark_line_not_rank (line : string) :
  startswith line "benchmark process" = true ->
  search _stonewall_runtime_rex line = None.
Proof.
  intros H. apply IorFacts.startswith_head in H as [rest ->].
  unfold search, _stonewall_runtime_rex.
  change (chars (String "b" rest)) with ("b"%char :: chars rest).
  cbn [search_from]. simpl head. apply search_bol_later. lia.
Qed.

(** X12: once a run of md-workbench has begun, every line that starts with
    "benchmark process" commits one record.  Over lines that are not empty
    and of which none starts with "Total runtime", a stream that is parsed
    without an exception leaves the parser waiting for result lines and the
    header as it was, and adds to the results as many records as the stream
    has lines that start with "benchmark process". *)
Theorem benchmark_lines_commit_records (body : list string)
    (self self' : MdWorkbenchOutput) :
  _parser self = find_results_line ->
  Forall (fun line => line <> "" /\ startswith line "Total runtime" = false) body ->
  load_output strptime self body = Ok self' ->
  _parser self' = find_results_line /\ header self' = header self /\
  length (default [] (results self'))
  = (length (default [] (results self))
     + length (filter (fun line => startswith line "benchmark process" = true) body))%nat.
Proof.
  revert self. induction body as [|line rest IH]; intros self Hp Hall H; simpl in H.
  - injection H as <-. repeat split; try assumption. simpl. lia.
  - apply Forall_cons in Hall as [[Hne Ht] Hall].
    rewrite bool_decide_eq_false_2 in H by exact Hne.
    apply bind_Ok in H as (s1 & Hs & H).
    assert (Hstep : _parser s1 = find_results_line /\ header s1 = header self /\
              length (default [] (results s1))
              = (length (default [] (results self))
                 + if startswith line "benchmark process" then 1 else 0)%nat).
    { apply parse_line_inv in Hs as (s0 & taken & Ha & Htk & Hf).
      apply parse_anywhere_inv in Ha
        as [(-> & -> & _ & _)|(-> & Hr & [(Hh & Hp' & Hm)|(Ht' & _)])].
      - destruct (Hf eq_refl) as [_ Hf']. rewrite Hp in Hf'.
        apply find_results_line_inv in Hf'
          as [(Hb & ->)|(Hb & Hh & _ & Hp' & rec & _ & Hr)]; rewrite Hb.
        + repeat split; try assumption. lia.
        + repeat split; try congruence. rewrite Hr. simpl.
          rewrite length_app. simpl. lia.
      - rewrite (Htk eq_refl).
        destruct (startswith line "benchmark process") eqn:Hb.
        + rewrite (benchmark_line_not_rank line Hb) in Hm.
          destruct Hm as [? Hm]. discriminate.
        + repeat split; try congruence. rewrite Hr. lia.
      - congruence. }
    destruct Hstep as (Hp1 & Hh1 & Hlen).
    destruct (IH s1 Hp1 Hall H) as (Hp' & Hh' & Hlen').
    repeat split; try congruence.
    rewrite filter_cons.
    destruct (decide (startswith line "benchmark process" = true)) as [E|E].
    + rewrite E in Hlen. simpl. lia.
    + destruct (startswith line "benchmark process"); [contradiction|]. lia.
Qed.

Lemma normalize_records (self self' : MdWorkbenchOutput) :
  normalize self = Ok self' -> well_formed self ->
  forall rec, rec ∈ default [] (results self') ->
    benchmark_record rec /\ exists t, rec !! "start" = Some (VInt t).
Proof.
  unfold normalize. intros H (Hrec & Hhead & Hstart) rec Hin.
  destruct (results self) as [[|r rs]|] eqn:Er.
  - injection H as <-. rewrite Er in Hin. inversion Hin.
  - destruct (Hstart (or_intror (mk_is_Some _ _ eq_refl))) as (h & t & Hh & Ht).
    rewrite Hh in H. injection H as <-.
    destruct (Hhead h Hh) as [Hph Hio].
    change (rec ∈ (fun rec0 : record => h ∪ rec0) <$> (r :: rs)) in Hin.
    apply list_elem_of_fmap in Hin as (r0 & -> & Hin).
    change (Forall benchmark_record (r :: rs)) in Hrec.
    rewrite Forall_forall in Hrec.
    destruct (Hrec r0 Hin) as (Hp0 & x & Hx). split; [split|].
    + rewrite lookup_union_r by exact Hph. exact Hp0.
    + exists x. rewrite lookup_union_r by exact Hio. exact Hx.
    + exists t. apply lookup_union_Some_l. exact Ht.
  - injection H as <-. rewrite Er in Hin. inversion Hin.
Qed.

(** X13: whatever the stream was, every record of a parsed md-workbench
    output has "phase" "2" and a float under "iops", and with
    [normalize_results] also the integer "start" of the header. *)
Theorem benchmark_records_are_complete (content : list string)
    (normalize_results : bool) (self : MdWorkbenchOutput) :
  MdWorkbenchOutput_init strptime content normalize_results = Ok self ->
  forall rec, rec ∈ default [] (results self) ->
    rec !! "phase" = Some (VStr "2") /\
    (exists x, rec !! "iops" = Some (VFloat x)) /\
    (normalize_results = true -> exists t, rec !! "start" = Some (VInt t)).
Proof.
  unfold MdWorkbenchOutput_init. intros H rec Hin.
  destruct (load_output strptime new_output content) as [raw|e] eqn:E;
    cbn [mbind result_bind] in H; [|discriminate].
  assert (Hw : well_formed raw).
  { eapply well_formed_stream; [exact E|].
    split; [constructor|]. split; [discriminate|].
    intros [Hx|[x Hx]]; discriminate. }
  destruct normalize_results.
  - destruct (normalize_records raw self H Hw rec Hin) as ([Hp Hi] & Ht). auto.
  - injection H as <-. destruct Hw as (Hrec & _).
    rewrite Forall_forall in Hrec. destruct (Hrec rec Hin) as [Hp Hi].
    split; [exact Hp|]. split; [exact Hi|]. discriminate.
Qed.
End Facts.

(** A run that has begun, and the lines of one benchmark in it. *)
Definition awaiting_results : MdWorkbenchOutput :=
  set_parser find_results_line new_output.

Definition benchmark_report : list string :=
  [ "0: stonewall runtime 60.1s (1234 iter)";
    "1: stonewall runtime 60.2s (1235 iter)";
    "benchmark process max:60.1s min:60.0s mean: 60.0s balance:99.9 stddev:0.0 rate:12345.6 iops/s objects:123456 rate:2057.6 obj/s tp:0.5 MiB/s op-max:1.2345e-01s (0 errs) stonewall-iter:1234 read(1.1e-04s, 2.2e-04s, 3.3e-04s, 4.4e-04s, 5.5e-04s, 6.6e-04s, 7.7e-04s)" ].

(** The output of one run. *)
Definition md_run : list string :=
  ("MD-Workbench total objects: 120000 workingset size: 0.439 MiB (version: 8049faa@master) time: 2021-08-30 09:57:39"
   :: benchmark_report ++ ["Total runtime: 61s time: 2021-08-30 09:58:40"])%list.

Lemma benchmark_lines_commit_records_witness :
  exists self',
    load_output Clock.strptime awaiting_results benchmark_report = Ok self' /\
    length (default [] (results self')) = 1%nat.
Proof.
  destruct (load_output Clock.strptime awaiting_results benchmark_report)
    as [self'|e] eqn:E; [|vm_compute in E; discriminate].
  exists self'. split; [reflexivity|].
  destruct (benchmark_lines_commit_records Clock.strptime benchmark_report
              awaiting_results self' eq_refl
              ltac:(repeat constructor; (discriminate || reflexivity)) E)
    as (_ & _ & H).
  exact H.
Defined.

Lemma benchmark_records_are_complete_witness :
  exists self rec,
    MdWorkbenchOutput_init Clock.strptime md_run true = Ok self /\
    results self = Some [rec] /\
    rec !! "phase" = Some (VStr "2") /\
    exists t, rec !! "start" = Some (VInt t).
Proof.
  destruct (MdWorkbenchOutput_init Clock.strptime md_run true) as [self|e] eqn:E;
    [|vm_compute in E; discriminate].
  destruct (results self) as [[|rec [|rec' recs]]|] eqn:Er;
    [vm_compute in E; injection E as <-; discriminate
    | | vm_compute in E; injection E as <-; discriminate
    | vm_compute in E; injection E as <-; discriminate].
  exists self, rec. split; [reflexivity|]. split; [exact Er|].
  destruct (benchmark_records_are_complete Clock.strptime md_run true self E rec)
    as (Hp & _ & Hs).
  - rewrite Er. left.
  - split; [exact Hp | exact (Hs eq_refl)].
Defined.

End MdWorkbench.

(** ** load.py: one contention dataset *)

Module Load.
Import PyStr Parse.

(** [os.path.basename(filename)] *)
Definition basename (filename : string) : string :=
  default "" (last (split_on "/" filename)).

(** [a == b] on values: numbers compare by value, text with text, None
    with None. *)
Definition py_eq (a b : pyval) : bool :=
  match a, b with
  | VNone, VNone => true
  | VStr s, VStr t => bool_decide (s = t)
  | VInt x, VInt y => bool_decide (x = y)
  | VInt x, VFloat (Finite q) | VFloat (Finite q), VInt x => Qeq_bool (inject_Z x) q
  | VFloat (Finite p), VFloat (Finite q) => Qeq_bool p q
  | VFloat (Inf s), VFloat (Inf t) => bool_decide (s = t)
  | _, _ => false
  end.

(** [d[key]] *)
Definition getitem (d : record) (key : string) : result pyval :=
  match d !! key with
  | Some v => Ok v
  | None => Raise (KeyError key)
  end.

(** [a, b = l], [a, b, c = l] and [a, b, c, d = l] *)
Definition unpack2 {A : Type} (l : list A) : result (A * A) :=
  match l with
  | [a; b] => Ok (a, b)
  | _ => Raise (ValueError "wrong number of values to unpack")
  end.

Definition unpack3 {A : Type} (l : list A) : result (A * A * A) :=
  match l with
  | [a; b; c] => Ok (a, b, c)
  | _ => Raise (ValueError "wrong number of values to unpack")
  end.

Definition unpack4 {A : Type} (l : list A) : result (A * A * A * A) :=
  match l with
  | [a; b; c; d] => Ok (a, b, c, d)
  | _ => Raise (ValueError "wrong number of values to unpack")
  end.

(** The two classes the loop tries. *)
Inductive loader : Type :=
| IorOutput
| MdWorkbenchOutput.

(** [...['results'][0]] *)
Definition first_result (results : option (list record)) : result record :=
  match results with
  | None => Raise (KeyError "results")
  | Some [] => Raise IndexError
  | Some (rec :: _) => Ok rec
  end.

(** The name of a file as the loop of [load_contention_dataset] reads it:
    what the name says about the job. *)
Record job : Type := mkJob {
  access : pyval;
  metric : string;
  contention : string;
  primary_nodes : Z;
  secondary_nodes : Z
}.

(** One entry of [min_starts]: [{"min start": ..., "primary workload": ...}]
    under its dataset id. *)
Record earliest : Type := mkEarliest {
  key : pyval;
  min_start : pyval;
  primary_workload : pyval
}.

Section Dataset.

(** The clock of the parsers, and [str(x)] for a float [x], which
    [str.format] applies to an access that is a float. *)
Variable strptime : string -> string -> option Z.
Variable format_float : pyfloat -> string.

(** [str(v)] *)
Definition py_str (v : pyval) : string :=
  match v with
  | VNone => "None"
  | VInt n => str_of_Z n
  | VFloat x => format_float x
  | VStr s => s
  end.

(** [loader(open(filename, "r"), normalize_results=True)['results'][0]] *)
Definition load_with (l : loader) (content : list string) : result record :=
  match l with
  | IorOutput =>
      o ← IorOutput_init strptime content true;
      first_result (Parse.results o)
  | MdWorkbenchOutput =>
      o ← MdWorkbench.MdWorkbenchOutput_init strptime content true;
      first_result (MdWorkbench.results o)
  end.

(** The loop over the two loaders: a [KeyError] passes on to the next one,
    a record ends the loop, any other exception leaves the function. *)
Definition try_loaders (content : list string) : result (option (loader * record)) :=
  match load_with IorOutput content with
  | Ok rec => Ok (Some (IorOutput, rec))
  | Raise (KeyError _) =>
      match load_with MdWorkbenchOutput content with
      | Ok rec => Ok (Some (MdWorkbenchOutput, rec))
      | Raise (KeyError _) => Ok None
      | Raise e => Raise e
      end
  | Raise e => Raise e
  end.

(** "decode job metadata from filename - new way
    (secondary_quiet.7p-1s.2125435.out)": the job, the dataset id the name
    gives and the record with its two new entries. *)
Definition decode_new (basename : string) (l : loader) (rec : record)
    : result (job * string * record) :=
  let access := default VNone (rec !! "access") in
  '(access, metric) ←
    match l with
    | MdWorkbenchOutput => Ok (VStr "both", "metadata")
    | IorOutput =>
        ordering ← getitem rec "ordering";
        Ok (access, if py_eq ordering (VStr "random") then "iops" else "bw")
    end;
  '(workloadid_contention, nodect, dataset_id, _) ← unpack4 (split_on "." basename);
  '(workload_id, contention) ← unpack2 (split_on "_" workloadid_contention);
  p ← item (split1 "p" nodect) 0;
  primary_nodes ← to_int p;
  s ← item_last (split1 "-" nodect);
  s ← item (split1 "s" s) 0;
  secondary_nodes ← to_int s;
  Ok (mkJob access metric contention primary_nodes secondary_nodes, dataset_id,
      <["workload_id" := VStr workload_id]>
        (<["dataset_id" := VStr dataset_id]> rec)).

(** "decode job metadata from filename", the old way. *)
Definition decode_old (basename : string) : result job :=
  '(access_metric_contention, nodect, _, _) ← unpack4 (split_on "." basename);
  '(access, metric, contention) ← unpack3 (split_on "_" access_metric_contention);
  p ← item (split1 "b" nodect) 0;
  primary_nodes ← to_int p;
  s ← item_last (split1 "-" nodect);
  s ← item (split1 "i" s) 0;
  secondary_nodes ← to_int s;
  Ok (mkJob (VStr access) metric contention primary_nodes secondary_nodes).

(** "add job metadata to record" and the performance of the job. *)
Definition describe (j : job) (basename : string) (dataset_id : option string)
    (rec : record) : result record :=
  let record :=
    <["filename" := VStr basename]>
    (<["workload" := VStr (py_str (access j) ++ " " ++ metric j)]>
    (<["contention" := VStr (contention j)]>
    (<["metric" := VStr (metric j)]>
    (<["access" := access j]>
    (<["secondary_nodes" := VInt (secondary_nodes j)]>
    (<["primary_nodes" := VInt (primary_nodes j)]> rec)))))) in
  let record :=
    match dataset_id with
    | Some id => if bool_decide (id = "") then record
                 else <["dataset_id" := VStr id]> record
    | None => record
    end in
  if bool_decide (metric j = "bw") then
    v ← getitem record "bw(mib/s)"; Ok (<["performance" := v]> record)
  else if bool_decide (metric j = "iops") then
    v ← getitem record "iops"; Ok (<["performance" := v]> record)
  else if bool_decide (metric j = "metadata") then
    v ← getitem record "iops"; Ok (<["performance" := v]> record)
  else Raise (ValueError ("unknown metric " ++ metric j)).

(** The first loop, over the files the glob matches, each with its
    content: the records, the warnings, and the variable [dataset_id], which
    a file named the new way overwrites. *)
Fixpoint load_files (files : list (string * list string)) (dataset_id : option string)
    : result (list record * list string) :=
  match files with
  | [] => Ok ([], [])
  | (filename, content) :: files =>
      found ← try_loaders content;
      match found with
      | None =>
          '(records, warnings) ← load_files files dataset_id;
          Ok (records,
              (basename filename ++ " does not contain valid output") :: warnings)
      | Some (l, record) =>
          let basename := basename filename in
          '(j, dataset_id, record) ←
            (if startswith basename "primary" || startswith basename "secondary"
             then
               '(j, id, record) ← decode_new basename l record;
               Ok (j, Some id, record)
             else
               j ← decode_old basename;
               Ok (j, dataset_id, record));
          record ← describe j basename dataset_id record;
          '(records, warnings) ← load_files files dataset_id;
          Ok (record :: records, warnings)
      end
  end.

(** [min_starts.get(key)] *)
Fixpoint lookup_earliest (k : pyval) (min_starts : list earliest) : option earliest :=
  match min_starts with
  | [] => None
  | e :: min_starts => if py_eq (key e) k then Some e else lookup_earliest k min_starts
  end.

Fixpoint store_earliest (e : earliest) (min_starts : list earliest) : list earliest :=
  match min_starts with
  | [] => [e]
  | e' :: min_starts =>
      if py_eq (key e') (key e) then e :: min_starts
      else e' :: store_earliest e min_starts
  end.

(** "set the primary workload - always the first to run during the quiet
    tests": the second loop. *)
Fixpoint earliest_quiet (records : list record) (min_starts : list earliest)
    : result (list earliest) :=
  match records with
  | [] => Ok min_starts
  | record :: records =>
      c ← getitem record "contention";
      if negb (py_eq c (VStr "quiet")) then earliest_quiet records min_starts
      else
        dataset_id ← getitem record "dataset_id";
        later ←
          match lookup_earliest dataset_id min_starts with
          | None => Ok true
          | Some rec => start ← getitem record "start"; py_lt start (min_start rec)
          end;
        if later : bool then
          start ← getitem record "start";
          workload ← getitem record "workload";
          earliest_quiet records
            (store_earliest (mkEarliest dataset_id start workload) min_starts)
        else earliest_quiet records min_starts
  end.

(** The third loop: the primary workload of the dataset and, for a record
    without one, the workload id. *)
Definition label (min_starts : list earliest) (rec : record) : result record :=
  let primary :=
    match lookup_earliest (default VNone (rec !! "dataset_id")) min_starts with
    | Some rec => primary_workload rec
    | None => VNone
    end in
  let record := <["primary_workload" := primary]> rec in
  match record !! "workload_id" with
  | Some _ => Ok record
  | None =>
      workload ← getitem record "workload";
      Ok (<["workload_id" :=
              VStr (if py_eq primary workload then "primary" else "secondary")]>
            record)
  end.

Fixpoint label_all (min_starts : list earliest) (records : list record)
    : result (list record) :=
  match records with
  | [] => Ok []
  | record :: records =>
      record ← label min_starts record;
      records ← label_all min_starts records;
      Ok (record :: records)
  end.

(** [load_contention_dataset(dataset_glob, dataset_id, as_records=True)],
    the glob being given by the files it matches: the records (of which the
    frame is built otherwise) and the warnings. *)
Definition load_contention_dataset (files : list (string * list string))
    (dataset_id : option string) : result (list record * list string) :=
  '(records, warnings) ← load_files files dataset_id;
  min_starts ← earliest_quiet records [];
  records ← label_all min_starts records;
  match records with
  | [] => Raise (ValueError "Invalid datasets")
  | _ => Ok (records, warnings)
  end.

End Dataset.

(** *** Splitting a name at its separators *)



Lemma split1_chars_none (sep : ascii) (a : list ascii) :
  sep ∉ a -> split1_chars sep a = [a].
Proof.
  induction a as [|c a IH]; intros H; simpl; [reflexivity|].
  apply not_elem_of_cons in H as [Hc H].
  rewrite bool_decide_eq_false_2 by congruence. rewrite IH by exact H. reflexivity.
Qed.


(** A text in which none of the characters of [set] occurs. *)
Definition free (set text : string) : Prop :=
  forall c, c ∈ chars set -> c ∉ chars text.

Lemma free_app (set a b : string) : free set a -> free set b -> free set (a ++ b).
Proof.
  intros Ha Hb c Hc. rewrite Re.chars_app. rewrite not_elem_of_app.
  split; [apply Ha | apply Hb]; exact Hc.
Qed.

Lemma digits_free (set text : string) :
  Filename.digits text -> Forall (fun c => isdigit c = false) (chars set) ->
  free set text.
Proof.
  intros [_ Hd] Hs c Hc Hin.
  rewrite Forall_forall in Hd, Hs.
  specialize (Hd c Hin). specialize (Hs c Hc). unfold Re.digit in Hd. congruence.
Qed.






(** *** The two naming conventions *)








(** *** The loops *)

Section Loops.
Variable strptime : string -> string -> option Z.
Variable format_float : pyfloat -> string.

(** The keys every record of a dataset has. *)
Definition described : list string :=
  [ "primary_nodes"; "secondary_nodes"; "access"; "metric"; "contention";
    "workload"; "filename"; "performance" ].

Definition schema : list string :=
  (described ++ [ "primary_workload"; "workload_id" ])%list.

Definition has_keys (keys : list string) (rec : record) : Prop :=
  Forall (fun k => is_Some (rec !! k)) keys.

Lemma has_keys_insert (keys : list string) (rec : record) (k : string) (v : pyval) :
  has_keys keys rec -> has_keys keys (<[k := v]> rec).
Proof.
  unfold has_keys. intros H. eapply Forall_impl; [exact H|].
  intros key [x Hx]. simpl.
  destruct (decide (k = key)) as [->|Hne].
  - rewrite lookup_insert_eq. eauto.
  - rewrite lookup_insert_ne by exact Hne. eauto.
Qed.

Lemma describe_keys (j : job) (name : string) (dataset_id : option string)
    (rec rec' : record) :
  describe format_float j name dataset_id rec = Ok rec' ->
  has_keys described rec' /\ rec' !! "contention" = Some (VStr (contention j)).
Proof.
  unfold describe. intros H.
  set (r1 := <["filename" := VStr name]> _) in H.
  assert (H1 : has_keys (take 7 described) r1 /\
               r1 !! "contention" = Some (VStr (contention j))).
  { subst r1. split.
    - repeat constructor; simpl;
        rewrite ?lookup_insert_eq; eauto;
        repeat (rewrite lookup_insert_ne by discriminate);
        rewrite ?lookup_insert_eq; eauto.
    - repeat (rewrite lookup_insert_ne by discriminate).
      apply lookup_insert_eq. }
  set (r2 := match dataset_id with Some _ => _ | None => _ end) in H.
  assert (H2 : has_keys (take 7 described) r2 /\
               r2 !! "contention" = Some (VStr (contention j))).
  { subst r2. destruct dataset_id as [id|]; [|exact H1].
    destruct (bool_decide (id = "")); [exact H1|].
    destruct H1 as [Hk Hc]. split; [apply has_keys_insert; exact Hk|].
    rewrite lookup_insert_ne by discriminate. exact Hc. }
  clearbody r2. clear H1 r1. destruct H2 as [Hk Hc].
  assert (Hfin : forall v, has_keys described (<["performance" := v]> r2) /\
                           <["performance" := v]> r2 !! "contention"
                           = Some (VStr (contention j))).
  { intros v. split.
    - unfold has_keys, described.
      change (Forall (fun k => is_Some (<["performance" := v]> r2 !! k))
                (take 7 described ++ ["performance"])%list).
      apply Forall_app. split; [apply has_keys_insert; exact Hk|].
      constructor; [|constructor]. rewrite lookup_insert_eq. eauto.
    - rewrite lookup_insert_ne by discriminate. exact Hc. }
  repeat match type of H with
         | (if ?b then _ else _) = Ok _ => destruct b
         end;
    try discriminate;
    apply bind_Ok in H as (v & _ & H); injection H as <-; apply Hfin.
Qed.

(** Every file gives a record or a warning, and a record has all the
    described keys. *)
Lemma load_files_keys (files : list (string * list string)) :
  forall (dataset_id : option string) (records : list record) (warnings : list string),
    load_files strptime format_float files dataset_id = Ok (records, warnings) ->
    (length records + length warnings = length files)%nat /\
    Forall (has_keys described) records.
Proof.
  induction files as [|[filename content] files IH];
    intros dataset_id records warnings H; cbn [load_files] in H.
  - injection H as <- <-. split; [reflexivity | constructor].
  - apply bind_Ok in H as (found & _ & H). destruct found as [[l rec]|].
    + apply bind_Ok in H as ([[j id] rec1] & _ & H).
      apply bind_Ok in H as (rec2 & Hd & H).
      apply bind_Ok in H as ([recs ws] & Hrest & H).
      injection H as <- <-. apply IH in Hrest as [Hlen Hall].
      split; [simpl; lia|]. constructor; [|exact Hall].
      apply describe_keys in Hd as [Hk _]. exact Hk.
    + apply bind_Ok in H as ([recs ws] & Hrest & H).
      injection H as <- <-. apply IH in Hrest as [Hlen Hall].
      split; [simpl; lia | exact Hall].
Qed.

Lemma label_keys (min_starts : list earliest) (rec rec' : record) :
  label min_starts rec = Ok rec' ->
  has_keys described rec -> has_keys schema rec'.
Proof.
  unfold label. intros H Hk.
  set (primary := match lookup_earliest _ _ with Some _ => _ | None => _ end) in H.
  clearbody primary.
  assert (H1 : has_keys (described ++ ["primary_workload"])%list
                 (<["primary_workload" := primary]> rec)).
  { apply Forall_app. split; [apply has_keys_insert; exact Hk|].
    constructor; [|constructor]. rewrite lookup_insert_eq. eauto. }
  destruct (<["primary_workload" := primary]> rec !! "workload_id") as [v|] eqn:E.
  - injection H as <-. unfold schema.
    change (described ++ ["primary_workload"; "workload_id"])%list
      with (described ++ ["primary_workload"] ++ ["workload_id"])%list.
    rewrite app_assoc. apply Forall_app. split; [exact H1|].
    constructor; [|constructor]. rewrite E. eauto.
  - apply bind_Ok in H as (w & _ & H). injection H as <-. unfold schema.
    change (described ++ ["primary_workload"; "workload_id"])%list
      with (described ++ ["primary_workload"] ++ ["workload_id"])%list.
    rewrite app_assoc. apply Forall_app. split; [apply has_keys_insert; exact H1|].
    constructor; [|constructor]. rewrite lookup_insert_eq. eauto.
Qed.

Lemma label_all_keys (min_starts : list earliest) (records : list record) :
  forall records',
    label_all min_starts records = Ok records' ->
    Forall (has_keys described) records ->
    length records' = length records /\ Forall (has_keys schema) records'.
Proof.
  induction records as [|rec records IH]; intros records' H Hall; simpl in H.
  - injection H as <-. split; [reflexivity | constructor].
  - apply Forall_cons in Hall as [Hk Hall].
    apply bind_Ok in H as (rec' & Hl & H).
    apply bind_Ok in H as (rest & Hrest & H). injection H as <-.
    destruct (IH rest Hrest Hall) as [Hlen Hs].
    split; [simpl; lia|]. constructor; [|exact Hs].
    eapply label_keys; eauto.
Qed.

(** X15: every file is accounted for.  A call that returns gives at least
    one record; the records and the warnings ("<name> does not contain
    valid output") are together as many as the files the glob matched; and
    every record has the keys "primary_nodes", "secondary_nodes", "access",
    "metric", "contention", "workload", "filename", "performance",
    "primary_workload" and "workload_id". *)
Theorem every_file_is_accounted_for (files : list (string * list string))
    (dataset_id : option string) (records : list record) (warnings : list string) :
  load_contention_dataset strptime format_float files dataset_id
  = Ok (records, warnings) ->
  records <> [] /\
  (length records + length warnings = length files)%nat /\
  forall rec key, rec ∈ records -> key ∈ schema -> is_Some (rec !! key).
Proof.
  unfold load_contention_dataset. intros H.
  apply bind_Ok in H as ([recs ws] & Hfiles & H).
  apply bind_Ok in H as (min_starts & _ & H).
  apply bind_Ok in H as (labelled & Hlab & H).
  apply load_files_keys in Hfiles as [Hlen Hall].
  apply label_all_keys in Hlab as [Hlen' Hs]; [|exact Hall].
  destruct labelled as [|r rs]; [discriminate|]. injection H as <- <-.
  split; [discriminate|]. split; [lia|].
  intros rec key Hrec Hkey. rewrite Forall_forall in Hs.
  specialize (Hs rec Hrec). unfold has_keys in Hs. rewrite Forall_forall in Hs.
  apply Hs. exact Hkey.
Qed.

Lemma load_files_invalid (files : list (string * list string))
    (dataset_id : option string) :
  Forall (fun file => try_loaders strptime file.2 = Ok None) files ->
  exists warnings,
    load_files strptime format_float files dataset_id = Ok ([], warnings) /\
    length warnings = length files.
Proof.
  induction 1 as [|[filename content] files Hf _ IH]; cbn [load_files].
  - exists []. split; reflexivity.
  - simpl in Hf. rewrite Hf. cbn [mbind result_bind].
    destruct IH as (ws & -> & Hlen). cbn [mbind result_bind].
    eexists. split; [reflexivity|]. simpl. lia.
Qed.

(** X16: when in every file both parsers find no result (each ends in a
    KeyError), the call raises ValueError "Invalid datasets", and so it does
    for a glob that matches no file. *)
Theorem no_valid_output_is_an_error (files : list (string * list string))
    (dataset_id : option string) :
  Forall (fun file => try_loaders strptime file.2 = Ok None) files ->
  load_contention_dataset strptime format_float files dataset_id
  = Raise (ValueError "Invalid datasets").
Proof.
  intros H. unfold load_contention_dataset.
  destruct (load_files_invalid files dataset_id H) as (ws & -> & _).
  reflexivity.
Qed.

(** X17: a file named the new way overwrites the argument [dataset_id].
    When the first file of the glob has a name that starts with "primary"
    or "secondary" and is not skipped as invalid output, the call gives the
    same result, or raises the same exception, whatever [dataset_id] it is
    given. *)
Theorem dataset_id_argument_is_overwritten (filename : string) (content : list string)
    (files : list (string * list string)) (given other : option string) :
  startswith (basename filename) "primary"
  || startswith (basename filename) "secondary" = true ->
  try_loaders strptime content <> Ok None ->
  load_contention_dataset strptime format_float ((filename, content) :: files) given
  = load_contention_dataset strptime format_float ((filename, content) :: files) other.
Proof.
  intros Hname Hvalid. unfold load_contention_dataset.
  assert (H : load_files strptime format_float ((filename, content) :: files) given
              = load_files strptime format_float ((filename, content) :: files) other).
  { cbn [load_files].
    destruct (try_loaders strptime content) as [[[l rec]|]|e];
      [|contradiction|reflexivity].
    cbn [mbind result_bind]. rewrite Hname. reflexivity. }
  rewrite H. reflexivity.
Qed.

End Loops.

(** *** The primary workload *)

(** A quiet record of the dataset [d]. *)
Definition quiet_in (d : string) (rec : record) : Prop :=
  rec !! "contention" = Some (VStr "quiet") /\ rec !! "dataset_id" = Some (VStr d).

Lemma py_eq_text (v : pyval) (d : string) : py_eq v (VStr d) = true <-> v = VStr d.
Proof.
  destruct v as [|n|[q|b|]|t]; simpl; split; try discriminate.
  - intros H. apply bool_decide_eq_true in H as ->. reflexivity.
  - intros [= ->]. apply bool_decide_eq_true_2. reflexivity.
Qed.

Lemma py_eq_text_l (v : pyval) (d : string) : py_eq (VStr d) v = true <-> v = VStr d.
Proof.
  destruct v as [|n|[q|b|]|t]; simpl; split; try discriminate.
  - intros H. apply bool_decide_eq_true in H as ->. reflexivity.
  - intros [= ->]. apply bool_decide_eq_true_2. reflexivity.
Qed.

Lemma text_or_not (v : pyval) (d : string) : v = VStr d \/ v <> VStr d.
Proof.
  destruct (py_eq v (VStr d)) eqn:E.
  - left. apply py_eq_text. exact E.
  - right. intros Hv. apply py_eq_text in Hv. congruence.
Qed.

Lemma lookup_store_same (d : string) (s w : pyval) (min_starts : list earliest) :
  lookup_earliest (VStr d) (store_earliest (mkEarliest (VStr d) s w) min_starts)
  = Some (mkEarliest (VStr d) s w).
Proof.
  induction min_starts as [|e ms IH]; simpl.
  - rewrite bool_decide_eq_true_2 by reflexivity. reflexivity.
  - destruct (py_eq (key e) (VStr d)) eqn:E; simpl.
    + rewrite bool_decide_eq_true_2 by reflexivity. reflexivity.
    + rewrite E. exact IH.
Qed.

Lemma lookup_store_other (d : string) (e : earliest) (min_starts : list earliest) :
  key e <> VStr d ->
  lookup_earliest (VStr d) (store_earliest e min_starts)
  = lookup_earliest (VStr d) min_starts.
Proof.
  intros Hne.
  assert (He : py_eq (key e) (VStr d) = false).
  { destruct (py_eq (key e) (VStr d)) eqn:E; [|reflexivity].
    apply py_eq_text in E. contradiction. }
  induction min_starts as [|e' ms IH]; simpl.
  - rewrite He. reflexivity.
  - destruct (py_eq (key e') (key e)) eqn:E; simpl.
    + rewrite He. destruct (py_eq (key e') (VStr d)) eqn:E'; [|reflexivity].
      apply py_eq_text in E'. rewrite E' in E. apply py_eq_text_l in E.
      contradiction.
    + destruct (py_eq (key e') (VStr d)); [reflexivity | exact IH].
Qed.

(** What one record does to [min_starts]. *)
Lemma earliest_quiet_step (rec : record) (records : list record)
    (min_starts out : list earliest) :
  earliest_quiet (rec :: records) min_starts = Ok out ->
  exists min_starts',
    earliest_quiet records min_starts' = Ok out /\
    (min_starts' = min_starts \/
     exists k s w,
       rec !! "contention" = Some (VStr "quiet") /\ rec !! "dataset_id" = Some k /\
       rec !! "start" = Some s /\ rec !! "workload" = Some w /\
       min_starts' = store_earliest (mkEarliest k s w) min_starts) /\
    (forall d e s,
       quiet_in d rec -> lookup_earliest (VStr d) min_starts = Some e ->
       rec !! "start" = Some s ->
       exists less, py_lt s (min_start e) = Ok less /\
         (less = false -> min_starts' = min_starts)) /\
    (forall d, quiet_in d rec -> lookup_earliest (VStr d) min_starts = None ->
       exists s w, rec !! "start" = Some s /\ rec !! "workload" = Some w /\
         min_starts' = store_earliest (mkEarliest (VStr d) s w) min_starts) /\
    (forall d e s w,
       quiet_in d rec -> lookup_earliest (VStr d) min_starts = Some e ->
       rec !! "start" = Some s -> rec !! "workload" = Some w ->
       py_lt s (min_start e) = Ok true ->
       min_starts' = store_earliest (mkEarliest (VStr d) s w) min_starts).
Proof.
  cbn [earliest_quiet]. unfold getitem. intros H.
  destruct (rec !! "contention") as [c|] eqn:Ec; [|discriminate].
  cbn [mbind result_bind] in H.
  destruct (py_eq c (VStr "quiet")) eqn:Eq; cbn [negb] in H.
  - apply py_eq_text in Eq as ->.
    destruct (rec !! "dataset_id") as [k|] eqn:Ek; [|discriminate].
    cbn [mbind result_bind] in H.
    destruct (lookup_earliest k min_starts) as [e|] eqn:El.
    + destruct (rec !! "start") as [s|] eqn:Es; [|discriminate].
      cbn [mbind result_bind] in H.
      destruct (py_lt s (min_start e)) as [less|] eqn:Elt; [|discriminate].
      cbn [mbind result_bind] in H. destruct less.
      * cbn [mbind result_bind] in H.
        destruct (rec !! "workload") as [w|] eqn:Ew; [|discriminate].
        cbn [mbind result_bind] in H.
        eexists. split; [exact H|]. split; [right; eauto 10|].
        split; [|split].
        -- intros d e' s' [_ Hd] Hl Hs. rewrite Ek in Hd. injection Hd as ->.
           rewrite El in Hl. injection Hl as <-. injection Hs as <-.
           exists true. split; [exact Elt | discriminate].
        -- intros d [_ Hd] Hl. rewrite Ek in Hd. injection Hd as ->. congruence.
        -- intros d e' s' w' [_ Hd] Hl Hs Hw _. rewrite Ek in Hd.
           injection Hd as ->. injection Hs as <-. injection Hw as <-. reflexivity.
      * eexists. split; [exact H|]. split; [left; reflexivity|].
        split; [|split].
        -- intros d e' s' [_ Hd] Hl Hs. rewrite Ek in Hd. injection Hd as ->.
           rewrite El in Hl. injection Hl as <-. injection Hs as <-.
           exists false. split; [exact Elt | reflexivity].
        -- intros d [_ Hd] Hl. rewrite Ek in Hd. injection Hd as ->. congruence.
        -- intros d e' s' w' [_ Hd] Hl Hs Hw Hlt. rewrite Ek in Hd.
           injection Hd as ->. rewrite El in Hl. injection Hl as <-.
           injection Hs as <-. congruence.
    + cbn [mbind result_bind] in H.
      destruct (rec !! "start") as [s|] eqn:Es; [|discriminate].
      cbn [mbind result_bind] in H.
      destruct (rec !! "workload") as [w|] eqn:Ew; [|discriminate].
      cbn [mbind result_bind] in H.
      eexists. split; [exact H|]. split; [right; eauto 10|].
      split; [|split].
      * intros d e' s' [_ Hd] Hl Hs. rewrite Ek in Hd. injection Hd as ->. congruence.
      * intros d [_ Hd] Hl. rewrite Ek in Hd. injection Hd as ->. eauto.
      * intros d e' s' w' [_ Hd] Hl Hs Hw _. rewrite Ek in Hd.
        injection Hd as ->. congruence.
  - eexists. split; [exact H|]. split; [left; reflexivity|].
    assert (Hnq : forall d, ~ quiet_in d rec).
    { intros d [Hc _]. rewrite Ec in Hc. injection Hc as ->. discriminate. }
    split; [|split].
    + intros d e s Hq. destruct (Hnq d Hq).
    + intros d Hq. destruct (Hnq d Hq).
    + intros d e s w Hq. destruct (Hnq d Hq).
Qed.

(** A record of another dataset, or one that is not quiet, leaves the
    entry of the dataset alone. *)
Lemma earliest_quiet_other (d : string) (rec : record) (records : list record)
    (min_starts out : list earliest) :
  earliest_quiet (rec :: records) min_starts = Ok out ->
  ~ quiet_in d rec ->
  exists min_starts',
    earliest_quiet records min_starts' = Ok out /\
    lookup_earliest (VStr d) min_starts' = lookup_earliest (VStr d) min_starts.
Proof.
  intros H Hnq.
  apply earliest_quiet_step in H as (ms' & Hrest & Hshape & _).
  exists ms'. split; [exact Hrest|].
  destruct Hshape as [-> |(k & s & w & Hc & Hk & _ & _ & ->)]; [reflexivity|].
  apply lookup_store_other. simpl. intros ->. apply Hnq. split; assumption.
Qed.

Section Earliest.
Variables (d : string) (q : record) (s w : pyval).
Hypothesis Hquiet : quiet_in d q.
Hypothesis Hstart : q !! "start" = Some s.
Hypothesis Hworkload : q !! "workload" = Some w.

(** Before [q]: whatever start the dataset has so far, [q] starts before
    it. *)
Lemma before_earliest (before : list record) :
  forall (rest : list record) (min_starts out : list earliest),
    (forall r v, r ∈ before -> quiet_in d r -> r !! "start" = Some v ->
       py_lt s v = Ok true) ->
    (forall e, lookup_earliest (VStr d) min_starts = Some e ->
       py_lt s (min_start e) = Ok true) ->
    earliest_quiet (before ++ rest) min_starts = Ok out ->
    exists min_starts',
      earliest_quiet rest min_starts' = Ok out /\
      (forall e, lookup_earliest (VStr d) min_starts' = Some e ->
         py_lt s (min_start e) = Ok true).
Proof.
  induction before as [|r before IH]; intros rest ms out Hbefore Hinv H.
  - exists ms. auto.
  - change ((r :: before) ++ rest)%list with (r :: (before ++ rest))%list in H.
    assert (Hb' : forall r' v, r' ∈ before -> quiet_in d r' ->
              r' !! "start" = Some v -> py_lt s v = Ok true).
    { intros r' v Hin. apply Hbefore. right. exact Hin. }
    pose proof H as H'.
    apply earliest_quiet_step in H as (ms' & Hrest & Hshape & _).
    eapply IH; [exact Hb' | | exact Hrest].
    destruct Hshape as [-> |(k & s' & w' & Hc & Hk & Hs & Hw & ->)]; [exact Hinv|].
    intros e He. destruct (text_or_not k d) as [->|Hne].
    + rewrite lookup_store_same in He. injection He as <-. simpl.
      apply (Hbefore r s'); [left | split; assumption | exact Hs].
    + rewrite lookup_store_other in He by exact Hne. apply Hinv. exact He.
Qed.

(** After [q]: no later record of the dataset starts before it. *)
Lemma after_earliest (after : list record) :
  forall (min_starts out : list earliest) (e : earliest),
    (forall r v, r ∈ after -> quiet_in d r -> r !! "start" = Some v ->
       py_lt v s = Ok false) ->
    lookup_earliest (VStr d) min_starts = Some e ->
    min_start e = s -> primary_workload e = w ->
    earliest_quiet after min_starts = Ok out ->
    exists e', lookup_earliest (VStr d) out = Some e' /\ primary_workload e' = w.
Proof.
  induction after as [|r after IH]; intros ms out e Hafter Hl Hs Hw H.
  - simpl in H. injection H as <-. eauto.
  - assert (Ha' : forall r' v, r' ∈ after -> quiet_in d r' ->
              r' !! "start" = Some v -> py_lt v s = Ok false).
    { intros r' v Hin. apply Hafter. right. exact Hin. }
    apply earliest_quiet_step in H as (ms' & Hrest & Hshape & Hsome & _).
    assert (Hl' : lookup_earliest (VStr d) ms' = Some e).
    { destruct Hshape as [-> |(k & s' & w' & Hc & Hk & Hs' & Hw' & Hms)];
        [exact Hl|].
      destruct (text_or_not k d) as [->|Hne].
      - destruct (Hsome d e s' (conj Hc Hk) Hl Hs') as (less & Hlt & Hkeep).
        rewrite Hs in Hlt.
        rewrite (Hafter r s' ltac:(left) (conj Hc Hk) Hs') in Hlt.
        injection Hlt as <-. rewrite (Hkeep eq_refl). exact Hl.
      - rewrite Hms. rewrite lookup_store_other by exact Hne. exact Hl. }
    eapply IH; eauto.
Qed.

End Earliest.

Lemma label_all_inv (min_starts : list earliest) (records out : list record) :
  label_all min_starts records = Ok out ->
  forall rec', rec' ∈ out -> exists rec, rec ∈ records /\ label min_starts rec = Ok rec'.
Proof.
  revert out. induction records as [|r records IH]; intros out H rec' Hin.
  - simpl in H. injection H as <-. inversion Hin.
  - cbn [label_all] in H.
    destruct (label min_starts r) as [r1|] eqn:E1; [|discriminate].
    cbn [mbind result_bind] in H.
    destruct (label_all min_starts records) as [rs|] eqn:E2; [|discriminate].
    cbn [mbind result_bind] in H. injection H as <-.
    apply elem_of_cons in Hin as [->|Hin].
    + exists r. split; [left | exact E1].
    + destruct (IH rs eq_refl rec' Hin) as (r0 & Hr0 & Hl).
      exists r0. split; [right; exact Hr0 | exact Hl].
Qed.

(** Labelling a record writes "primary_workload" (and "workload_id" where
    absent), nothing else. *)
Lemma label_primary (min_starts : list earliest) (rec rec' : record) :
  label min_starts rec = Ok rec' ->
  rec' !! "dataset_id" = rec !! "dataset_id" /\
  rec' !! "primary_workload"
  = Some match lookup_earliest (default VNone (rec !! "dataset_id")) min_starts with
         | Some e => primary_workload e
         | None => VNone
         end.
Proof.
  unfold label, getitem. intros H.
  destruct (<["primary_workload" := _]> rec !! "workload_id") eqn:E.
  - injection H as <-. split.
    + apply lookup_insert_ne. discriminate.
    + apply lookup_insert_eq.
  - destruct (<["primary_workload" := _]> rec !! "workload"); [|discriminate].
    cbn [mbind result_bind] in H. injection H as <-. split.
    + rewrite lookup_insert_ne by discriminate.
      apply lookup_insert_ne. discriminate.
    + rewrite lookup_insert_ne by discriminate. apply lookup_insert_eq.
Qed.

Section Primary.
Variable strptime : string -> string -> option Z.
Variable format_float : pyfloat -> string.

(** X18: the primary workload of a dataset is the workload of its first
    quiet run.  Let the files that hold valid output give, in the order of
    the glob, the records [before ++ q :: after], where [q] is a quiet
    record of the dataset [d] that starts strictly before every quiet
    record of [d] before it, and no quiet record of [d] after it starts
    before [q].  Then every record the call returns for the dataset [d]
    has the workload of [q] as its "primary_workload". *)
Theorem primary_workload_is_first_quiet (files : list (string * list string))
    (dataset_id : option string) (before after : list record) (q : record)
    (d : string) (s w : pyval) (warnings warnings' : list string)
    (records : list record) :
  load_files strptime format_float files dataset_id
  = Ok ((before ++ q :: after)%list, warnings) ->
  quiet_in d q -> q !! "start" = Some s -> q !! "workload" = Some w ->
  (forall r v, r ∈ before -> quiet_in d r -> r !! "start" = Some v ->
     py_lt s v = Ok true) ->
  (forall r v, r ∈ after -> quiet_in d r -> r !! "start" = Some v ->
     py_lt v s = Ok false) ->
  load_contention_dataset strptime format_float files dataset_id
  = Ok (records, warnings') ->
  forall rec, rec ∈ records -> rec !! "dataset_id" = Some (VStr d) ->
    rec !! "primary_workload" = Some w.
Proof.
  intros Hload Hq Hs Hw Hbefore Hafter H rec Hin Hd.
  unfold load_contention_dataset in H. rewrite Hload in H.
  cbn [mbind result_bind] in H.
  destruct (earliest_quiet (before ++ q :: after)%list []) as [ms|] eqn:Eq;
    [|discriminate].
  cbn [mbind result_bind] in H.
  destruct (label_all ms (before ++ q :: after)%list) as [out|] eqn:El; [|discriminate].
  cbn [mbind result_bind] in H.
  assert (out = records) as ->.
  { destruct out; [discriminate|]. injection H as <- _. reflexivity. }
  clear H.
  apply (before_earliest d s before (q :: after) [] ms) in Eq
    as (ms1 & Hrest & Hinv); [|exact Hbefore|discriminate].
  apply earliest_quiet_step in Hrest as (ms2 & Hrest & _ & _ & Hnone & Hsome).
  assert (Hl2 : lookup_earliest (VStr d) ms2 = Some (mkEarliest (VStr d) s w)).
  { destruct (lookup_earliest (VStr d) ms1) as [e|] eqn:E1.
    - rewrite (Hsome d e s w Hq E1 Hs Hw (Hinv e eq_refl)).
      apply lookup_store_same.
    - destruct (Hnone d Hq E1) as (s' & w' & Hs' & Hw' & ->).
      rewrite Hs in Hs'. injection Hs' as <-.
      rewrite Hw in Hw'. injection Hw' as <-.
      apply lookup_store_same. }
  destruct (after_earliest d s w after ms2 ms _ Hafter Hl2 eq_refl eq_refl Hrest)
    as (e' & He' & Hw').
  destruct (label_all_inv _ _ _ El rec Hin) as (r0 & _ & Hlab).
  apply label_primary in Hlab as [Hd0 ->].
  rewrite <- Hd0, Hd. simpl. rewrite He', Hw'. reflexivity.
Qed.

End Primary.

(** *** A dataset of four files *)

(** The output of one IOR run. *)
Definition ior_run (began ordering row : string) : list string :=
  [ "IOR-3.3.0: MPI Coordinated Test of Parallel I/O";
    "StartTime           : " ++ began;
    "ordering in a file  : " ++ ordering;
    "nodes               : 2";
    "aggregate filesize  : 4 GiB";
    "Results:";
    "access    bw(MiB/s)  IOPS";
    "------    ---------  ----";
    row;
    "Finished            : Tue Jul 20 13:00:31 2021" ].

(** No access of the examples is a float. *)
Definition no_float (x : pyfloat) : string := "".

(** The files of a glob: the quiet run of the primary job, the quiet run
    of the secondary job, which began a minute earlier, a contended run of
    md-workbench, and a file that is no output. *)
Definition dataset : list (string * list string) :=
  [ ("results/primary_quiet.7p-1s.2125435.out",
     ior_run "Tue Jul 20 12:59:31 2021" "sequential" "write     100.5      25");
    ("results/secondary_quiet.7p-1s.2125435.out",
     ior_run "Tue Jul 20 12:58:31 2021" "random" "read      50.5       12");
    ("results/secondary_contended.7p-1s.2125435.out", MdWorkbench.md_run);
    ("results/notes.7p-1s.2125435.out", ["nothing here"]) ].




(** A call that returns. *)
Definition returns {A : Type} (r : result A) : Prop :=
  match r with
  | Ok _ => True
  | Raise _ => False
  end.

Lemma dataset_loads : returns (load_contention_dataset Clock.strptime no_float dataset None).
Proof. vm_compute. exact I. Qed.

Lemma every_file_is_accounted_for_witness :
  exists records warnings,
    load_contention_dataset Clock.strptime no_float dataset None
    = Ok (records, warnings) /\
    (length records + length warnings = 4)%nat.
Proof.
  pose proof dataset_loads as Hr.
  destruct (load_contention_dataset Clock.strptime no_float dataset None)
    as [[records warnings]|e] eqn:E; [|destruct Hr].
  exists records, warnings. split; [reflexivity|].
  exact (proj1 (proj2 (every_file_is_accounted_for Clock.strptime no_float dataset
                         None records warnings E))).
Defined.

Lemma no_valid_output_is_an_error_witness :
  load_contention_dataset Clock.strptime no_float
    [("results/notes.7p-1s.2125435.out", ["nothing here"])] (Some "2125435")
  = Raise (ValueError "Invalid datasets").
Proof.
  apply (no_valid_output_is_an_error Clock.strptime no_float).
  repeat constructor.
Defined.

Lemma dataset_id_argument_is_overwritten_witness :
  load_contention_dataset Clock.strptime no_float dataset (Some "1")
  = load_contention_dataset Clock.strptime no_float dataset None.
Proof.
  apply (dataset_id_argument_is_overwritten Clock.strptime no_float).
  - vm_compute. reflexivity.
  - intros H.
    assert (Hv : match try_loaders Clock.strptime
                         (ior_run "Tue Jul 20 12:59:31 2021" "sequential"
                            "write     100.5      25") with
                 | Ok None => False
                 | _ => True
                 end) by (vm_compute; exact I).
    rewrite H in Hv. exact Hv.
Defined.

(** The three records of the dataset, as the first loop leaves them. *)
Lemma dataset_records :
  match load_files Clock.strptime no_float dataset None with
  | Ok ([r0; r1; r2], _) =>
      r0 !! "start" = Some (VFloat (Finite 1626785971)) /\
      r1 !! "contention" = Some (VStr "quiet") /\
      r1 !! "dataset_id" = Some (VStr "2125435") /\
      r1 !! "start" = Some (VFloat (Finite 1626785911)) /\
      r1 !! "workload" = Some (VStr "read iops") /\
      r2 !! "contention" = Some (VStr "contended")
  | _ => False
  end.
Proof. vm_compute. repeat split; reflexivity. Qed.

Lemma primary_workload_is_first_quiet_witness :
  exists records warnings,
    load_contention_dataset Clock.strptime no_float dataset None
    = Ok (records, warnings) /\
    forall rec, rec ∈ records -> rec !! "dataset_id" = Some (VStr "2125435") ->
      rec !! "primary_workload" = Some (VStr "read iops").
Proof.
  pose proof dataset_loads as Hr.
  destruct (load_contention_dataset Clock.strptime no_float dataset None)
    as [[records warnings]|e] eqn:E; [|destruct Hr].
  exists records, warnings. split; [reflexivity|].
  pose proof dataset_records as Hf.
  destruct (load_files Clock.strptime no_float dataset None)
    as [[recs ws]|e] eqn:El; [|destruct Hf].
  destruct recs as [|r0 [|r1 [|r2 [|r3 recs]]]]; try (exfalso; exact Hf).
  destruct Hf as (Hs0 & Hc1 & Hd1 & Hs1 & Hw1 & Hc2).
  apply (primary_workload_is_first_quiet Clock.strptime no_float dataset None
           [r0] [r2] r1 "2125435" (VFloat (Finite 1626785911)) (VStr "read iops")
           ws warnings records El (conj Hc1 Hd1) Hs1 Hw1).
  - intros r v Hin _ Hs. apply list_elem_of_singleton in Hin as ->.
    rewrite Hs0 in Hs. injection Hs as <-. reflexivity.
  - intros r v Hin [Hc _]. apply list_elem_of_singleton in Hin as ->.
    rewrite Hc2 in Hc. discriminate Hc.
  - exact E.
Defined.

End Load.
